(** * Flip 7: rules engine and MCTS agent

    A shallow embedding of [flip7_engine.py] and [mcts_agent.py].

    - Python integers are [Z]; floats are IEEE binary64 ([PrimFloat]).
    - A method that mutates [self] is a computation in a small
      state-and-exception monad over the object it mutates.
    - Objects that the search agent clones ([GameState], [Flip7Deck]) and
      the tree nodes live in an explicit store, so that aliasing between
      the caller's state and the agent's working copies is visible.
    - The Mersenne Twister behind [random.Random] and [math.log] are
      library code; they are the fields of the class [PyRuntime]. *)

From Stdlib Require Import ZArith List String Bool Lia Floats.
From stdpp Require Import base option list gmap.

Import ListNotations.
Local Open Scope string_scope.
Local Open Scope list_scope.
Local Open Scope Z_scope.

(** ** Python values shared by both modules *)

Inductive exn : Type :=
  | ValueError
  | IndexError
  | ZeroDivisionError
  | TypeError
  | OverflowError
  | AttributeError
  | AssertionError
  | RecursionError.

Inductive result (A : Type) : Type :=
  | Ok (a : A)
  | Raise (e : exn).

Arguments Ok {A} a.
Arguments Raise {A} e.

(** [seq[i]] for a Python int [i]: negative indices count from the end,
    anything else outside the range is an [IndexError]. *)
Definition py_index {A : Type} (l : list A) (i : Z) : option nat :=
  let n := Z.of_nat (length l) in
  if (0 <=? i) && (i <? n) then Some (Z.to_nat i)
  else if (- n <=? i) && (i <? 0) then Some (Z.to_nat (n + i))
  else None.

(** [sum(l)] over a list of ints. *)
Definition py_sum (l : list Z) : Z := fold_left Z.add l 0.

(** [len(set(l))] over a list of ints. *)
Definition distinct_count (l : list Z) : Z :=
  Z.of_nat (length (nodup Z.eq_dec l)).

(** [v in l] over a list of ints. *)
Definition py_in (v : Z) (l : list Z) : bool := existsb (Z.eqb v) l.

(** ** [flip7_engine.Card] *)

Record Card : Type := mkCard {
  kind : string;          (* 'number', 'modifier', 'action', 'mult' *)
  value : option Z;
  name : option string
}.

Definition Card_number (n : Z) : Card := mkCard "number" (Some n) None.
Definition Card_modifier (m : Z) : Card := mkCard "modifier" (Some m) None.
Definition Card_action (s : string) : Card := mkCard "action" None (Some s).
Definition Card_mult : Card := mkCard "mult" None None.

(** The values stored in the outcome dictionaries of [apply_action]. *)
Inductive pyval : Type :=
  | VBool (b : bool)
  | VInt (z : Z)
  | VStr (s : string)
  | VCard (c : Card)
  | VCards (l : list Card).

(** A dict literal, in insertion order. *)
Definition pydict : Type := list (string * pyval).

(** [d.get(k)] *)
Fixpoint dict_get (k : string) (d : pydict) : option pyval :=
  match d with
  | [] => None
  | (k', v) :: d' => if String.eqb k k' then Some v else dict_get k d'
  end.

(** Truth value of [d.get(k)]: a missing key gives [None], which is false. *)
Definition truthy (v : option pyval) : bool :=
  match v with
  | None => false
  | Some (VBool b) => b
  | Some (VInt z) => negb (z =? 0)
  | Some (VStr s) => negb (String.eqb s "")
  | Some (VCard _) => true
  | Some (VCards l) => match l with [] => false | _ => true end
  end.

(** [range(a, b)] *)
Definition py_range (a b : Z) : list Z :=
  map (fun k => a + Z.of_nat k) (seq 0 (Z.to_nat (b - a))).

(** ** The runtime the program is linked against *)

Class PyRuntime : Type := {
  (** state of one [random.Random] instance *)
  rng_state : Type;
  (** [random.Random(seed)] and [rng.seed(seed)] for an int seed *)
  rng_seed : Z -> rng_state;
  (** [random.Random(None)]: seeded from operating-system entropy *)
  rng_urandom : Z -> rng_state;
  (** [rng.shuffle(cards)]: the reordered list and the advanced generator *)
  rng_shuffle : rng_state -> list Card -> list Card * rng_state;
  (** the index drawn by [rng.choice] on a sequence of the given length *)
  rng_randbelow : rng_state -> nat -> nat * rng_state;
  (** [math.log] on a positive int *)
  math_log : Z -> float
}.

(** ** [flip7_engine.Flip7Deck] *)

Section Deck.
Context `{RT : PyRuntime}.

Record Flip7Deck : Type := mkDeck {
  rng : rng_state;
  cards : list Card
}.

(** [random.Random(seed)]; [env] is the entropy the operating system would
    hand out, read only when no seed is given. *)
Definition Random_new (seed : option Z) (env : Z) : rng_state :=
  match seed with
  | Some s => rng_seed s
  | None => rng_urandom env
  end.

(** The card list built by [Flip7Deck.__init__], before the size assertion. *)
Definition initial_cards : list Card :=
  [Card_number 0; Card_number 1]
  ++ flat_map (fun n => repeat (Card_number n) (Z.to_nat n)) (py_range 2 13)
  ++ map Card_modifier (py_range 2 11)
  ++ repeat (Card_action "Freeze") 2
  ++ repeat (Card_action "FlipThree") 2
  ++ [Card_action "SecondChance"]
  ++ [Card_mult].

(** [Flip7Deck(seed)], with its closing [assert len(self.cards) == 94]. *)
Definition Flip7Deck_init (seed : option Z) (env : Z) : result Flip7Deck :=
  let d := mkDeck (Random_new seed env) initial_cards in
  if Z.of_nat (length (cards d)) =? 94 then Ok d else Raise AssertionError.

(** [deck.shuffle(seed)] *)
Definition Flip7Deck_shuffle (seed : option Z) (d : Flip7Deck) : Flip7Deck :=
  let r := match seed with Some s => rng_seed s | None => rng d end in
  let '(cs, r') := rng_shuffle r (cards d) in
  mkDeck r' cs.

(** [deck.draw()] *)
Definition Flip7Deck_draw (d : Flip7Deck) : result Card * Flip7Deck :=
  match cards d with
  | [] => (Raise IndexError, d)
  | c :: rest => (Ok c, mkDeck (rng d) rest)
  end.

(** [deck.remaining()] *)
Definition Flip7Deck_remaining (d : Flip7Deck) : Z :=
  Z.of_nat (length (cards d)).

(** [deck.copy()]: a new deck object holding a copy of the card list and a
    generator seeded afresh. *)
Definition Flip7Deck_copy (d : Flip7Deck) (env : Z) : result Flip7Deck :=
  match Flip7Deck_init None env with
  | Ok d' => Ok (mkDeck (rng_urandom env) (cards d))
  | Raise e => Raise e
  end.

(** [deck.set_cards(cards)] *)
Definition Flip7Deck_set_cards (cs : list Card) (d : Flip7Deck) : Flip7Deck :=
  mkDeck (rng d) cs.

End Deck.

(** ** [flip7_engine.GameState] *)

(** The fields of a [GameState] object. [D] is what the [deck] attribute
    holds: the deck itself in the rules engine below, a reference into the
    store in the search agent. *)
Record GameState_ (D : Type) : Type := mkGameState {
  num_players : Z;
  player_totals : list Z;
  current_player : Z;
  deck : D;
  current_numbers : list Z;
  flat_modifiers : Z;
  x2 : bool;
  second_chance_count : Z;
  round_over : bool;
  winner : option Z
}.

Arguments mkGameState {D}.
Arguments num_players {D}.
Arguments player_totals {D}.
Arguments current_player {D}.
Arguments deck {D}.
Arguments current_numbers {D}.
Arguments flat_modifiers {D}.
Arguments x2 {D}.
Arguments second_chance_count {D}.
Arguments round_over {D}.
Arguments winner {D}.

(** Replace the [deck] attribute, keeping every other field. *)
Definition with_deck {D D' : Type} (d : D') (gs : GameState_ D) : GameState_ D' :=
  mkGameState (num_players gs) (player_totals gs) (current_player gs) d
    (current_numbers gs) (flat_modifiers gs) (x2 gs) (second_chance_count gs)
    (round_over gs) (winner gs).

Section Engine.
Context `{RT : PyRuntime}.

Definition GameState : Type := GameState_ Flip7Deck.

(** Methods run in a state-and-exception monad over [self]: an exception
    leaves the mutations made before it in place. *)
Definition E (A : Type) : Type := GameState -> result A * GameState.

Definition eret {A : Type} (a : A) : E A := fun gs => (Ok a, gs).
Definition eraise {A : Type} (e : exn) : E A := fun gs => (Raise e, gs).
Definition ebind {A B : Type} (c : E A) (k : A -> E B) : E B :=
  fun gs =>
    match c gs with
    | (Ok a, gs') => k a gs'
    | (Raise e, gs') => (Raise e, gs')
    end.
Definition eget : E GameState := fun gs => (Ok gs, gs).
Definition emodify (f : GameState -> GameState) : E unit := fun gs => (Ok tt, f gs).

End Engine.

Declare Scope eng_scope.
Delimit Scope eng_scope with eng.
Notation "x <- c ;; k" := (ebind c (fun x => k))
  (at level 100, c at next level, k at level 200, right associativity) : eng_scope.
Notation "c ;; k" := (ebind c (fun _ => k))
  (at level 100, k at level 200, right associativity) : eng_scope.

Section EngineMethods.
Context `{RT : PyRuntime}.
Local Open Scope eng_scope.

(** Attribute assignments [self.f = v]. *)
Definition set_player_totals (v : list Z) : E unit :=
  emodify (fun gs => mkGameState (num_players gs) v (current_player gs) (deck gs)
    (current_numbers gs) (flat_modifiers gs) (x2 gs) (second_chance_count gs)
    (round_over gs) (winner gs)).
Definition set_current_player (v : Z) : E unit :=
  emodify (fun gs => mkGameState (num_players gs) (player_totals gs) v (deck gs)
    (current_numbers gs) (flat_modifiers gs) (x2 gs) (second_chance_count gs)
    (round_over gs) (winner gs)).
Definition set_deck_obj (v : Flip7Deck) : E unit :=
  emodify (with_deck v).
Definition set_current_numbers (v : list Z) : E unit :=
  emodify (fun gs => mkGameState (num_players gs) (player_totals gs) (current_player gs)
    (deck gs) v (flat_modifiers gs) (x2 gs) (second_chance_count gs)
    (round_over gs) (winner gs)).
Definition set_flat_modifiers (v : Z) : E unit :=
  emodify (fun gs => mkGameState (num_players gs) (player_totals gs) (current_player gs)
    (deck gs) (current_numbers gs) v (x2 gs) (second_chance_count gs)
    (round_over gs) (winner gs)).
Definition set_x2 (v : bool) : E unit :=
  emodify (fun gs => mkGameState (num_players gs) (player_totals gs) (current_player gs)
    (deck gs) (current_numbers gs) (flat_modifiers gs) v (second_chance_count gs)
    (round_over gs) (winner gs)).
Definition set_second_chance_count (v : Z) : E unit :=
  emodify (fun gs => mkGameState (num_players gs) (player_totals gs) (current_player gs)
    (deck gs) (current_numbers gs) (flat_modifiers gs) (x2 gs) v
    (round_over gs) (winner gs)).
Definition set_round_over (v : bool) : E unit :=
  emodify (fun gs => mkGameState (num_players gs) (player_totals gs) (current_player gs)
    (deck gs) (current_numbers gs) (flat_modifiers gs) (x2 gs) (second_chance_count gs)
    v (winner gs)).
Definition set_winner (v : option Z) : E unit :=
  emodify (fun gs => mkGameState (num_players gs) (player_totals gs) (current_player gs)
    (deck gs) (current_numbers gs) (flat_modifiers gs) (x2 gs) (second_chance_count gs)
    (round_over gs) v).

(** [GameState(num_players, deck, seed)] *)
Definition GameState_init (n : Z) (d : option Flip7Deck) (seed : option Z) (env : Z)
  : result GameState :=
  let made := match d with
              | Some d0 => Ok d0
              | None => Flip7Deck_init seed env
              end in
  match made with
  | Raise e => Raise e
  | Ok d0 =>
      Ok (mkGameState n (repeat 0 (Z.to_nat n)) 0 (Flip7Deck_shuffle seed d0)
            [] 0 false 0 false None)
  end.

(** [gs.legal_actions()] *)
Definition legal_actions (gs : GameState) : list string :=
  if round_over gs || (match winner gs with Some _ => true | None => false end)
  then []
  else ["hit"; "stay"].

(** [gs.set_deck(cards)] *)
Definition set_deck (cs : list Card) : E unit :=
  gs <- eget ;; set_deck_obj (Flip7Deck_set_cards cs (deck gs)).

(** [gs.game_over()] *)
Definition game_over (gs : GameState) : bool :=
  match winner gs with Some _ => true | None => false end.

(** [gs._sum_current_score()] *)
Definition _sum_current_score (gs : GameState) : Z :=
  let s := py_sum (current_numbers gs) in
  let s := if x2 gs then s * 2 else s in
  let s := s + flat_modifiers gs in
  let s := if distinct_count (current_numbers gs) >=? 7 then s + 15 else s in
  s.

(** [self.player_totals[self.current_player] += score] *)
Definition add_to_current_total (score : Z) : E unit :=
  gs <- eget ;;
  match py_index (player_totals gs) (current_player gs) with
  | None => eraise IndexError
  | Some i =>
      match player_totals gs !! i with
      | None => eraise IndexError
      | Some t => set_player_totals (<[i := t + score]> (player_totals gs))
      end
  end.

(** [self.player_totals[self.current_player]] *)
Definition current_total : E Z :=
  gs <- eget ;;
  match py_index (player_totals gs) (current_player gs) with
  | None => eraise IndexError
  | Some i =>
      match player_totals gs !! i with
      | None => eraise IndexError
      | Some t => eret t
      end
  end.

(** The four assignments that clear the current line. *)
Definition reset_line : E unit :=
  set_current_numbers [] ;;
  set_flat_modifiers 0 ;;
  set_x2 false ;;
  set_second_chance_count 0.

(** [if self.player_totals[self.current_player] >= 200: self.winner = ...] *)
Definition check_winner : E unit :=
  t <- current_total ;;
  if t >=? 200
  then (gs <- eget ;; set_winner (Some (current_player gs)))
  else eret tt.

(** [gs._bank_current()] *)
Definition _bank_current : E unit :=
  gs <- eget ;;
  let score := match current_numbers gs with
               | [] => 0
               | _ :: _ => _sum_current_score gs
               end in
  add_to_current_total score ;;
  reset_line ;;
  set_round_over true ;;
  check_winner.

(** [c = self.deck.draw()] *)
Definition draw : E Card :=
  fun gs =>
    let '(r, d') := Flip7Deck_draw (deck gs) in
    (r, with_deck d' gs).

(** [self.current_player = (self.current_player + 1) % self.num_players] *)
Definition advance_player : E unit :=
  gs <- eget ;;
  if num_players gs =? 0 then eraise ZeroDivisionError
  else set_current_player ((current_player gs + 1) mod num_players gs).

(** The body of the [for _ in range(3)] loop of the FlipThree branch, with
    [n] iterations left; [process] is the recursive call. *)
Fixpoint flip_three_loop (process : Card -> E pydict) (card : Card)
    (n : nat) (draws : list Card) : E pydict :=
  match n with
  | O => eret [("result", VStr "flipthree_done"); ("card", VCard card);
              ("draws", VCards draws)]
  | S n' =>
      gs <- eget ;;
      if Flip7Deck_remaining (deck gs) =? 0
      then eret [("result", VStr "flipthree_done"); ("card", VCard card);
                ("draws", VCards draws)]
      else
        c <- draw ;;
        let draws' := draws ++ [c] in
        res <- process c ;;
        if truthy (dict_get "round_end" res)
        then eret [("result", VStr "flipthree_resolved"); ("card", VCard card);
                  ("draws", VCards draws'); ("round_end", VBool true)]
        else flip_three_loop process card n' draws'
  end.

(** [gs._process_draw(card)], with the depth of the Python call stack
    bounded by [depth]. A number or modifier card built without a value
    breaks the declared types ([List[int]], [int]). For a modifier Python
    raises TypeError at [+=], as the model does. For a number Python
    appends [None] to the line, answers "number_added" and raises
    TypeError at the next [sum]; the line of the model holds ints only, and
    the model raises at the dispatch. The two agree on decks of typed
    cards, as the deck of the program is. *)
Fixpoint process_draw_depth (depth : nat) (card : Card) : E pydict :=
  match depth with
  | O => eraise RecursionError
  | S depth' =>
    if String.eqb (kind card) "number" then
      match value card with
      | None => eraise TypeError
      | Some v =>
          gs <- eget ;;
          if py_in v (current_numbers gs) then
            if second_chance_count gs >? 0 then
              set_second_chance_count (second_chance_count gs - 1) ;;
              eret [("result", VStr "duplicate_discarded"); ("card", VCard card)]
            else
              reset_line ;;
              set_round_over true ;;
              eret [("result", VStr "bust"); ("card", VCard card);
                   ("round_end", VBool true)]
          else
            set_current_numbers (current_numbers gs ++ [v]) ;;
            gs1 <- eget ;;
            if distinct_count (current_numbers gs1) >=? 7 then
              let score := _sum_current_score gs1 in
              add_to_current_total score ;;
              reset_line ;;
              set_round_over true ;;
              check_winner ;;
              eret [("result", VStr "flip7"); ("card", VCard card);
                   ("banked", VInt score); ("round_end", VBool true)]
            else
              eret [("result", VStr "number_added"); ("card", VCard card)]
      end
    else if String.eqb (kind card) "modifier" then
      match value card with
      | None => eraise TypeError
      | Some m =>
          gs <- eget ;;
          set_flat_modifiers (flat_modifiers gs + m) ;;
          eret [("result", VStr "modifier_added"); ("card", VCard card)]
      end
    else if String.eqb (kind card) "mult" then
      set_x2 true ;;
      eret [("result", VStr "x2_added"); ("card", VCard card)]
    else if String.eqb (kind card) "action" then
      if (match name card with Some s => String.eqb s "Freeze" | None => false end) then
        _bank_current ;;
        set_round_over true ;;
        eret [("result", VStr "freeze"); ("card", VCard card);
             ("round_end", VBool true)]
      else if (match name card with Some s => String.eqb s "FlipThree" | None => false end) then
        flip_three_loop (process_draw_depth depth') card 3 []
      else if (match name card with Some s => String.eqb s "SecondChance" | None => false end) then
        gs <- eget ;;
        set_second_chance_count (second_chance_count gs + 1) ;;
        eret [("result", VStr "secondchance_added"); ("card", VCard card)]
      else
        eret [("result", VStr "unknown_card"); ("card", VCard card)]
    else
      eret [("result", VStr "unknown_card"); ("card", VCard card)]
  end.

(** [gs._process_draw(card)]. Every nested call has drawn a card first, so
    the stack is never deeper than the deck is long. *)
Definition _process_draw (card : Card) : E pydict :=
  fun gs => process_draw_depth (S (length (cards (deck gs)))) card gs.

(** [gs.apply_action(action)] *)
Definition apply_action (action : string) : E pydict :=
  gs <- eget ;;
  if negb (existsb (String.eqb action) (legal_actions gs)) then eraise ValueError
  else
    set_round_over false ;;
    if String.eqb action "stay" then
      _bank_current ;;
      advance_player ;;
      set_round_over false ;;
      eret [("result", VStr "stayed"); ("banked", VBool true)]
    else
      card <- draw ;;
      outcome <- _process_draw card ;;
      if truthy (dict_get "round_end" outcome)
      then advance_player ;; set_round_over false ;; eret outcome
      else eret outcome.

End EngineMethods.

(** ** [mcts_agent]: the store *)

Module Mcts.

Definition loc : Type := positive.

(** [mcts_agent.Node]. The [state], [parent] and the children are
    references; [children] is the dict in insertion order. *)
Record Node : Type := mkNode {
  state : loc;
  parent : option loc;
  action : option string;
  children : list (string * loc);
  visits : Z;
  value : float
}.

(** A number that is a Python [int] or a Python [float]. *)
Inductive pynum : Type :=
  | PInt (z : Z)
  | PFloat (f : float).

(** [mcts_agent.MCTSAgent]. The weight is declared a float with default
    [50.0]; the experiment driver also passes ints. *)
Record MCTSAgent : Type := mkAgent {
  sims : Z;
  flip7_weight : pynum
}.

(** What a computation over the store ends in: a value, a Python exception,
    a reference that is not in the store (no Python program can build
    one), or a loop that used up its iteration budget. *)
Inductive outcome (A : Type) : Type :=
  | Val (a : A)
  | Exc (e : exn)
  | Dangling
  | Timeout.

Arguments Val {A} a.
Arguments Exc {A} e.
Arguments Dangling {A}.
Arguments Timeout {A}.

Section Store.
Context `{RT : PyRuntime}.

(** The objects the agent works on. A [GameState] object holds a reference
    to its [Flip7Deck] object; the int lists and the generator of a deck
    are owned by the object that holds them. [global_rng] is the hidden
    generator of the [random] module. *)
Record world : Type := mkWorld {
  gs_heap : gmap loc (GameState_ loc);
  deck_heap : gmap loc Flip7Deck;
  node_heap : gmap loc Node;
  global_rng : rng_state
}.

Definition M (A : Type) : Type := world -> outcome A * world.

Definition mret {A : Type} (a : A) : M A := fun w => (Val a, w).
Definition mraise {A : Type} (e : exn) : M A := fun w => (Exc e, w).
Definition mdangling {A : Type} : M A := fun w => (Dangling, w).
Definition mtimeout {A : Type} : M A := fun w => (Timeout, w).
Definition mbind {A B : Type} (c : M A) (k : A -> M B) : M B :=
  fun w =>
    match c w with
    | (Val a, w') => k a w'
    | (Exc e, w') => (Exc e, w')
    | (Dangling, w') => (Dangling, w')
    | (Timeout, w') => (Timeout, w')
    end.

Definition set_gs_heap (h : gmap loc (GameState_ loc)) (w : world) : world :=
  mkWorld h (deck_heap w) (node_heap w) (global_rng w).
Definition set_deck_heap (h : gmap loc Flip7Deck) (w : world) : world :=
  mkWorld (gs_heap w) h (node_heap w) (global_rng w).
Definition set_node_heap (h : gmap loc Node) (w : world) : world :=
  mkWorld (gs_heap w) (deck_heap w) h (global_rng w).
Definition set_global_rng (g : rng_state) (w : world) : world :=
  mkWorld (gs_heap w) (deck_heap w) (node_heap w) g.

(** Read the [GameState] object at [l] together with the deck it refers to. *)
Definition load_state (l : loc) : M GameState :=
  fun w =>
    match gs_heap w !! l with
    | None => (Dangling, w)
    | Some obj =>
        match deck_heap w !! deck obj with
        | None => (Dangling, w)
        | Some d => (Val (with_deck d obj), w)
        end
    end.

(** Write the fields of [gs] back into the object at [l] and into the deck
    object it refers to. *)
Definition store_state (l : loc) (gs : GameState) : M unit :=
  fun w =>
    match gs_heap w !! l with
    | None => (Dangling, w)
    | Some obj =>
        (Val tt,
         set_deck_heap (<[deck obj := deck gs]> (deck_heap w))
           (set_gs_heap (<[l := with_deck (deck obj) gs]> (gs_heap w)) w))
    end.

(** Call a method of the rules engine on the object at [l]. *)
Definition call {A : Type} (l : loc) (c : E A) : M A :=
  mbind (load_state l) (fun gs =>
    let '(r, gs') := c gs in
    mbind (store_state l gs') (fun _ =>
      match r with
      | Ok a => mret a
      | Raise e => mraise e
      end)).

(** [state.clone()], that is [copy.deepcopy(state)]: a new [GameState]
    object and a new deck object, equal field by field to the old ones. *)
Definition clone (l : loc) : M loc :=
  fun w =>
    match gs_heap w !! l with
    | None => (Dangling, w)
    | Some obj =>
        match deck_heap w !! deck obj with
        | None => (Dangling, w)
        | Some d =>
            let d' := fresh (dom (deck_heap w)) in
            let l' := fresh (dom (gs_heap w)) in
            (Val l',
             set_deck_heap (<[d' := d]> (deck_heap w))
               (set_gs_heap (<[l' := with_deck d' obj]> (gs_heap w)) w))
        end
    end.

(** [random.shuffle(st.deck.cards)]: reorders, in place, the card list of
    the deck that the object at [l] refers to. *)
Definition shuffle_deck (l : loc) : M unit :=
  fun w =>
    match gs_heap w !! l with
    | None => (Dangling, w)
    | Some obj =>
        match deck_heap w !! deck obj with
        | None => (Dangling, w)
        | Some d =>
            let '(cs, g) := rng_shuffle (global_rng w) (cards d) in
            (Val tt,
             set_global_rng g
               (set_deck_heap (<[deck obj := mkDeck (rng d) cs]> (deck_heap w)) w))
        end
    end.

(** [random.choice(seq)] *)
Definition choice {A : Type} (l : list A) : M A :=
  fun w =>
    match l with
    | [] => (Exc IndexError, w)
    | x :: _ =>
        let '(k, g) := rng_randbelow (global_rng w) (length l) in
        (Val (nth (k mod length l)%nat l x), set_global_rng g w)
    end.

(** [Node(state, parent, action)] *)
Definition new_node (st : loc) (p : option loc) (a : option string) : M loc :=
  fun w =>
    let n := fresh (dom (node_heap w)) in
    (Val n, set_node_heap (<[n := mkNode st p a [] 0 0%float]> (node_heap w)) w).

Definition get_node (n : loc) : M Node :=
  fun w =>
    match node_heap w !! n with
    | None => (Dangling, w)
    | Some nd => (Val nd, w)
    end.

Definition put_node (n : loc) (nd : Node) : M unit :=
  fun w =>
    match node_heap w !! n with
    | None => (Dangling, w)
    | Some _ => (Val tt, set_node_heap (<[n := nd]> (node_heap w)) w)
    end.

End Store.

Declare Scope mcts_scope.
Delimit Scope mcts_scope with mcts.
Notation "x <- c ;; k" := (mbind c (fun x => k))
  (at level 100, c at next level, k at level 200, right associativity) : mcts_scope.
Notation "c ;; k" := (mbind c (fun _ => k))
  (at level 100, k at level 200, right associativity) : mcts_scope.

(** *** Float arithmetic as Python performs it *)

(** [float(z)], the implicit conversion when an int meets a float:
    round to nearest even, [OverflowError] beyond the largest double. *)
Definition float_of_int (z : Z) : result float :=
  let f := SF2Prim (binary_normalize prec emax z 0 false) in
  if PrimFloat.is_infinity f then Raise OverflowError else Ok f.

(** [a / b] on floats *)
Definition py_fdiv (a b : float) : result float :=
  if PrimFloat.is_zero b then Raise ZeroDivisionError else Ok (a / b)%float.

(** [math.sqrt(x)] *)
Definition math_sqrt (x : float) : result float :=
  if (x <? 0)%float then Raise ValueError else Ok (PrimFloat.sqrt x).

(** [float(r)] for a number that may already be a float *)
Definition pynum_to_float (r : pynum) : result float :=
  match r with
  | PInt z => float_of_int z
  | PFloat f => Ok f
  end.

(** [max(scores)] keeps the first element that no later one exceeds; the
    position is kept too, because [list.index] below recognises the very
    object that [max] returned. *)
Fixpoint max_from (best_i : nat) (best : float) (i : nat) (l : list float)
  : nat * float :=
  match l with
  | [] => (best_i, best)
  | x :: l' =>
      if (best <? x)%float then max_from i x (S i) l'
      else max_from best_i best (S i) l'
  end.

Definition py_max (l : list float) : result (nat * float) :=
  match l with
  | [] => Raise ValueError
  | x :: l' => Ok (max_from 0 x 1 l')
  end.

(** [scores.index(m)]: the first position holding the object [m] itself or
    a float equal to it. *)
Fixpoint index_from (pos : nat) (m : float) (i : nat) (l : list float)
  : result nat :=
  match l with
  | [] => Raise ValueError
  | x :: l' =>
      if Nat.eqb i pos || (x =? m)%float then Ok i
      else index_from pos m (S i) l'
  end.

Definition py_index_of (l : list float) (pm : nat * float) : result nat :=
  index_from (fst pm) (snd pm) 0 l.

(** [d[k] = v] on a dict kept in insertion order *)
Fixpoint dict_set {V : Type} (k : string) (v : V) (d : list (string * V))
  : list (string * V) :=
  match d with
  | [] => [(k, v)]
  | (k', v') :: d' =>
      if String.eqb k k' then (k, v) :: d' else (k', v') :: dict_set k v d'
  end.

(** [k in d] *)
Definition dict_mem {V : Type} (k : string) (d : list (string * V)) : bool :=
  existsb (fun kv => String.eqb k (fst kv)) d.

Section Agent.
Context `{RT : PyRuntime}.
Local Open Scope mcts_scope.

Definition lift {A : Type} (r : result A) : M A :=
  match r with
  | Ok a => mret a
  | Raise e => mraise e
  end.

(** [math.log(n)] on an int *)
Definition py_log (n : Z) : result float :=
  if n <=? 0 then Raise ValueError else Ok (math_log n).

(** The arithmetic of [Node.ucb1] on the fields it reads:
    [self.visits], [self.value], [self.parent.visits]. *)
Definition ucb1_score (self_visits : Z) (self_value : float)
    (parent_visits : option Z) (c_param : float) : result float :=
  if self_visits =? 0 then Ok infinity
  else
    match float_of_int self_visits with
    | Raise e => Raise e
    | Ok vf =>
      match py_fdiv self_value vf with
      | Raise e => Raise e
      | Ok mean =>
        match parent_visits with
        | None => Raise AttributeError
        | Some pv =>
          match py_log pv with
          | Raise e => Raise e
          | Ok lg =>
            match py_fdiv lg vf with
            | Raise e => Raise e
            | Ok q =>
              match math_sqrt q with
              | Raise e => Raise e
              | Ok r => Ok (mean + c_param * r)%float
              end
            end
          end
        end
      end
    end.

(** [node.ucb1(c_param)] *)
Definition ucb1 (n : loc) (c_param : float) : M float :=
  self <- get_node n ;;
  if visits self =? 0 then mret infinity
  else
    match parent self with
    | None => lift (ucb1_score (visits self) (value self) None c_param)
    | Some p =>
        pn <- get_node p ;;
        lift (ucb1_score (visits self) (value self) (Some (visits pn)) c_param)
    end.

(** [[child.ucb1(c_param) for child in choices]] *)
Fixpoint ucb1_all (choices : list loc) (c_param : float) : M (list float) :=
  match choices with
  | [] => mret []
  | ch :: rest =>
      s <- ucb1 ch c_param ;;
      ss <- ucb1_all rest c_param ;;
      mret (s :: ss)
  end.

(** [agent.best_child(node, c_param)] *)
Definition best_child (node : loc) (c_param : float) : M loc :=
  nd <- get_node node ;;
  let choices := map snd (children nd) in
  scores <- ucb1_all choices c_param ;;
  m <- lift (py_max scores) ;;
  i <- lift (py_index_of scores m) ;;
  match choices !! i with
  | Some ch => mret ch
  | None => mraise IndexError
  end.

(** [agent.determinize(state)] *)
Definition determinize (st : loc) : M loc :=
  st' <- clone st ;;
  shuffle_deck st' ;;
  mret st'.

(** The [for a in actions] loop of [expand]. *)
Fixpoint expand_actions (node : loc) (actions : list string) : M unit :=
  match actions with
  | [] => mret tt
  | a :: rest =>
      nd <- get_node node ;;
      (if dict_mem a (children nd) then mret tt
       else
         new_state <- clone (state nd) ;;
         shuffle_deck new_state ;;
         child <- new_node new_state (Some node) (Some a) ;;
         nd' <- get_node node ;;
         put_node node
           (mkNode (state nd') (parent nd') (action nd')
              (dict_set a child (children nd')) (visits nd') (value nd'))) ;;
      expand_actions node rest
  end.

(** [agent.expand(node)] *)
Definition expand (node : loc) : M unit :=
  nd <- get_node node ;;
  gs <- load_state (state nd) ;;
  expand_actions node (legal_actions gs).

(** [res.get('result') == 'flip7'] *)
Definition result_is_flip7 (res : pydict) : bool :=
  match dict_get "result" res with
  | Some (VStr s) => String.eqb s "flip7"
  | _ => false
  end.

(** The [while True] loop of [default_policy]; [fuel] bounds the number of
    iterations. Returns [flip7_hit]. *)
Fixpoint rollout_loop (fuel : nat) (st : loc) (flip7_hit : bool) : M bool :=
  match fuel with
  | O => mtimeout
  | S fuel' =>
      gs <- load_state st ;;
      if game_over gs || (Flip7Deck_remaining (deck gs) =? 0) then mret flip7_hit
      else
        match legal_actions gs with
        | [] => mret flip7_hit
        | actions =>
            act <- choice actions ;;
            res <- call st (apply_action act) ;;
            let flip7_hit' := if result_is_flip7 res then true else flip7_hit in
            if truthy (dict_get "round_end" res) then mret flip7_hit'
            else rollout_loop fuel' st flip7_hit'
        end
  end.

(** [st.player_totals[player]] *)
Definition total_of (st : loc) (player : Z) : M Z :=
  gs <- load_state st ;;
  match py_index (player_totals gs) player with
  | None => mraise IndexError
  | Some i =>
      match player_totals gs !! i with
      | None => mraise IndexError
      | Some t => mret t
      end
  end.

(** [agent.default_policy(state)] *)
Definition default_policy (agent : MCTSAgent) (fuel : nat) (st0 : loc)
  : M (pynum * pydict) :=
  st <- clone st0 ;;
  gs <- load_state st ;;
  let player := current_player gs in
  start_score <- total_of st player ;;
  flip7_hit <- rollout_loop fuel st false ;;
  end_score <- total_of st player ;;
  let reward := end_score - start_score in
  if flip7_hit then
    match flip7_weight agent with
    | PInt wz => mret (PInt (reward + wz), [("flip7", VBool flip7_hit)])
    | PFloat wf =>
        rf <- lift (float_of_int reward) ;;
        mret (PFloat (rf + wf)%float, [("flip7", VBool flip7_hit)])
    end
  else
    mret (PInt reward, [("flip7", VBool flip7_hit)]).

(** [agent.backup(node, reward)]; [fuel] bounds the walk up the parents. *)
Fixpoint backup (fuel : nat) (node : option loc) (reward : pynum) : M unit :=
  match node with
  | None => mret tt
  | Some cur =>
      match fuel with
      | O => mtimeout
      | S fuel' =>
          nd <- get_node cur ;;
          put_node cur
            (mkNode (state nd) (parent nd) (action nd) (children nd)
               (visits nd + 1) (value nd)) ;;
          r <- lift (pynum_to_float reward) ;;
          nd1 <- get_node cur ;;
          put_node cur
            (mkNode (state nd1) (parent nd1) (action nd1) (children nd1)
               (visits nd1) (value nd1 + r)%float) ;;
          backup fuel' (parent nd1) reward
      end
  end.

(** [while node.children: node = self.best_child(node)] *)
Fixpoint select_leaf (fuel : nat) (node : loc) : M loc :=
  match fuel with
  | O => mtimeout
  | S fuel' =>
      nd <- get_node node ;;
      match children nd with
      | [] => mret node
      | _ :: _ =>
          ch <- best_child node 0x1.6666666666666p+0%float ;;
          select_leaf fuel' ch
      end
  end.

(** [agent.tree_policy(root)] *)
Definition tree_policy (fuel : nat) (root : loc) : M loc :=
  select_leaf fuel root.

(** One iteration of the [for i in range(sims)] loop of [run]. *)
Definition simulate_once (agent : MCTSAgent) (fuel : nat) (root : loc) : M unit :=
  node <- select_leaf fuel root ;;
  nd <- get_node node ;;
  node <- (if visits nd >? 0 then
             expand node ;;
             nd' <- get_node node ;;
             match children nd' with
             | [] => mret node
             | _ :: _ => choice (map snd (children nd'))
             end
           else mret node) ;;
  nd2 <- get_node node ;;
  det_state <- clone (state nd2) ;;
  shuffle_deck det_state ;;
  ri <- default_policy agent fuel det_state ;;
  backup fuel (Some node) (fst ri).

Fixpoint simulate_many (agent : MCTSAgent) (fuel : nat) (root : loc) (n : nat)
  : M unit :=
  match n with
  | O => mret tt
  | S n' =>
      simulate_once agent fuel root ;;
      simulate_many agent fuel root n'
  end.

(** The closing loop of [run] over [root.children.items()]. *)
Fixpoint pick_best (items : list (string * loc)) (best_act : option string)
    (best_score : float) : M (option string) :=
  match items with
  | [] => mret best_act
  | (a, child) :: rest =>
      ch <- get_node child ;;
      score <- (if visits ch =? 0 then mret neg_infinity
                else
                  vf <- lift (float_of_int (visits ch)) ;;
                  lift (py_fdiv (value ch) vf)) ;;
      if (best_score <? score)%float
      then pick_best rest (Some a) score
      else pick_best rest best_act best_score
  end.

(** [agent.run(root_state, sims)]; the result [None] is Python's [None].
    [fuel] bounds each [while] loop. *)
Definition run (agent : MCTSAgent) (fuel : nat) (root_state : loc)
    (sims_arg : option Z) : M (option string) :=
  let sims := match sims_arg with Some n => n | None => sims agent end in
  st <- determinize root_state ;;
  root <- new_node st None None ;;
  expand root ;;
  simulate_many agent fuel root (Z.to_nat sims) ;;
  rn <- get_node root ;;
  pick_best (children rn) None neg_infinity.

End Agent.

End Mcts.

(** ** A concrete runtime, to run the model on examples

    A linear congruential generator with a Fisher-Yates shuffle stands in
    for the Mersenne Twister, and [ln 2] times the integer part of the
    binary logarithm for [math.log]. *)

Definition lcg_next (s : Z) : Z := (s * 1103515245 + 12345) mod 2147483648.

Definition lcg_below (s : Z) (n : nat) : nat * Z :=
  let s' := lcg_next s in
  (Z.to_nat ((s' / 65536) mod Z.of_nat n), s').

Fixpoint lcg_shuffle_from (i : nat) (s : Z) (l : list Card) : list Card * Z :=
  match i with
  | O => (l, s)
  | S i' =>
      let '(j, s') := lcg_below s (S i) in
      match l !! i, l !! j with
      | Some a, Some b => lcg_shuffle_from i' s' (<[i := b]> (<[j := a]> l))
      | _, _ => lcg_shuffle_from i' s' l
      end
  end.

(** The float of a positive integer, exact below 2^53. *)
Fixpoint float_of_pos (p : positive) : float :=
  match p with
  | xH => 1%float
  | xO q => (2 * float_of_pos q)%float
  | xI q => (2 * float_of_pos q + 1)%float
  end.

Definition lcg_log (n : Z) : float :=
  match Z.log2 n with
  | Zpos p => (float_of_pos p * 0x1.62e42fefa39efp-1)%float
  | _ => 0%float
  end.

Definition lcg_runtime : PyRuntime := {|
  rng_state := Z;
  rng_seed := fun s => s;
  rng_urandom := fun e => e;
  rng_shuffle := fun s l => lcg_shuffle_from (length l - 1) s l;
  rng_randbelow := lcg_below;
  math_log := lcg_log
|}.

(** ** Specification-side definitions *)

(** The scoring formula in the words of the specification. *)
Definition spec_score (nums : list Z) (flat : Z) (mult : bool) : Z :=
  (if mult then 2 * py_sum nums else py_sum nums)
  + flat
  + (if 7 <=? distinct_count nums then 15 else 0).

(** How many cards of a list satisfy a test. *)
Definition count_cards (p : Card -> bool) (l : list Card) : nat :=
  length (filter (fun c => p c = true) l).

Definition is_number (n : Z) (c : Card) : bool :=
  String.eqb (kind c) "number" && bool_decide (value c = Some n).
Definition is_modifier (m : Z) (c : Card) : bool :=
  String.eqb (kind c) "modifier" && bool_decide (value c = Some m).
Definition is_action (s : string) (c : Card) : bool :=
  String.eqb (kind c) "action" && bool_decide (name c = Some s).
Definition is_mult (c : Card) : bool := String.eqb (kind c) "mult".
Definition has_kind (k : string) (c : Card) : bool := String.eqb (kind c) k.

(** The number of copies of [Number(n)] the specification asks for. *)
Definition spec_number_copies (n : Z) : nat :=
  if (n =? 0) || (n =? 1) then 1%nat
  else if (2 <=? n) && (n <=? 12) then Z.to_nat n
  else 0%nat.

(** The number of copies of [Modifier(m)] the specification asks for. *)
Definition spec_modifier_copies (m : Z) : nat :=
  if (2 <=? m) && (m <=? 10) then 1%nat else 0%nat.

Section BankingSpec.
Context `{RT : PyRuntime}.

(** The amount [_bank_current] adds: nothing for an empty line. *)
Definition banked_amount (gs : GameState) : Z :=
  match current_numbers gs with
  | [] => 0
  | _ :: _ => spec_score (current_numbers gs) (flat_modifiers gs) (x2 gs)
  end.

(** The state [_bank_current] leaves behind when the active player's index
    [i] is valid and the total there is [t]. *)
Definition banked_state (gs : GameState) (i : nat) (t : Z) : GameState :=
  let t' := t + banked_amount gs in
  mkGameState (num_players gs) (<[i := t']> (player_totals gs)) (current_player gs)
    (deck gs) [] 0 false 0 true
    (if t' >=? 200 then Some (current_player gs) else winner gs).

End BankingSpec.

(** Two states used as examples: numbers 3 and 4 with a +5 modifier, and an
    empty line with a +5 modifier. *)
Definition ex_line_3_4 : @GameState lcg_runtime :=
  mkGameState 2 [0; 0] 0 (@mkDeck lcg_runtime 0 []) [3; 4] 5 false 0 false None.

Definition ex_empty_line : @GameState lcg_runtime :=
  mkGameState 2 [0; 0] 0 (@mkDeck lcg_runtime 0 []) [] 5 false 0 false None.

(** A state about to bust: the line holds 3 and 4, a 4 is on top of the deck. *)
Definition ex_about_to_bust : @GameState lcg_runtime :=
  mkGameState 2 [30; 10] 0 (@mkDeck lcg_runtime 0 [Card_number 4; Card_number 9])
    [3; 4] 5 true 0 false None.

(** ** What a processed draw may change *)

Section DrawSpec.
Context `{RT : PyRuntime}.

(** The card that starts the forced-draw loop. *)
Definition is_flip_three (c : Card) : bool :=
  String.eqb (kind c) "action"
  && match name c with Some s => String.eqb s "FlipThree" | None => false end.

(** Fields that no draw touches; the deck only loses cards. *)
Definition frame_fields (gs gs' : GameState) : Prop :=
  num_players gs' = num_players gs
  /\ current_player gs' = current_player gs
  /\ (length (cards (deck gs')) <= length (cards (deck gs)))%nat.

(** The round goes on: totals, round flag and winner are as before. *)
Definition quiet (gs gs' : GameState) : Prop :=
  frame_fields gs gs'
  /\ player_totals gs' = player_totals gs
  /\ round_over gs' = round_over gs
  /\ winner gs' = winner gs.

(** The round has ended: by a bust (totals and winner as before) or by a
    bank of some amount [s] into the active player's total. *)
Definition ended (gs gs' : GameState) : Prop :=
  frame_fields gs gs'
  /\ round_over gs' = true
  /\ current_numbers gs' = []
  /\ ((player_totals gs' = player_totals gs /\ winner gs' = winner gs)
      \/ exists (i : nat) (t s : Z),
           py_index (player_totals gs) (current_player gs) = Some i
           /\ player_totals gs !! i = Some t
           /\ player_totals gs' = <[i := t + s]> (player_totals gs)
           /\ winner gs' = if t + s >=? 200 then Some (current_player gs)
                           else winner gs).

(** What [_process_draw] guarantees about the state it leaves. *)
Definition draw_post (gs : GameState) (out : result pydict * GameState) : Prop :=
  match fst out with
  | Ok res =>
      if truthy (dict_get "round_end" res) then ended gs (snd out)
      else quiet gs (snd out)
  | Raise e => e <> RecursionError /\ quiet gs (snd out)
  end.

End DrawSpec.

(** ** Reachable states and the winner invariant *)

Section ReachSpec.
Context `{RT : PyRuntime}.

(** The states a game passes through: built by the constructor, then changed
    through [apply_action] (whether it returns or raises) and [set_deck]. *)
Inductive reachable : GameState -> Prop :=
  | reach_init (n : Z) (d : option Flip7Deck) (seed : option Z) (env : Z)
      (gs : GameState) :
      GameState_init n d seed env = Ok gs -> reachable gs
  | reach_action (gs : GameState) (a : string) :
      reachable gs -> reachable (snd (apply_action a gs))
  | reach_set_deck (gs : GameState) (cs : list Card) :
      reachable gs -> reachable (snd (set_deck cs gs)).

(** The winner is exactly the player whose total has reached 200. *)
Definition winner_matches_totals (gs : GameState) : Prop :=
  (forall q, winner gs = Some q ->
     exists (p : nat) (t : Z),
       q = Z.of_nat p /\ player_totals gs !! p = Some t /\ 200 <= t)
  /\ (forall (p : nat) (t : Z),
        player_totals gs !! p = Some t -> 200 <= t ->
        winner gs = Some (Z.of_nat p)).

(** One total per player, and the active player's index is one of them. *)
Definition players_ok (gs : GameState) : Prop :=
  length (player_totals gs) = Z.to_nat (num_players gs)
  /\ (0 < num_players gs -> 0 <= current_player gs < num_players gs).

(** A bank event: the active player's total grows by [s]. *)
Definition bank_event (gs gs' : GameState) (s : Z) : Prop :=
  exists (i : nat) (t : Z),
    py_index (player_totals gs) (current_player gs) = Some i
    /\ player_totals gs !! i = Some t
    /\ player_totals gs' = <[i := t + s]> (player_totals gs)
    /\ winner gs' = if t + s >=? 200 then Some (current_player gs) else winner gs.

(** What one call of [apply_action] may do to the totals, the winner and
    the turn. *)
Definition turn (gs gs' : GameState) : Prop :=
  num_players gs' = num_players gs
  /\ (current_player gs' = current_player gs
      \/ (num_players gs <> 0
          /\ current_player gs' = (current_player gs + 1) mod num_players gs))
  /\ ((player_totals gs' = player_totals gs /\ winner gs' = winner gs)
      \/ exists s, bank_event gs gs' s).

End ReachSpec.

(** A two-player game played to its end: a single card worth 200 is drawn
    and banked by the first player. *)
Definition ex_short_game_start : result (@GameState lcg_runtime) :=
  GameState_init 2 (Some (@mkDeck lcg_runtime 0 [Card_number 200])) (Some 1) 0.

Definition ex_short_game_end : @GameState lcg_runtime :=
  match ex_short_game_start with
  | Ok gs => snd (apply_action "stay" (snd (apply_action "hit" gs)))
  | Raise _ => ex_line_3_4
  end.

(** ** The forced draws of a FlipThree card, as the specification words them *)

Section FlipThreeSpec.
Context `{RT : PyRuntime}.

(** Why a forced-draw sequence stopped. *)
Inductive flip_exit : Type :=
  | AllDrawn            (* the allowed draws were all made *)
  | DeckEmpty           (* no card left to draw *)
  | RoundEnded          (* a forced draw ended the round *)
  | DrawRaised (e : exn).

(** [forced_run n gs ds ex gs']: from [gs], with at most [n] forced draws
    allowed, the cards [ds] are drawn and processed one after the other;
    the sequence stops for the reason [ex] and leaves [gs']. A draw is made
    only while draws are left, the deck is not empty and no earlier forced
    draw has ended the round. *)
Inductive forced_run : nat -> GameState -> list Card -> flip_exit -> GameState -> Prop :=
  | forced_all (gs : GameState) :
      forced_run 0 gs [] AllDrawn gs
  | forced_empty (n : nat) (gs : GameState) :
      cards (deck gs) = [] ->
      forced_run (S n) gs [] DeckEmpty gs
  | forced_end (n : nat) (gs : GameState) (c : Card) (rest : list Card)
      (res : pydict) (gs2 : GameState) :
      cards (deck gs) = c :: rest ->
      _process_draw c (with_deck (mkDeck (rng (deck gs)) rest) gs) = (Ok res, gs2) ->
      truthy (dict_get "round_end" res) = true ->
      forced_run (S n) gs [c] RoundEnded gs2
  | forced_raise (n : nat) (gs : GameState) (c : Card) (rest : list Card)
      (e : exn) (gs2 : GameState) :
      cards (deck gs) = c :: rest ->
      _process_draw c (with_deck (mkDeck (rng (deck gs)) rest) gs) = (Raise e, gs2) ->
      forced_run (S n) gs [c] (DrawRaised e) gs2
  | forced_next (n : nat) (gs : GameState) (c : Card) (rest : list Card)
      (res : pydict) (gs2 : GameState) (ds : list Card) (ex : flip_exit)
      (gs3 : GameState) :
      cards (deck gs) = c :: rest ->
      _process_draw c (with_deck (mkDeck (rng (deck gs)) rest) gs) = (Ok res, gs2) ->
      truthy (dict_get "round_end" res) = false ->
      forced_run n gs2 ds ex gs3 ->
      forced_run (S n) gs (c :: ds) ex gs3.

(** The outcome a FlipThree card reports for a forced-draw sequence. *)
Definition flip_outcome (card : Card) (ds : list Card) (ex : flip_exit)
  : result pydict :=
  match ex with
  | AllDrawn | DeckEmpty =>
      Ok [("result", VStr "flipthree_done"); ("card", VCard card);
          ("draws", VCards ds)]
  | RoundEnded =>
      Ok [("result", VStr "flipthree_resolved"); ("card", VCard card);
          ("draws", VCards ds); ("round_end", VBool true)]
  | DrawRaised e => Raise e
  end.

End FlipThreeSpec.

(** A line holding 3, with a FlipThree drawn and a 5, a second 3, and a 9
    next in the deck: the second forced draw busts. *)
Definition ex_flip_three_bust : @GameState lcg_runtime :=
  mkGameState 2 [0; 0] 0
    (@mkDeck lcg_runtime 0 [Card_number 5; Card_number 3; Card_number 9])
    [3] 0 false 0 false None.

(** A FlipThree drawn with a second FlipThree on top of the deck. *)
Definition ex_flip_three_nested : @GameState lcg_runtime :=
  mkGameState 2 [0; 0] 0
    (@mkDeck lcg_runtime 0
       [Card_action "FlipThree"; Card_number 1; Card_number 2; Card_number 5;
        Card_number 6; Card_number 7; Card_number 8])
    [] 0 false 0 false None.

(** ** Children of a tree node, as the selection step sees them *)

Section UcbSpec.
Context `{RT : PyRuntime}.

(** A child that no simulation has gone through yet. *)
Definition unvisited (w : Mcts.world) (ch : Mcts.loc) : Prop :=
  exists nd, Mcts.node_heap w !! ch = Some nd /\ Mcts.visits nd = 0.

(** A visited child whose UCB1 score is an ordinary number: [ucb1] returns
    and its result is below [+inf] (so it is not NaN either). *)
Definition visited_below_infinity (w : Mcts.world) (c_param : float)
    (ch : Mcts.loc) : Prop :=
  exists nd s,
    Mcts.node_heap w !! ch = Some nd
    /\ Mcts.visits nd <> 0
    /\ Mcts.ucb1 ch c_param w = (Mcts.Val s, w)
    /\ (s <? infinity)%float = true.

End UcbSpec.

(** A root visited once, with a visited child "hit" (one visit, value 12)
    and an unvisited child "stay". *)
Definition ex_tree : @Mcts.world lcg_runtime :=
  Mcts.mkWorld ∅ ∅
    (<[1%positive := Mcts.mkNode 1%positive None None
                       [("hit", 2%positive); ("stay", 3%positive)] 1 12%float]>
     (<[2%positive := Mcts.mkNode 1%positive (Some 1%positive) (Some "hit") [] 1 12%float]>
      (<[3%positive := Mcts.mkNode 1%positive (Some 1%positive) (Some "stay") [] 0 0%float]>
       ∅)))
    (0 : @rng_state lcg_runtime).

(** ** The caller's objects during a search *)

Section FrameSpec.
Context `{RT : PyRuntime}.

(** Every [GameState] and deck object of [w0] is still there, unchanged,
    in [w]. *)
Definition preserves (w0 w : Mcts.world) : Prop :=
  (forall l obj, Mcts.gs_heap w0 !! l = Some obj -> Mcts.gs_heap w !! l = Some obj)
  /\ (forall d dk, Mcts.deck_heap w0 !! d = Some dk -> Mcts.deck_heap w !! d = Some dk).

(** A [GameState] object created since [w0] refers to a deck created since
    [w0]. *)
Definition fresh_decks (w0 w : Mcts.world) : Prop :=
  forall l obj,
    Mcts.gs_heap w !! l = Some obj ->
    Mcts.gs_heap w0 !! l = None ->
    Mcts.deck_heap w0 !! deck obj = None.

Definition frame (w0 w : Mcts.world) : Prop :=
  preserves w0 w /\ fresh_decks w0 w.

(** [c] keeps the objects of [w0] as they are, whatever it ends in, and a
    value it returns satisfies [P]. *)
Definition safe {A : Type} (w0 : Mcts.world) (P : A -> Prop) (c : Mcts.M A) : Prop :=
  forall w, frame w0 w ->
    frame w0 (snd (c w)) /\ forall a, fst (c w) = Mcts.Val a -> P a.

End FrameSpec.

(** A store holding one two-player game built with seed 42, and an agent
    with a flip7 weight of 50. *)
Definition ex_game : @GameState lcg_runtime :=
  match GameState_init 2 None (Some 42) 0 with
  | Ok gs => gs
  | Raise _ => ex_line_3_4
  end.

Definition ex_world : @Mcts.world lcg_runtime :=
  Mcts.mkWorld
    {[ 1%positive := with_deck 1%positive ex_game ]}
    {[ 1%positive := deck ex_game ]}
    ∅
    (7 : @rng_state lcg_runtime).

Definition ex_agent : Mcts.MCTSAgent := Mcts.mkAgent 10 (Mcts.PFloat 50%float).

(** ** The tree right after the root has been expanded *)

Section ExpandSpec.
Context `{RT : PyRuntime}.

(** The object at [l] and its deck are in the store, with the given round
    flag and winner. *)
Definition live_state (w : Mcts.world) (l : Mcts.loc) (ro : bool)
    (wn : option Z) : Prop :=
  exists obj d,
    Mcts.gs_heap w !! l = Some obj
    /\ Mcts.deck_heap w !! deck obj = Some d
    /\ round_over obj = ro
    /\ winner obj = wn.

(** A root over the state [st] that no simulation has gone through, with
    the children [cs], none of them visited. *)
Definition fresh_root (w : Mcts.world) (root st : Mcts.loc)
    (cs : list (string * Mcts.loc)) : Prop :=
  Mcts.node_heap w !! root = Some (Mcts.mkNode st None None cs 0 0%float)
  /\ Forall (fun kv => unvisited w (snd kv)) cs
  /\ live_state w st false None.

End ExpandSpec.

(** The same store with the generator in a state from which the next
    [random.choice] among two actions picks the second, "stay". *)
Definition ex_world_stay : @Mcts.world lcg_runtime :=
  Mcts.set_global_rng (3 : @rng_state lcg_runtime) ex_world.

(** ** What a single card does to the state *)

Section LeafSpec.
Context `{RT : PyRuntime}.

(** The current line replaced, everything else kept. *)
Definition with_line (nums : list Z) (flat : Z) (mult : bool) (sc : Z)
    (gs : GameState) : GameState :=
  mkGameState (num_players gs) (player_totals gs) (current_player gs) (deck gs)
    nums flat mult sc (round_over gs) (winner gs).

(** The state after a bust: the line cleared, the round flag raised. *)
Definition busted (gs : GameState) : GameState :=
  mkGameState (num_players gs) (player_totals gs) (current_player gs) (deck gs)
    [] 0 false 0 true (winner gs).

(** [card_step card gs gs']: processing [card], which is not a FlipThree,
    may take [gs] to [gs']. One constructor per branch of [_process_draw];
    [card_same] covers the unknown card and an exception raised before any
    assignment. *)
Inductive card_step (card : Card) (gs : GameState) : GameState -> Prop :=
  | card_same : card_step card gs gs
  | card_discard (v : Z) :
      value card = Some v ->
      py_in v (current_numbers gs) = true ->
      0 < second_chance_count gs ->
      card_step card gs
        (with_line (current_numbers gs) (flat_modifiers gs) (x2 gs)
           (second_chance_count gs - 1) gs)
  | card_bust (v : Z) :
      value card = Some v ->
      py_in v (current_numbers gs) = true ->
      second_chance_count gs <= 0 ->
      card_step card gs (busted gs)
  | card_added (v : Z) :
      value card = Some v ->
      py_in v (current_numbers gs) = false ->
      distinct_count (current_numbers gs ++ [v]) < 7
      \/ py_index (player_totals gs) (current_player gs) = None ->
      card_step card gs
        (with_line (current_numbers gs ++ [v]) (flat_modifiers gs) (x2 gs)
           (second_chance_count gs) gs)
  | card_flip7 (v : Z) (i : nat) (t : Z) :
      value card = Some v ->
      py_in v (current_numbers gs) = false ->
      7 <= distinct_count (current_numbers gs ++ [v]) ->
      py_index (player_totals gs) (current_player gs) = Some i ->
      player_totals gs !! i = Some t ->
      let s := spec_score (current_numbers gs ++ [v]) (flat_modifiers gs) (x2 gs) in
      card_step card gs
        (mkGameState (num_players gs) (<[i := t + s]> (player_totals gs))
           (current_player gs) (deck gs) [] 0 false 0 true
           (if t + s >=? 200 then Some (current_player gs) else winner gs))
  | card_modifier (m : Z) :
      value card = Some m ->
      card_step card gs
        (with_line (current_numbers gs) (flat_modifiers gs + m) (x2 gs)
           (second_chance_count gs) gs)
  | card_mult :
      card_step card gs
        (with_line (current_numbers gs) (flat_modifiers gs) true
           (second_chance_count gs) gs)
  | card_freeze (i : nat) (t : Z) :
      py_index (player_totals gs) (current_player gs) = Some i ->
      player_totals gs !! i = Some t ->
      card_step card gs (banked_state gs i t)
  | card_second :
      card_step card gs
        (with_line (current_numbers gs) (flat_modifiers gs) (x2 gs)
           (second_chance_count gs + 1) gs).

End LeafSpec.

(** The line 3, 4 with one second-chance token, a 4 on top of the deck. *)
Definition ex_second_chance : @GameState lcg_runtime :=
  mkGameState 2 [30; 10] 0 (@mkDeck lcg_runtime 0 [Card_number 4; Card_number 9])
    [3; 4] 5 true 1 false None.

(** ** Invariants of the current line, the deck and the totals *)

Section InvariantSpec.
Context `{RT : PyRuntime}.

(** The line holds fewer than seven numbers, no number twice, and the
    count of second-chance tokens is not negative. *)
Definition line_ok (gs : GameState) : Prop :=
  NoDup (current_numbers gs)
  /\ (length (current_numbers gs) < 7)%nat
  /\ 0 <= second_chance_count gs.

(** A card whose value, if it has one, is not negative. *)
Definition card_nonneg (c : Card) : Prop :=
  forall v, value c = Some v -> 0 <= v.

(** Nothing on the line and nothing in the deck counts negative. *)
Definition nonneg_state (gs : GameState) : Prop :=
  Forall (Z.le 0) (current_numbers gs)
  /\ 0 <= flat_modifiers gs
  /\ Forall card_nonneg (cards (deck gs)).

(** No player's total is lower in [gs'] than in [gs]. *)
Definition totals_le (gs gs' : GameState) : Prop :=
  Forall2 Z.le (player_totals gs) (player_totals gs').

(** A card built as the deck builds them: a number or a modifier carries
    its value. *)
Definition card_typed (c : Card) : Prop :=
  (kind c = "number" \/ kind c = "modifier") -> value c <> None.

(** There is a player, one total per player, and the active player is one
    of them. *)
Definition seated (gs : GameState) : Prop :=
  players_ok gs /\ 0 < num_players gs.

(** A seated game whose deck holds typed cards only. *)
Definition ready (gs : GameState) : Prop :=
  seated gs /\ Forall card_typed (cards (deck gs)).

End InvariantSpec.

(** ** What an expansion leaves in the tree *)

Section ExpandPost.
Context `{RT : PyRuntime}.

(** [c] is a child made by an expansion of [node] under the label [a]: a
    node that was not in [w], now a leaf without visits over a state that
    was not in [w] either. *)
Definition new_child (node : Mcts.loc) (w w1 : Mcts.world) (a : string)
    (c : Mcts.loc) : Prop :=
  Mcts.node_heap w !! c = None
  /\ exists st,
       Mcts.node_heap w1 !! c
       = Some (Mcts.mkNode st (Some node) (Some a) [] 0 0%float)
       /\ Mcts.gs_heap w !! st = None.

(** [expanded node acts w w1]: between [w] and [w1] the node [node] has
    been given a child for every label of [acts] it had none for, and
    nothing else in the tree has changed. *)
Definition expanded (node : Mcts.loc) (acts : list string)
    (w w1 : Mcts.world) : Prop :=
  exists nd cs1,
    Mcts.node_heap w !! node = Some nd
    /\ Mcts.node_heap w1 !! node
       = Some (Mcts.mkNode (Mcts.state nd) (Mcts.parent nd) (Mcts.action nd) cs1
                 (Mcts.visits nd) (Mcts.value nd))
    /\ (forall a, Mcts.dict_mem a cs1 = true
                  <-> Mcts.dict_mem a (Mcts.children nd) = true \/ In a acts)
    /\ (forall a c, In (a, c) (Mcts.children nd) -> In (a, c) cs1)
    /\ (forall a c, In (a, c) cs1 ->
          In (a, c) (Mcts.children nd) \/ new_child node w w1 a c)
    /\ (forall m x, m <> node -> Mcts.node_heap w !! m = Some x ->
          Mcts.node_heap w1 !! m = Some x).

(** An action label of the game. *)
Definition is_label (a : string) : Prop := a = "hit" \/ a = "stay".

(** Every node of the tree has children under the labels "hit" and "stay"
    only. *)
Definition labelled (w : Mcts.world) : Prop :=
  forall n nd,
    Mcts.node_heap w !! n = Some nd ->
    Forall (fun kv => is_label (fst kv)) (Mcts.children nd).

End ExpandPost.

(** The store of [ex_world] with the root of a new tree over its state. *)
Definition ex_world_root : @Mcts.world lcg_runtime :=
  Mcts.set_node_heap
    {[ 1%positive := Mcts.mkNode 1%positive None None [] 0 0%float ]} ex_world.

(** ** The path a reward travels *)

Section BackupSpec.
Context `{RT : PyRuntime}.

(** [path_to_root w n path]: [path] lists [n], its parent, the parent of
    that one, and so on up to a node without a parent. *)
Fixpoint path_to_root (w : Mcts.world) (n : Mcts.loc) (path : list Mcts.loc)
  : Prop :=
  match path with
  | [] => False
  | x :: rest =>
      x = n
      /\ exists nd,
           Mcts.node_heap w !! n = Some nd
           /\ match Mcts.parent nd with
              | None => rest = []
              | Some p => path_to_root w p rest
              end
  end.

(** A node after one more visit that brought the reward [r]. *)
Definition visited_once (r : float) (nd : Mcts.Node) : Mcts.Node :=
  Mcts.mkNode (Mcts.state nd) (Mcts.parent nd) (Mcts.action nd) (Mcts.children nd)
    (Mcts.visits nd + 1) (Mcts.value nd + r)%float.

End BackupSpec.

(** ** Walking down the tree *)

Section DescentSpec.
Context `{RT : PyRuntime}.

(** [c] is one of the children of [p]. *)
Definition child_of (w : Mcts.world) (p c : Mcts.loc) : Prop :=
  exists nd a,
    Mcts.node_heap w !! p = Some nd /\ In (a, c) (Mcts.children nd).

(** A computation that only reads the store. *)
Definition reads_only {A : Type} (c : Mcts.M A) : Prop :=
  forall w, snd (c w) = w.

End DescentSpec.

(** ** Reasoning about what a computation leaves in the store *)

Section TripleSpec.
Context `{RT : PyRuntime}.

(** A computation that leaves the tree as it is. *)
Definition nodes_same {A : Type} (c : Mcts.M A) : Prop :=
  forall w, Mcts.node_heap (snd (c w)) = Mcts.node_heap w.

(** Started in a store that satisfies [Pre], a run of [c] that returns a
    value [a] leaves a store that satisfies [Post a]. *)
Definition triple {A : Type} (Pre : Mcts.world -> Prop) (c : Mcts.M A)
    (Post : A -> Mcts.world -> Prop) : Prop :=
  forall w a w', Pre w -> c w = (Mcts.Val a, w') -> Post a w'.

End TripleSpec.

(** A store holding the state [ex_about_to_bust], with the generator in a
    state from which the first [random.choice] picks "stay". *)
Definition ex_world_bust : @Mcts.world lcg_runtime :=
  Mcts.mkWorld
    {[ 1%positive := with_deck 1%positive ex_about_to_bust ]}
    {[ 1%positive := deck ex_about_to_bust ]}
    ∅
    (3 : @rng_state lcg_runtime).

(** * [experiment_harness]: the baseline agents and a full game *)

Module Harness.
Import Mcts.

(** The agents [play_game] is called with: an [MCTSAgent], a
    [RandomAgent] or a [HeuristicAgent]. *)
Inductive agent : Type :=
  | AgentMCTS (a : MCTSAgent)
  | AgentRandom
  | AgentHeuristic.

Section Play.
Context `{RT : PyRuntime}.
Local Open Scope mcts_scope.

(** [RandomAgent.choose_action(state)] *)
Definition Random_choose_action (st : loc) : M string :=
  gs <- load_state st ;;
  match legal_actions gs with
  | [] => mret "stay"
  | actions => choice actions
  end.

(** [HeuristicAgent.choose_action(state)] *)
Definition Heuristic_choose_action (gs : GameState) : string :=
  let actions := legal_actions gs in
  if negb (existsb (String.eqb "stay") actions)
     && negb (existsb (String.eqb "hit") actions)
  then "stay"
  else
    let cur_sum := py_sum (current_numbers gs) in
    let cur_sum := if x2 gs then cur_sum * 2 else cur_sum in
    let cur_sum := cur_sum + flat_modifiers gs in
    if cur_sum >=? 15 then "stay" else "hit".

(** [GameState(num_players=n, seed=seed)] as a new object in the store,
    with a new deck object. *)
Definition new_game (n : Z) (seed : option Z) (env : Z) : M loc :=
  fun w =>
    match GameState_init n None seed env with
    | Raise e => (Exc e, w)
    | Ok gs =>
        let d := fresh (dom (deck_heap w)) in
        let l := fresh (dom (gs_heap w)) in
        (Val l,
         set_deck_heap (<[d := deck gs]> (deck_heap w))
           (set_gs_heap (<[l := with_deck d gs]> (gs_heap w)) w))
    end.

(** The action the agent [ag] answers on the state at [st]; [None] is
    Python's [None], which only the search can return. *)
Definition agent_action (fuel : nat) (ag : agent) (st : loc) : M (option string) :=
  match ag with
  | AgentMCTS a => run a fuel st (Some (sims a))
  | AgentRandom => a <- Random_choose_action st ;; mret (Some a)
  | AgentHeuristic => gs <- load_state st ;; mret (Some (Heuristic_choose_action gs))
  end.

(** [st.apply_action(action)] for an action that may be [None]: [None] is
    in no list of legal actions. *)
Definition apply_answer (st : loc) (action : option string) : M pydict :=
  match action with
  | None => gs <- load_state st ;; mraise ValueError
  | Some a => call st (apply_action a)
  end.

(** The [while not st.game_over()] loop of [play_game]; [turns] bounds the
    number of iterations, [fuel] the loops of a search. *)
Fixpoint play_loop (turns fuel : nat) (agents : list agent) (st : loc)
  : M (option Z) :=
  match turns with
  | O => mtimeout
  | S turns' =>
      gs <- load_state st ;;
      if game_over gs then mret (winner gs)
      else
        match py_index agents (current_player gs) with
        | None => mraise IndexError
        | Some i =>
            match agents !! i with
            | None => mraise IndexError
            | Some ag =>
                action <- agent_action fuel ag st ;;
                apply_answer st action ;;
                play_loop turns' fuel agents st
            end
        end
  end.

(** [play_game(agents, seed)] *)
Definition play_game (turns fuel : nat) (agents : list agent)
    (seed : option Z) (env : Z) : M (option Z) :=
  st <- new_game (Z.of_nat (length agents)) seed env ;;
  play_loop turns fuel agents st.

End Play.

End Harness.

(** * [mcts_agent.simulate_vs_stay] *)

Module VsStay.
Import Mcts.

(** The four counters of one budget. *)
Record counters : Type := mkCounters {
  hit_busts : Z;
  hit_points : float;
  stay_busts : Z;
  stay_points : float
}.

(** The entry of the [results] dict for one budget. *)
Record rates : Type := mkRates {
  hit_bust_rate : float;
  stay_bust_rate : float;
  hit_avg_points : float;
  stay_avg_points : float
}.

(** [results[sims] = entry] on a dict with int keys, in insertion order. *)
Fixpoint results_set (k : Z) (v : rates) (d : list (Z * rates)) : list (Z * rates) :=
  match d with
  | [] => [(k, v)]
  | (k', v') :: d' =>
      if k =? k' then (k, v) :: d' else (k', v') :: results_set k v d'
  end.

(** [res.get('result') == 'bust'] *)
Definition result_is_bust (res : pydict) : bool :=
  match dict_get "result" res with
  | Some (VStr s) => String.eqb s "bust"
  | _ => false
  end.

Section Simulate.
Context `{RT : PyRuntime}.
Local Open Scope mcts_scope.

(** [a / b] on two ints, the correctly rounded quotient as Python computes
    it; the model is parametric in it. *)
Variable int_truediv : Z -> Z -> result float.

(** [acc += reward] on a float accumulator. *)
Definition add_reward (acc : float) (reward : pynum) : M float :=
  r <- lift (pynum_to_float reward) ;;
  mret (acc + r)%float.

(** [try: res = st.apply_action(a)] / [except IndexError: continue];
    [None] stands for the [continue]. *)
Definition try_apply (st : loc) (a : string) : M (option pydict) :=
  fun w =>
    match call st (apply_action a) w with
    | (Val res, w') => (Val (Some res), w')
    | (Exc IndexError, w') => (Val None, w')
    | (Exc e, w') => (Exc e, w')
    | (Dangling, w') => (Dangling, w')
    | (Timeout, w') => (Timeout, w')
    end.

(** One scenario: clone, shuffle, apply the action, roll out. *)
Definition scenario (fuel : nat) (weight : pynum) (state : loc) (a : string)
  : M (option (pydict * pynum)) :=
  st <- clone state ;;
  shuffle_deck st ;;
  r <- try_apply st a ;;
  match r with
  | None => mret None
  | Some res =>
      ri <- default_policy (mkAgent 0 weight) fuel st ;;
      mret (Some (res, fst ri))
  end.

(** The body of the [for _ in range(sims)] loop. *)
Definition iteration (fuel : nat) (weight : pynum) (state : loc) (c : counters)
  : M counters :=
  h <- scenario fuel weight state "hit" ;;
  match h with
  | None => mret c
  | Some (res, reward) =>
      let hb := if result_is_bust res then hit_busts c + 1 else hit_busts c in
      hp <- add_reward (hit_points c) reward ;;
      s <- scenario fuel weight state "stay" ;;
      match s with
      | None => mret (mkCounters hb hp (stay_busts c) (stay_points c))
      | Some (res2, reward2) =>
          let sb := if result_is_bust res2 then stay_busts c + 1
                    else stay_busts c in
          sp <- add_reward (stay_points c) reward2 ;;
          mret (mkCounters hb hp sb sp)
      end
  end.

Fixpoint iterations (fuel : nat) (weight : pynum) (state : loc) (n : nat)
    (c : counters) : M counters :=
  match n with
  | O => mret c
  | S n' =>
      c' <- iteration fuel weight state c ;;
      iterations fuel weight state n' c'
  end.

(** The dict display that closes one budget. *)
Definition rates_of (sims : Z) (c : counters) : M rates :=
  let m := Z.max 1 sims in
  hb <- lift (int_truediv (hit_busts c) m) ;;
  sb <- lift (int_truediv (stay_busts c) m) ;;
  mf <- lift (float_of_int m) ;;
  hp <- lift (py_fdiv (hit_points c) mf) ;;
  mf' <- lift (float_of_int m) ;;
  sp <- lift (py_fdiv (stay_points c) mf') ;;
  mret (mkRates hb sb hp sp).

(** The [for sims in sims_list] loop. *)
Fixpoint budgets (fuel : nat) (weight : pynum) (state : loc) (sims_list : list Z)
    (results : list (Z * rates)) : M (list (Z * rates)) :=
  match sims_list with
  | [] => mret results
  | sims :: rest =>
      c <- iterations fuel weight state (Z.to_nat sims)
             (mkCounters 0 0%float 0 0%float) ;;
      r <- rates_of sims c ;;
      budgets fuel weight state rest (results_set sims r results)
  end.

(** [simulate_vs_stay(state, sims_list, flip7_weight)] *)
Definition simulate_vs_stay (fuel : nat) (state : loc) (sims_list : list Z)
    (weight : pynum) : M (list (Z * rates)) :=
  budgets fuel weight state sims_list [].

End Simulate.

End VsStay.

(** [a / b] on ints below [2^53]: both convert exactly, and the quotient
    of the two floats is the correctly rounded quotient of the ints. *)
Definition small_truediv (a b : Z) : result float :=
  match Mcts.float_of_int a with
  | Raise e => Raise e
  | Ok x =>
      match Mcts.float_of_int b with
      | Raise e => Raise e
      | Ok y => Mcts.py_fdiv x y
      end
  end.

(** ** Games played with typed cards, and the course of a full game *)

Section PlaySpec.
Context `{RT : PyRuntime}.

(** The states of a game whose decks hold typed cards only: built by the
    constructor with such a deck, then changed through [apply_action] and
    through [set_deck] with typed cards. On these states no [None] ever
    reaches the line, and the engine of the model and the engine of the
    program do the same. *)
Inductive played : GameState -> Prop :=
  | played_init (n : Z) (d : option Flip7Deck) (seed : option Z) (env : Z)
      (gs : GameState) :
      GameState_init n d seed env = Ok gs ->
      Forall card_typed (cards (deck gs)) ->
      played gs
  | played_action (gs : GameState) (a : string) :
      played gs -> played (snd (apply_action a gs))
  | played_set_deck (gs : GameState) (cs : list Card) :
      played gs -> Forall card_typed cs -> played (snd (set_deck cs gs)).

(** What the agent [ag] may answer on [gs] when the answer is accepted: a
    legal action, and for the heuristic agent the one its rule gives. *)
Definition answers (ag : Harness.agent) (gs : GameState) (a : string) : Prop :=
  In a (legal_actions gs)
  /\ match ag with
     | Harness.AgentHeuristic => a = Harness.Heuristic_choose_action gs
     | _ => True
     end.

(** [game_trace agents gs acts gs']: starting from [gs], the agents have
    played the actions [acts] in turn, each answered by the agent in the
    seat of the active player and accepted by [apply_action], no state
    before the last being a finished game, and [gs'] is the finished game
    they have led to. *)
Inductive game_trace (agents : list Harness.agent)
  : GameState -> list string -> GameState -> Prop :=
  | trace_done (gs : GameState) :
      game_over gs = true -> game_trace agents gs [] gs
  | trace_turn (gs : GameState) (i : nat) (ag : Harness.agent) (a : string)
      (res : pydict) (gs1 : GameState) (acts : list string) (gs' : GameState) :
      game_over gs = false ->
      py_index agents (current_player gs) = Some i ->
      agents !! i = Some ag ->
      answers ag gs a ->
      apply_action a gs = (Ok res, gs1) ->
      game_trace agents gs1 acts gs' ->
      game_trace agents gs (a :: acts) gs'.

End PlaySpec.

(** [card_typed] as a test, to check a given deck. *)
Definition card_typedb (c : Card) : bool :=
  if String.eqb (kind c) "number" || String.eqb (kind c) "modifier"
  then match value c with Some _ => true | None => false end
  else true.

(** * Properties *)

(** ** The deck *)

Lemma number_values_in_range :
  Forall (fun c => match value c with Some v => 0 <= v <= 12 | None => True end)
    initial_cards.
Proof. unfold initial_cards. simpl. repeat constructor; simpl; lia. Qed.

Lemma count_cards_none (p : Card -> bool) (l : list Card) :
  Forall (fun c => p c = false) l -> count_cards p l = 0%nat.
Proof.
  unfold count_cards. induction 1 as [|c l Hc _ IH]; simpl; [reflexivity|].
  rewrite filter_cons. destruct (decide (p c = true)) as [Ht|_]; [congruence|exact IH].
Qed.

Lemma in_py_range (a b n : Z) : a <= n < b -> In n (py_range a b).
Proof.
  intros H. unfold py_range. apply in_map_iff. exists (Z.to_nat (n - a)).
  split; [lia|]. apply in_seq. lia.
Qed.

Lemma count_number_initial (n : Z) :
  count_cards (is_number n) initial_cards = spec_number_copies n.
Proof.
  destruct (decide (0 <= n <= 12)) as [Hin|Hout].
  - assert (Hall : forallb
      (fun k => Nat.eqb (count_cards (is_number k) initial_cards) (spec_number_copies k))
      (py_range 0 13) = true) by (vm_compute; reflexivity).
    rewrite forallb_forall in Hall.
    apply Nat.eqb_eq, Hall, in_py_range. lia.
  - assert (Hs : spec_number_copies n = 0%nat).
    { unfold spec_number_copies.
      destruct (n =? 0) eqn:E0; [lia|]. destruct (n =? 1) eqn:E1; [lia|].
      simpl. destruct (2 <=? n) eqn:E2; destruct (n <=? 12) eqn:E3; simpl; try reflexivity. lia. }
    rewrite Hs. apply count_cards_none.
    eapply Forall_impl; [exact number_values_in_range|].
    intros c Hc. simpl in Hc. unfold is_number.
    destruct (value c) as [v|] eqn:Ev.
    + rewrite bool_decide_eq_false_2; [apply andb_false_r|]. intros [= ->]. lia.
    + rewrite bool_decide_eq_false_2; [apply andb_false_r|]. discriminate.
Qed.

Lemma modifier_values_in_range :
  Forall (fun c => String.eqb (kind c) "modifier" = true ->
                   match value c with Some v => 2 <= v <= 10 | None => False end)
    initial_cards.
Proof. unfold initial_cards. simpl. repeat constructor; simpl; (discriminate || lia). Qed.

Lemma count_modifier_initial (m : Z) :
  count_cards (is_modifier m) initial_cards = spec_modifier_copies m.
Proof.
  destruct (decide (2 <= m <= 10)) as [Hin|Hout].
  - assert (Hall : forallb
      (fun k => Nat.eqb (count_cards (is_modifier k) initial_cards) (spec_modifier_copies k))
      (py_range 2 11) = true) by (vm_compute; reflexivity).
    rewrite forallb_forall in Hall.
    apply Nat.eqb_eq, Hall, in_py_range. lia.
  - assert (Hs : spec_modifier_copies m = 0%nat).
    { unfold spec_modifier_copies.
      destruct (2 <=? m) eqn:E2; destruct (m <=? 10) eqn:E3; simpl; try reflexivity. lia. }
    rewrite Hs. apply count_cards_none.
    eapply Forall_impl; [exact modifier_values_in_range|].
    intros c Hc. simpl in Hc. unfold is_modifier.
    destruct (String.eqb (kind c) "modifier") eqn:Ek; [|reflexivity].
    specialize (Hc eq_refl). simpl.
    destruct (value c) as [v|] eqn:Ev; [|contradiction].
    apply bool_decide_eq_false_2. intros [= ->]. lia.
Qed.

Section DeckFacts.
Context `{RT : PyRuntime}.

(** [C5], amended. For every seed, a freshly constructed deck holds exactly
    94 cards: 79 number cards (one 0, one 1, and n copies of n for
    n = 2..12), one modifier card for each of +2..+10 (9 in all), two
    Freeze, two FlipThree, one SecondChance and one multiplier. *)
Theorem C5_initial_deck_distribution (seed : option Z) (env : Z) :
  exists d : Flip7Deck,
    Flip7Deck_init seed env = Ok d
    /\ cards d = initial_cards
    /\ length (cards d) = 94%nat
    /\ count_cards (has_kind "number") (cards d) = 79%nat
    /\ (forall n, count_cards (is_number n) (cards d) = spec_number_copies n)
    /\ count_cards (has_kind "modifier") (cards d) = 9%nat
    /\ (forall m, count_cards (is_modifier m) (cards d) = spec_modifier_copies m)
    /\ count_cards (is_action "Freeze") (cards d) = 2%nat
    /\ count_cards (is_action "FlipThree") (cards d) = 2%nat
    /\ count_cards (is_action "SecondChance") (cards d) = 1%nat
    /\ count_cards (has_kind "action") (cards d) = 5%nat
    /\ count_cards is_mult (cards d) = 1%nat.
Proof.
  exists (mkDeck (Random_new seed env) initial_cards).
  split; [reflexivity|]. split; [reflexivity|]. simpl.
  split; [reflexivity|]. split; [vm_compute; reflexivity|].
  split; [exact count_number_initial|]. split; [vm_compute; reflexivity|].
  split; [exact count_modifier_initial|].
  repeat split; vm_compute; reflexivity.
Qed.

End DeckFacts.

(** [C5] as stated fails: the deck built for seed 42 holds 79 number cards,
    not 78. *)
Lemma C5_number_cards_are_not_78 :
  exists d : @Flip7Deck lcg_runtime,
    Flip7Deck_init (Some 42) 0 = Ok d
    /\ length (cards d) = 94%nat
    /\ count_cards (has_kind "number") (cards d) <> 78%nat.
Proof.
  eexists. split; [reflexivity|]. split; [reflexivity|].
  vm_compute. discriminate.
Qed.

(** ** Seeded construction *)

Section Seeding.
Context `{RT : PyRuntime}.

(** [C10] Two constructions of [GameState] with the same player count and
    the same seed give the same state, deck order included, whatever
    entropy the operating system offers to each run: the deck is the
    seeded generator's shuffle of the initial card list. *)
Theorem C10_seeded_construction_deterministic (n seed env1 env2 : Z) :
  GameState_init n None (Some seed) env1 = GameState_init n None (Some seed) env2
  /\ exists gs : GameState,
       GameState_init n None (Some seed) env1 = Ok gs
       /\ cards (deck gs) = fst (rng_shuffle (rng_seed seed) initial_cards)
       /\ rng (deck gs) = snd (rng_shuffle (rng_seed seed) initial_cards).
Proof.
  unfold GameState_init, Flip7Deck_init, Flip7Deck_shuffle, Random_new. simpl.
  split; [reflexivity|].
  eexists. split; [reflexivity|]. simpl.
  destruct (rng_shuffle (rng_seed seed) initial_cards) as [cs r].
  split; reflexivity.
Qed.

End Seeding.

(** Without a seed the deck order does depend on the entropy the generator
    is seeded from: the equation above is about the seed, not about the
    model. *)
Lemma unseeded_construction_depends_on_entropy :
  match @GameState_init lcg_runtime 2 None None 1,
        @GameState_init lcg_runtime 2 None None 2 with
  | Ok g1, Ok g2 => firstn 8 (cards (deck g1)) <> firstn 8 (cards (deck g2))
  | _, _ => False
  end.
Proof. vm_compute. discriminate. Qed.

(** ** Banking *)

Ltac monad_unfold :=
  unfold set_player_totals, set_current_player, set_deck_obj, set_current_numbers,
    set_flat_modifiers, set_x2, set_second_chance_count, set_round_over,
    set_winner, ebind, eget, emodify, eret, eraise in *.

Ltac eng_unfold :=
  unfold _bank_current, check_winner, current_total, add_to_current_total,
    reset_line, advance_player, draw, set_deck,
    set_player_totals, set_current_player, set_deck_obj, set_current_numbers,
    set_flat_modifiers, set_x2, set_second_chance_count, set_round_over,
    set_winner, ebind, eget, emodify, eret, eraise in *.

Lemma fold_add_shift (l : list Z) (a b : Z) :
  fold_left Z.add l (a + b) = a + fold_left Z.add l b.
Proof.
  revert b. induction l as [|x l IH]; intros b; simpl; [reflexivity|].
  rewrite <- IH. f_equal. lia.
Qed.

Lemma py_sum_app (l : list Z) (v : Z) : py_sum (l ++ [v]) = py_sum l + v.
Proof. unfold py_sum. rewrite fold_left_app. reflexivity. Qed.

Lemma sum_current_score_spec `{RT : PyRuntime} (gs : GameState) :
  _sum_current_score gs
  = spec_score (current_numbers gs) (flat_modifiers gs) (x2 gs).
Proof.
  unfold _sum_current_score, spec_score.
  destruct (x2 gs);
    destruct (distinct_count (current_numbers gs) >=? 7) eqn:E1;
    destruct (7 <=? distinct_count (current_numbers gs)) eqn:E2; lia.
Qed.

Lemma py_index_lookup {A : Type} (l : list A) (i : Z) (k : nat) :
  py_index l i = Some k -> is_Some (l !! k).
Proof.
  unfold py_index. intros H. apply lookup_lt_is_Some.
  destruct ((0 <=? i) && (i <? Z.of_nat (length l))) eqn:E1.
  - injection H as <-. lia.
  - destruct ((- Z.of_nat (length l) <=? i) && (i <? 0)) eqn:E2; [|discriminate].
    injection H as <-. lia.
Qed.

Lemma py_index_insert {A : Type} (l : list A) (i : Z) (k : nat) (x : A) :
  py_index (<[k := x]> l) i = py_index l i.
Proof. unfold py_index. rewrite length_insert. reflexivity. Qed.

Section Banking.
Context `{RT : PyRuntime}.

Lemma bank_current_ok (gs : GameState) (i : nat) (t : Z) :
  py_index (player_totals gs) (current_player gs) = Some i ->
  player_totals gs !! i = Some t ->
  _bank_current gs = (Ok tt, banked_state gs i t).
Proof.
  intros Hi Ht. unfold banked_state, banked_amount.
  rewrite <- sum_current_score_spec.
  eng_unfold. simpl. rewrite Hi, Ht. simpl.
  rewrite py_index_insert, Hi.
  rewrite list_lookup_insert_eq by (apply lookup_lt_is_Some; eauto).
  destruct (current_numbers gs) eqn:En; simpl;
    match goal with |- context [?a >=? 200] => destruct (a >=? 200) end;
    reflexivity.
Qed.

End Banking.

Section BankEvents.
Context `{RT : PyRuntime}.

Lemma legal_actions_open (gs : GameState) :
  round_over gs = false -> winner gs = None -> legal_actions gs = ["hit"; "stay"].
Proof. unfold legal_actions. intros -> ->. reflexivity. Qed.

Lemma legal_actions_inv (gs : GameState) :
  legal_actions gs <> [] -> round_over gs = false /\ winner gs = None.
Proof.
  unfold legal_actions. destruct (round_over gs); simpl; [congruence|].
  destruct (winner gs); simpl; [congruence|]. auto.
Qed.

Lemma stay_ok (gs : GameState) (i : nat) (t : Z) :
  legal_actions gs <> [] ->
  num_players gs <> 0 ->
  py_index (player_totals gs) (current_player gs) = Some i ->
  player_totals gs !! i = Some t ->
  apply_action "stay" gs
  = (Ok [("result", VStr "stayed"); ("banked", VBool true)],
     let b := banked_state gs i t in
     mkGameState (num_players b) (player_totals b)
       ((current_player b + 1) mod num_players b) (deck b) (current_numbers b)
       (flat_modifiers b) (x2 b) (second_chance_count b) false (winner b)).
Proof.
  intros Hl Hn Hi Ht. destruct (legal_actions_inv gs Hl) as [Hr Hw].
  unfold apply_action. monad_unfold. cbv beta iota.
  rewrite (legal_actions_open gs Hr Hw). simpl.
  match goal with |- context [_bank_current ?g] =>
    rewrite (bank_current_ok g i t) by (simpl; assumption) end.
  unfold advance_player. monad_unfold. simpl.
  destruct (num_players gs =? 0) eqn:E; [lia|].
  unfold banked_state, banked_amount. simpl. reflexivity.
Qed.

Lemma freeze_ok (gs : GameState) (i : nat) (t : Z) (depth : nat) (card : Card) :
  kind card = "action" ->
  name card = Some "Freeze" ->
  py_index (player_totals gs) (current_player gs) = Some i ->
  player_totals gs !! i = Some t ->
  process_draw_depth (S depth) card gs
  = (Ok [("result", VStr "freeze"); ("card", VCard card); ("round_end", VBool true)],
     banked_state gs i t).
Proof.
  intros Hk Hn Hi Ht. simpl. rewrite Hk, Hn. simpl.
  monad_unfold. rewrite (bank_current_ok gs i t Hi Ht). reflexivity.
Qed.

Lemma flip7_ok (gs : GameState) (i : nat) (t : Z) (depth : nat) (card : Card) (v : Z) :
  kind card = "number" ->
  value card = Some v ->
  py_in v (current_numbers gs) = false ->
  7 <= distinct_count (current_numbers gs ++ [v]) ->
  py_index (player_totals gs) (current_player gs) = Some i ->
  player_totals gs !! i = Some t ->
  let s := spec_score (current_numbers gs ++ [v]) (flat_modifiers gs) (x2 gs) in
  process_draw_depth (S depth) card gs
  = (Ok [("result", VStr "flip7"); ("card", VCard card); ("banked", VInt s);
         ("round_end", VBool true)],
     mkGameState (num_players gs) (<[i := t + s]> (player_totals gs))
       (current_player gs) (deck gs) [] 0 false 0 true
       (if t + s >=? 200 then Some (current_player gs) else winner gs)).
Proof.
  intros Hk Hv Hin H7 Hi Ht s. simpl. rewrite Hk, Hv. simpl.
  eng_unfold. simpl. rewrite Hin. simpl.
  destruct (distinct_count (current_numbers gs ++ [v]) >=? 7) eqn:E; [|lia].
  simpl. rewrite Hi, Ht. simpl. rewrite py_index_insert, Hi.
  rewrite list_lookup_insert_eq by (apply lookup_lt_is_Some; eauto).
  pose proof (sum_current_score_spec
    (mkGameState (num_players gs) (player_totals gs) (current_player gs) (deck gs)
       (current_numbers gs ++ [v]) (flat_modifiers gs) (x2 gs)
       (second_chance_count gs) (round_over gs) (winner gs))) as Hs.
  simpl in Hs. fold s in Hs. rewrite Hs.
  destruct (t + s >=? 200); reflexivity.
Qed.

(** [C1], amended. At every bank event the amount added to the active
    player's total is [sum(numbers)], doubled under the multiplier, plus
    the flat modifier, plus 15 for seven distinct numbers, provided the
    line holds at least one number; a stay or a freeze on an empty line adds
    0. With numbers 3 and 4 and modifier 5 the amount is 12, and 19 under
    the multiplier. *)
Theorem C1_bank_amount (gs : GameState) (i : nat) (t : Z) :
  py_index (player_totals gs) (current_player gs) = Some i ->
  player_totals gs !! i = Some t ->
  let amount :=
    match current_numbers gs with
    | [] => 0
    | _ :: _ => spec_score (current_numbers gs) (flat_modifiers gs) (x2 gs)
    end in
  (* stay *)
  (legal_actions gs <> [] -> num_players gs <> 0 ->
   fst (apply_action "stay" gs) = Ok [("result", VStr "stayed"); ("banked", VBool true)]
   /\ player_totals (snd (apply_action "stay" gs))
      = <[i := t + amount]> (player_totals gs))
  (* freeze, drawn or forced *)
  /\ (forall depth card, kind card = "action" -> name card = Some "Freeze" ->
      fst (process_draw_depth (S depth) card gs)
      = Ok [("result", VStr "freeze"); ("card", VCard card); ("round_end", VBool true)]
      /\ player_totals (snd (process_draw_depth (S depth) card gs))
         = <[i := t + amount]> (player_totals gs))
  (* flip7, drawn or forced *)
  /\ (forall depth card v, kind card = "number" -> value card = Some v ->
      py_in v (current_numbers gs) = false ->
      7 <= distinct_count (current_numbers gs ++ [v]) ->
      let s := spec_score (current_numbers gs ++ [v]) (flat_modifiers gs) (x2 gs) in
      fst (process_draw_depth (S depth) card gs)
      = Ok [("result", VStr "flip7"); ("card", VCard card); ("banked", VInt s);
            ("round_end", VBool true)]
      /\ player_totals (snd (process_draw_depth (S depth) card gs))
         = <[i := t + s]> (player_totals gs))
  (* the two worked examples *)
  /\ (current_numbers gs = [3; 4] -> flat_modifiers gs = 5 ->
      amount = if x2 gs then 19 else 12).
Proof.
  intros Hi Ht amount.
  split; [|split; [|split]].
  - intros Hl Hn. rewrite (stay_ok gs i t Hl Hn Hi Ht). split; reflexivity.
  - intros depth card Hk Hn. rewrite (freeze_ok gs i t depth card Hk Hn Hi Ht).
    split; reflexivity.
  - intros depth card v Hk Hv Hin H7 s.
    rewrite (flip7_ok gs i t depth card v Hk Hv Hin H7 Hi Ht). split; reflexivity.
  - intros Hn Hf. unfold amount. rewrite Hn, Hf. destruct (x2 gs); reflexivity.
Qed.

End BankEvents.

(** An instance: staying on the line 3, 4 with a +5 modifier banks 12. *)
Lemma C1_bank_amount_witness :
  fst (apply_action "stay" ex_line_3_4)
  = Ok [("result", VStr "stayed"); ("banked", VBool true)]
  /\ player_totals (snd (apply_action "stay" ex_line_3_4)) = [12; 0].
Proof.
  pose proof (@C1_bank_amount lcg_runtime ex_line_3_4 0%nat 0 eq_refl eq_refl) as H.
  simpl in H. destruct H as [H _]. apply H; [discriminate | discriminate].
Defined.

(** [C1] as stated fails: staying on an empty line that carries a +5
    modifier adds 0 to the total, not the 5 the formula gives. *)
Lemma C1_empty_line_banks_nothing :
  spec_score (current_numbers ex_empty_line) (flat_modifiers ex_empty_line)
    (x2 ex_empty_line) = 5
  /\ fst (apply_action "stay" ex_empty_line)
     = Ok [("result", VStr "stayed"); ("banked", VBool true)]
  /\ player_totals (snd (apply_action "stay" ex_empty_line)) = [0; 0]
  /\ player_totals (snd (apply_action "stay" ex_empty_line))
     <> <[0%nat := 0 + 5]> (player_totals ex_empty_line).
Proof. vm_compute. repeat split; discriminate. Qed.

(** ** Busting *)

Section Bust.
Context `{RT : PyRuntime}.

Lemma draw_cons (gs : GameState) (c : Card) (rest : list Card) :
  cards (deck gs) = c :: rest ->
  draw gs = (Ok c, with_deck (mkDeck (rng (deck gs)) rest) gs).
Proof. intros H. unfold draw, Flip7Deck_draw. rewrite H. reflexivity. Qed.

(** [C6] When hit is legal, the card on top of the deck is a number the line
    already holds and no second-chance token is left, [apply_action('hit')]
    returns the outcome "bust" with the round-end flag; every player's total
    is as before, the line is reset (no numbers, modifier 0, multiplier off,
    no tokens) and the turn passes to the next player. *)
Theorem C6_duplicate_busts (gs : GameState) (card : Card) (v : Z) (rest : list Card) :
  legal_actions gs <> [] ->
  num_players gs <> 0 ->
  cards (deck gs) = card :: rest ->
  kind card = "number" ->
  value card = Some v ->
  py_in v (current_numbers gs) = true ->
  second_chance_count gs = 0 ->
  apply_action "hit" gs
  = (Ok [("result", VStr "bust"); ("card", VCard card); ("round_end", VBool true)],
     mkGameState (num_players gs) (player_totals gs)
       ((current_player gs + 1) mod num_players gs)
       (mkDeck (rng (deck gs)) rest) [] 0 false 0 false (winner gs)).
Proof.
  intros Hl Hn Hd Hk Hv Hin Hsc. destruct (legal_actions_inv gs Hl) as [Hr Hw].
  unfold apply_action. monad_unfold. cbv beta iota.
  rewrite (legal_actions_open gs Hr Hw). simpl.
  match goal with |- context [draw ?g] =>
    rewrite (draw_cons g card rest) by (simpl; assumption) end.
  unfold _process_draw. simpl. rewrite Hk, Hv. simpl.
  unfold reset_line, advance_player. monad_unfold. simpl.
  rewrite Hin, Hsc. simpl.
  destruct (num_players gs =? 0) eqn:E; [lia|]. reflexivity.
Qed.

End Bust.

(** An instance: a second 4 on the line 3, 4 busts; the totals 30 and 10 stay. *)
Lemma C6_duplicate_busts_witness :
  apply_action "hit" ex_about_to_bust
  = (Ok [("result", VStr "bust"); ("card", VCard (Card_number 4));
         ("round_end", VBool true)],
     mkGameState 2 [30; 10] 1 (@mkDeck lcg_runtime 0 [Card_number 9])
       [] 0 false 0 false None).
Proof.
  apply (@C6_duplicate_busts lcg_runtime ex_about_to_bust (Card_number 4) 4 [Card_number 9]);
    (discriminate || reflexivity).
Defined.

(** ** Processing a draw *)

Section ProcessDraw.
Context `{RT : PyRuntime}.

Lemma process_draw_unfold (d : nat) (card : Card) :
  process_draw_depth (S d) card
  = if is_flip_three card
    then flip_three_loop (process_draw_depth d) card 3 []
    else process_draw_depth 1 card.
Proof.
  unfold is_flip_three.
  destruct (String.eqb (kind card) "action") eqn:Ea.
  - apply String.eqb_eq in Ea.
    destruct (name card) as [s|] eqn:En; simpl.
    + destruct (String.eqb s "FlipThree") eqn:Ef.
      * apply String.eqb_eq in Ef. subst s. rewrite Ea, En. reflexivity.
      * rewrite Ea, En. simpl. rewrite Ef.
        destruct (String.eqb s "Freeze"); reflexivity.
    + rewrite Ea, En. reflexivity.
  - simpl. rewrite Ea.
    destruct (String.eqb (kind card) "number"); [reflexivity|].
    destruct (String.eqb (kind card) "modifier"); [reflexivity|].
    destruct (String.eqb (kind card) "mult"); reflexivity.
Qed.

Lemma quiet_refl (gs : GameState) : quiet gs gs.
Proof. unfold quiet, frame_fields. repeat split; lia. Qed.

Lemma quiet_trans (a b c : GameState) : quiet a b -> quiet b c -> quiet a c.
Proof.
  unfold quiet, frame_fields.
  intros [(? & ? & ?) (? & ? & ?)] [(? & ? & ?) (? & ? & ?)].
  repeat split; try congruence; lia.
Qed.

Lemma quiet_ended (a b c : GameState) : quiet a b -> ended b c -> ended a c.
Proof.
  unfold quiet, ended, frame_fields.
  intros ((Hn & Hc & Hd) & Ht & Hr & Hw) ((Hn' & Hc' & Hd') & Hr' & Hl' & Hcase).
  split; [repeat split; try congruence; lia|].
  split; [assumption|]. split; [assumption|].
  destruct Hcase as [[Ht' Hw']|(i & t & s & Hi & Hti & Ht' & Hw')].
  - left. split; congruence.
  - right. exists i, t, s. rewrite <- Ht, <- Hc, <- Hw. auto.
Qed.

Lemma bank_current_post (gs : GameState) :
  match _bank_current gs with
  | (Ok _, gs') => ended gs gs'
  | (Raise e, gs') => e <> RecursionError /\ gs' = gs
  end.
Proof.
  destruct (py_index (player_totals gs) (current_player gs)) as [i|] eqn:Hi.
  - destruct (py_index_lookup _ _ _ Hi) as [t Ht].
    rewrite (bank_current_ok gs i t Hi Ht).
    unfold ended, frame_fields, banked_state. simpl.
    split; [repeat split; lia|]. split; [reflexivity|]. split; [reflexivity|].
    right. exists i, t, (banked_amount gs). auto.
  - unfold _bank_current, add_to_current_total. monad_unfold. cbv beta iota.
    rewrite Hi. split; [discriminate | reflexivity].
Qed.

Lemma process_leaf_post (card : Card) (gs : GameState) :
  is_flip_three card = false ->
  draw_post gs (process_draw_depth 1 card gs).
Proof.
  intros Hf. unfold draw_post, is_flip_three in *. simpl.
  destruct (String.eqb (kind card) "number") eqn:Ek1.
  { destruct (value card) as [v|]; [|simpl; split; [discriminate|apply quiet_refl]].
    monad_unfold. cbv beta iota.
    destruct (py_in v (current_numbers gs)).
    - destruct (second_chance_count gs >? 0); simpl.
      + unfold quiet, frame_fields. simpl. repeat split; lia.
      + unfold reset_line. monad_unfold. simpl.
        unfold ended, frame_fields. simpl.
        split; [repeat split; lia|]. split; [reflexivity|]. split; [reflexivity|]. left. auto.
    - simpl.
      destruct (distinct_count (current_numbers gs ++ [v]) >=? 7); simpl.
      + unfold add_to_current_total. monad_unfold. simpl.
        destruct (py_index (player_totals gs) (current_player gs)) as [i|] eqn:Hi;
          [|simpl; split; [discriminate|unfold quiet, frame_fields; simpl; repeat split; lia]].
        destruct (py_index_lookup _ _ _ Hi) as [t Ht]. rewrite Ht. simpl.
        unfold reset_line, check_winner, current_total. monad_unfold. simpl.
        rewrite py_index_insert, Hi.
        rewrite list_lookup_insert_eq by (apply lookup_lt_is_Some; eauto).
        match goal with |- context [?a >=? 200] => destruct (a >=? 200) eqn:Ew end;
          simpl; unfold ended, frame_fields; simpl;
          (split; [repeat split; lia|]; split; [reflexivity|]; split; [reflexivity|];
           right; eexists i, t, _; rewrite Ew; auto).
      + unfold quiet, frame_fields. simpl. repeat split; lia. }
  destruct (String.eqb (kind card) "modifier") eqn:Ek2.
  { destruct (value card) as [m|]; [|simpl; split; [discriminate|apply quiet_refl]].
    monad_unfold. simpl. unfold quiet, frame_fields. simpl. repeat split; lia. }
  destruct (String.eqb (kind card) "mult") eqn:Ek3.
  { monad_unfold. simpl. unfold quiet, frame_fields. simpl. repeat split; lia. }
  destruct (String.eqb (kind card) "action") eqn:Ek4;
    [|simpl; apply quiet_refl].
  simpl in Hf.
  destruct (name card) as [s|]; [|simpl; apply quiet_refl].
  rewrite Hf.
  destruct (String.eqb s "Freeze").
  { monad_unfold. cbv beta iota. pose proof (bank_current_post gs) as Hb.
    destruct (_bank_current gs) as [[[]|e] gs1]; simpl.
    - destruct Hb as (Hfr & Hro & Hl & Hcase).
      unfold ended, frame_fields in *. simpl.
 split; [tauto|]. split; [reflexivity|]. split; [assumption|]. exact Hcase.
    - destruct Hb as [He ->]. split; [assumption|apply quiet_refl]. }
  destruct (String.eqb s "SecondChance").
  { monad_unfold. simpl. unfold quiet, frame_fields. simpl. repeat split; lia. }
  simpl. apply quiet_refl.
Qed.

Lemma quiet_draw_post (a b : GameState) (out : result pydict * GameState) :
  quiet a b -> draw_post b out -> draw_post a out.
Proof.
  unfold draw_post. intros Hq. destruct (fst out) as [res|e].
  - destruct (truthy (dict_get "round_end" res)).
    + apply quiet_ended; assumption.
    + apply quiet_trans; assumption.
  - intros [He Hq']. split; [assumption|]. eapply quiet_trans; eassumption.
Qed.

Lemma draw_post_deck (gs : GameState) (out : result pydict * GameState) :
  draw_post gs out ->
  (length (cards (deck (snd out))) <= length (cards (deck gs)))%nat.
Proof.
  unfold draw_post, quiet, ended, frame_fields.
  destruct (fst out) as [res|e]; [destruct (truthy (dict_get "round_end" res))|];
    intros H; decompose [and] H; assumption.
Qed.

Lemma draw_nonempty (gs : GameState) :
  (Flip7Deck_remaining (deck gs) =? 0) = false ->
  exists c rest, cards (deck gs) = c :: rest.
Proof.
  unfold Flip7Deck_remaining. intros H.
  destruct (cards (deck gs)) as [|c rest]; [discriminate|eauto].
Qed.

Lemma draw_quiet (gs : GameState) (rest : list Card) (c : Card) :
  cards (deck gs) = c :: rest ->
  quiet gs (with_deck (mkDeck (rng (deck gs)) rest) gs).
Proof.
  intros H. unfold quiet, frame_fields. simpl. rewrite H. simpl.
  repeat split; lia.
Qed.

Lemma flip_three_post (process : Card -> E pydict) (bound : nat) (card : Card) :
  (forall c gs, (length (cards (deck gs)) < bound)%nat -> draw_post gs (process c gs)) ->
  forall (n : nat) (draws : list Card) (gs : GameState),
    (length (cards (deck gs)) <= bound)%nat ->
    draw_post gs (flip_three_loop process card n draws gs).
Proof.
  intros Hp. induction n as [|n IH]; intros draws gs Hlen.
  - simpl. unfold draw_post. simpl. apply quiet_refl.
  - simpl. monad_unfold. cbv beta iota.
    destruct (Flip7Deck_remaining (deck gs) =? 0) eqn:Hrem.
    + unfold draw_post. simpl. apply quiet_refl.
    + destruct (draw_nonempty gs Hrem) as (c & rest & Hc).
      rewrite (draw_cons gs c rest Hc).
      pose proof (draw_quiet gs rest c Hc) as Hq.
      set (gs1 := with_deck (mkDeck (rng (deck gs)) rest) gs) in *.
      assert (Hl1 : (length (cards (deck gs1)) < bound)%nat).
      { unfold gs1. simpl. rewrite Hc in Hlen. simpl in Hlen. lia. }
      pose proof (Hp c gs1 Hl1) as Hpost.
      pose proof (draw_post_deck _ _ Hpost) as Hdeck.
      unfold draw_post in Hpost.
      destruct (process c gs1) as [[res|e] gs2]; simpl in *.
      * destruct (truthy (dict_get "round_end" res)) eqn:Hre; simpl.
        -- unfold draw_post. simpl. eapply quiet_ended; eassumption.
        -- eapply quiet_draw_post; [eapply quiet_trans; eassumption|].
           apply IH. lia.
      * unfold draw_post. simpl. destruct Hpost as [He Hq2].
        split; [assumption|]. eapply quiet_trans; eassumption.
Qed.

Lemma process_draw_depth_post (depth : nat) :
  forall (card : Card) (gs : GameState),
    (length (cards (deck gs)) < depth)%nat ->
    draw_post gs (process_draw_depth depth card gs).
Proof.
  induction depth as [|d IH]; intros card gs Hlen; [lia|].
  rewrite process_draw_unfold.
  destruct (is_flip_three card) eqn:Hf.
  - apply (flip_three_post _ d); [exact IH | lia].
  - apply process_leaf_post. exact Hf.
Qed.

Lemma flip_three_loop_ext (p1 p2 : Card -> E pydict) (bound : nat) (card : Card) :
  (forall c gs, (length (cards (deck gs)) < bound)%nat -> p1 c gs = p2 c gs) ->
  (forall c gs, (length (cards (deck gs)) < bound)%nat -> draw_post gs (p1 c gs)) ->
  forall (n : nat) (draws : list Card) (gs : GameState),
    (length (cards (deck gs)) <= bound)%nat ->
    flip_three_loop p1 card n draws gs = flip_three_loop p2 card n draws gs.
Proof.
  intros Heq Hp. induction n as [|n IH]; intros draws gs Hlen; [reflexivity|].
  simpl. monad_unfold. cbv beta iota.
  destruct (Flip7Deck_remaining (deck gs) =? 0) eqn:Hrem; [reflexivity|].
  destruct (draw_nonempty gs Hrem) as (c & rest & Hc).
  rewrite (draw_cons gs c rest Hc).
  set (gs1 := with_deck (mkDeck (rng (deck gs)) rest) gs) in *.
  assert (Hl1 : (length (cards (deck gs1)) < bound)%nat).
  { unfold gs1. simpl. rewrite Hc in Hlen. simpl in Hlen. lia. }
  rewrite <- (Heq c gs1 Hl1).
  pose proof (draw_post_deck _ _ (Hp c gs1 Hl1)) as Hdeck.
  destruct (p1 c gs1) as [[res|e] gs2]; simpl in *; [|reflexivity].
  destruct (truthy (dict_get "round_end" res)); [reflexivity|].
  apply IH. lia.
Qed.

Lemma process_draw_depth_enough (d1 : nat) :
  forall (d2 : nat) (card : Card) (gs : GameState),
    (length (cards (deck gs)) < d1)%nat ->
    (length (cards (deck gs)) < d2)%nat ->
    process_draw_depth d1 card gs = process_draw_depth d2 card gs.
Proof.
  induction d1 as [|d1 IH]; intros d2 card gs H1 H2; [lia|].
  destruct d2 as [|d2]; [lia|].
  rewrite (process_draw_unfold d1 card), (process_draw_unfold d2 card).
  destruct (is_flip_three card); [|reflexivity].
  destruct (Nat.le_ge_cases d1 d2) as [Hle|Hge].
  - apply (flip_three_loop_ext _ _ d1); [| |lia].
    + intros c g Hg. apply IH; lia.
    + intros c g Hg. apply process_draw_depth_post. exact Hg.
  - symmetry. apply (flip_three_loop_ext _ _ d2); [| |lia].
    + intros c g Hg. symmetry. apply IH; lia.
    + intros c g Hg. apply process_draw_depth_post. exact Hg.
Qed.

(** [_process_draw] never exhausts the depth it is given, and nested calls
    are calls of [_process_draw] itself. *)
Lemma process_draw_post (card : Card) (gs : GameState) :
  draw_post gs (_process_draw card gs).
Proof. unfold _process_draw. apply process_draw_depth_post. lia. Qed.

Lemma process_draw_depth_eq (depth : nat) (card : Card) (gs : GameState) :
  (length (cards (deck gs)) < depth)%nat ->
  process_draw_depth depth card gs = _process_draw card gs.
Proof.
  intros H. unfold _process_draw. apply process_draw_depth_enough; [exact H|lia].
Qed.

End ProcessDraw.

(** ** The winner *)

Section Winner.
Context `{RT : PyRuntime}.

Lemma terminal_rejects (gs : GameState) (a : string) :
  winner gs <> None ->
  legal_actions gs = [] /\ apply_action a gs = (Raise ValueError, gs).
Proof.
  intros Hw. assert (Hl : legal_actions gs = []).
  { unfold legal_actions. destruct (winner gs); [|congruence].
    rewrite orb_true_r. reflexivity. }
  split; [exact Hl|].
  unfold apply_action. monad_unfold. cbv beta iota. rewrite Hl. reflexivity.
Qed.

Lemma turn_intro (gs g0 g1 g2 : GameState) :
  num_players g0 = num_players gs ->
  current_player g0 = current_player gs ->
  player_totals g0 = player_totals gs ->
  winner g0 = winner gs ->
  ended g0 g1 \/ quiet g0 g1 ->
  num_players g2 = num_players g1 ->
  player_totals g2 = player_totals g1 ->
  winner g2 = winner g1 ->
  (current_player g2 = current_player g1
   \/ (num_players g1 <> 0
       /\ current_player g2 = (current_player g1 + 1) mod num_players g1)) ->
  turn gs g2.
Proof.
  intros Hn0 Hc0 Ht0 Hw0 Hstep Hn2 Ht2 Hw2 Hc2.
  assert (Hfr : num_players g1 = num_players gs /\ current_player g1 = current_player gs).
  { destruct Hstep as [((? & ? & _) & _)|((? & ? & _) & _)]; split; congruence. }
  destruct Hfr as [Hn1 Hc1].
  unfold turn. split; [congruence|]. split.
  - destruct Hc2 as [Hc2|[Hne Hc2]]; [left; congruence|].
    right. split; [congruence|]. rewrite Hc2, Hc1, Hn1. reflexivity.
  - destruct Hstep as [(_ & _ & _ & [[Ht Hw]|(i & t & s & Hi & Hti & Ht & Hw)])
                      |(_ & Ht & _ & Hw)].
    + left. split; congruence.
    + right. exists s, i, t. rewrite Ht2, Hw2, <- Ht0, <- Hc0, <- Hw0. auto.
    + left. split; congruence.
Qed.

(** What a legal or illegal action does to totals, winner and turn. *)
Lemma apply_action_turn (a : string) (gs : GameState) :
  turn gs (snd (apply_action a gs)).
Proof.
  set (g0 := mkGameState (num_players gs) (player_totals gs) (current_player gs)
               (deck gs) (current_numbers gs) (flat_modifiers gs) (x2 gs)
               (second_chance_count gs) false (winner gs)).
  unfold apply_action. monad_unfold. cbv beta iota.
  destruct (negb (existsb (String.eqb a) (legal_actions gs))) eqn:Hleg.
  { simpl. apply (turn_intro gs gs gs gs); auto. right. apply quiet_refl. }
  destruct (String.eqb a "stay") eqn:Hstay.
  - pose proof (bank_current_post g0) as Hb. fold g0.
    destruct (_bank_current g0) as [[[]|e] gs1].
    + unfold advance_player. monad_unfold. cbv beta iota.
      destruct (num_players gs1 =? 0) eqn:E; simpl.
      * apply (turn_intro gs g0 gs1 gs1); auto.
      * apply (turn_intro gs g0 gs1); auto. right. split; [lia|reflexivity].
    + destruct Hb as [_ ->]. simpl.
      apply (turn_intro gs g0 g0 g0); auto. right. apply quiet_refl.
  - fold g0. unfold draw, Flip7Deck_draw.
    destruct (cards (deck g0)) as [|c rest] eqn:Hc.
    { simpl. apply (turn_intro gs g0 g0); auto. right. apply quiet_refl. }
    pose proof (draw_quiet g0 rest c Hc) as Hq.
    set (gs1 := with_deck (mkDeck (rng (deck g0)) rest) g0) in *.
    pose proof (process_draw_post c gs1) as Hp. unfold draw_post in Hp.
    destruct (_process_draw c gs1) as [[res|e] gs2]; simpl in Hp.
    + destruct (truthy (dict_get "round_end" res)) eqn:Hre.
      * pose proof (quiet_ended _ _ _ Hq Hp) as He.
        unfold advance_player. monad_unfold. cbv beta iota.
        destruct (num_players gs2 =? 0) eqn:E; simpl.
        -- apply (turn_intro gs g0 gs2 gs2); auto.
        -- apply (turn_intro gs g0 gs2); auto. right. split; [lia|reflexivity].
      * simpl. apply (turn_intro gs g0 gs2 gs2); auto.
        right. eapply quiet_trans; eassumption.
    + simpl. destruct Hp as [_ Hp]. apply (turn_intro gs g0 gs2 gs2); auto.
      right. eapply quiet_trans; eassumption.
Qed.

Lemma py_index_in_range {A : Type} (l : list A) (c : Z) (i : nat) :
  0 <= c < Z.of_nat (length l) -> py_index l c = Some i -> c = Z.of_nat i.
Proof.
  unfold py_index. intros Hc.
  destruct ((0 <=? c) && (c <? Z.of_nat (length l))) eqn:E; [|lia].
  intros [= <-]. lia.
Qed.

Lemma turn_preserves (gs gs' : GameState) :
  turn gs gs' -> winner gs = None ->
  players_ok gs -> winner_matches_totals gs ->
  players_ok gs' /\ winner_matches_totals gs'.
Proof.
  intros (Hn & Hc & Hcase) Hw [Hlen Hcur] [W1 W2].
  assert (Hlen' : length (player_totals gs') = length (player_totals gs)).
  { destruct Hcase as [[-> _]|(s & i & t & _ & _ & -> & _)];
      [reflexivity|apply length_insert]. }
  split.
  - unfold players_ok. rewrite Hn, Hlen'. split; [exact Hlen|].
    intros Hpos. destruct Hc as [->|[Hne ->]]; [auto|].
    apply Z.mod_pos_bound. exact Hpos.
  - destruct Hcase as [[Ht Hw']|(s & i & t & Hi & Hti & Ht & Hw')].
    + unfold winner_matches_totals. rewrite Ht, Hw'. split; assumption.
    + assert (Hrange : 0 <= current_player gs < Z.of_nat (length (player_totals gs))).
      { assert (0 < length (player_totals gs))%nat
          by (apply lookup_lt_Some in Hti; lia).
        rewrite Hlen. lia. }
      pose proof (py_index_in_range _ _ _ Hrange Hi) as Hci.
      rewrite Hw in Hw'. unfold winner_matches_totals. rewrite Ht, Hw'. split.
      * intros q Hq. destruct (t + s >=? 200) eqn:E; [|discriminate].
        injection Hq as <-. exists i, (t + s). split; [exact Hci|]. split; [|lia].
        apply list_lookup_insert_eq. eapply lookup_lt_Some; eassumption.
      * intros p t' Hp Ht'. destruct (decide (p = i)) as [->|Hne].
        -- rewrite list_lookup_insert_eq in Hp
             by (eapply lookup_lt_Some; eassumption).
           injection Hp as <-. destruct (t + s >=? 200) eqn:E; [|lia].
           rewrite Hci. reflexivity.
        -- rewrite list_lookup_insert_ne in Hp by congruence.
           specialize (W2 p t' Hp Ht'). congruence.
Qed.

Lemma reachable_inv (gs : GameState) :
  reachable gs -> players_ok gs /\ winner_matches_totals gs.
Proof.
  induction 1 as [n d seed env gs Hinit | gs a Hr IH | gs cs Hr IH].
  - unfold GameState_init in Hinit.
    destruct (match d with Some d0 => Ok d0 | None => Flip7Deck_init seed env end)
      as [d0|e]; [|discriminate].
    injection Hinit as <-. unfold players_ok, winner_matches_totals. simpl.
    split; [split; [apply repeat_length|lia]|].
    split; [discriminate|].
    intros p t Hp Ht. apply list_elem_of_lookup_2 in Hp.
    apply list_elem_of_In, repeat_spec in Hp. lia.
  - destruct IH as [Hp Hw].
    destruct (winner gs) as [q|] eqn:Ew.
    + destruct (terminal_rejects gs a) as [_ ->]; [congruence|]. simpl.
      split; assumption.
    + eapply turn_preserves; eauto using apply_action_turn.
  - unfold set_deck. monad_unfold. simpl. exact IH.
Qed.

(** [C3] In every reachable state the winner is set exactly when that
    player's total is at least 200; the winner is only ever set by a bank
    event of the active player that lifts their total from below 200 to 200
    or more; and once it is set, [legal_actions] is empty and
    [apply_action] raises for every action, leaving the state as it is. *)
Theorem C3_winner_iff_total_reached (gs : GameState) :
  reachable gs ->
  winner_matches_totals gs
  /\ (forall a q,
        winner gs = None ->
        winner (snd (apply_action a gs)) = Some q ->
        q = current_player gs
        /\ exists (i : nat) (t s : Z),
             py_index (player_totals gs) (current_player gs) = Some i
             /\ player_totals gs !! i = Some t
             /\ t < 200 <= t + s
             /\ player_totals (snd (apply_action a gs))
                = <[i := t + s]> (player_totals gs))
  /\ (winner gs <> None ->
      legal_actions gs = []
      /\ forall a, apply_action a gs = (Raise ValueError, gs)).
Proof.
  intros Hr. destruct (reachable_inv gs Hr) as [Hp [W1 W2]].
  split; [split; assumption|]. split.
  - intros a q Hw Hq.
    destruct (apply_action_turn a gs) as (_ & _ & [[_ Hw']|(s & i & t & Hi & Hti & Ht & Hw')]).
    + congruence.
    + rewrite Hw in Hw'. rewrite Hw' in Hq.
      destruct (t + s >=? 200) eqn:E; [|discriminate].
      injection Hq as <-. split; [reflexivity|].
      exists i, t, s. repeat split; try assumption; [|lia].
      destruct (Z.lt_ge_cases t 200) as [Hlt|Hge]; [exact Hlt|].
      specialize (W2 i t Hti Hge). congruence.
  - intros Hw. split; [apply (terminal_rejects gs "hit" Hw)|].
    intros a. apply (terminal_rejects gs a Hw).
Qed.

End Winner.

(** An instance: the game that ends when the first player banks 200. *)
Lemma C3_winner_iff_total_reached_witness :
  winner ex_short_game_end = Some 0
  /\ player_totals ex_short_game_end = [200; 0]
  /\ winner_matches_totals ex_short_game_end
  /\ legal_actions ex_short_game_end = []
  /\ apply_action "hit" ex_short_game_end = (Raise ValueError, ex_short_game_end).
Proof.
  assert (Hr : reachable ex_short_game_end).
  { unfold ex_short_game_end. destruct ex_short_game_start as [g|e] eqn:Hs; [|discriminate Hs].
    apply reach_action, reach_action.
    exact (reach_init 2 (Some (@mkDeck lcg_runtime 0 [Card_number 200])) (Some 1) 0 g Hs). }
  destruct (@C3_winner_iff_total_reached lcg_runtime ex_short_game_end Hr) as (Hm & _ & Ht).
  split; [reflexivity|]. split; [reflexivity|]. split; [exact Hm|].
  destruct Ht as [Hl Ha]; [discriminate|]. split; [exact Hl|apply Ha].
Defined.

(** ** FlipThree *)

Section FlipThree.
Context `{RT : PyRuntime}.

Lemma flip_three_is_loop (card : Card) (gs : GameState) :
  is_flip_three card = true ->
  _process_draw card gs = flip_three_loop _process_draw card 3 [] gs.
Proof.
  intros Hf. unfold _process_draw at 1.
  rewrite process_draw_unfold, Hf.
  apply (flip_three_loop_ext _ _ (length (cards (deck gs)))); [| |lia].
  - intros c g Hg. apply process_draw_depth_eq. exact Hg.
  - intros c g Hg. apply process_draw_depth_post. exact Hg.
Qed.

Lemma flip_three_loop_run (card : Card) (n : nat) :
  forall (draws : list Card) (gs : GameState),
  exists (ds : list Card) (ex : flip_exit) (gs' : GameState),
    forced_run n gs ds ex gs'
    /\ (length ds <= n)%nat
    /\ flip_three_loop _process_draw card n draws gs
       = (flip_outcome card (draws ++ ds) ex, gs').
Proof.
  induction n as [|n IH]; intros draws gs.
  - exists [], AllDrawn, gs. rewrite app_nil_r. simpl.
    split; [constructor|]. split; [lia|reflexivity].
  - simpl. monad_unfold. cbv beta iota.
    destruct (Flip7Deck_remaining (deck gs) =? 0) eqn:Hrem.
    + exists [], DeckEmpty, gs. rewrite app_nil_r.
      split; [|split; [simpl; lia|reflexivity]].
      constructor. unfold Flip7Deck_remaining in Hrem.
      destruct (cards (deck gs)); [reflexivity|discriminate].
    + destruct (draw_nonempty gs Hrem) as (c & rest & Hc).
      rewrite (draw_cons gs c rest Hc).
      destruct (_process_draw c (with_deck (mkDeck (rng (deck gs)) rest) gs))
        as [[res|e] gs2] eqn:Hp.
      * destruct (truthy (dict_get "round_end" res)) eqn:Hre.
        -- exists [c], RoundEnded, gs2.
           split; [eapply forced_end; eassumption|].
           split; [simpl; lia|reflexivity].
        -- destruct (IH (draws ++ [c]) gs2) as (ds & ex & gs3 & Hrun & Hlen & Heq).
           exists (c :: ds), ex, gs3.
           split; [eapply forced_next; eassumption|].
           split; [simpl; lia|].
           rewrite Heq, <- app_assoc. reflexivity.
      * exists [c], (DrawRaised e), gs2.
        split; [eapply forced_raise; eassumption|].
        split; [simpl; lia|reflexivity].
Qed.

(** [C4], amended. Processing a FlipThree card runs its own loop of at most
    3 forced draws: a card is drawn only while fewer than 3 have been, the
    deck is not empty, and no earlier forced draw has ended the round (by a
    bust, a flip7, a freeze, or a nested FlipThree that resolved); the
    outcome lists exactly the cards so drawn. A forced draw that is itself
    a FlipThree runs such a loop of its own, whose draws are not counted. *)
Theorem C4_flip_three_forced_draws (card : Card) (gs : GameState) :
  is_flip_three card = true ->
  exists (ds : list Card) (ex : flip_exit) (gs' : GameState),
    forced_run 3 gs ds ex gs'
    /\ (length ds <= 3)%nat
    /\ _process_draw card gs = (flip_outcome card ds ex, gs').
Proof.
  intros Hf. rewrite (flip_three_is_loop card gs Hf).
  destruct (flip_three_loop_run card 3 [] gs) as (ds & ex & gs' & Hrun & Hlen & Heq).
  exists ds, ex, gs'. auto.
Qed.

End FlipThree.

(** An instance: a FlipThree processed on the line 3 with 5, 3, 9 in the deck. *)
Lemma C4_flip_three_forced_draws_witness :
  exists (ds : list Card) (ex : flip_exit) (gs' : @GameState lcg_runtime),
    forced_run 3 ex_flip_three_bust ds ex gs'
    /\ (length ds <= 3)%nat
    /\ _process_draw (Card_action "FlipThree") ex_flip_three_bust
       = (flip_outcome (Card_action "FlipThree") ds ex, gs').
Proof.
  apply (@C4_flip_three_forced_draws lcg_runtime (Card_action "FlipThree") ex_flip_three_bust).
  reflexivity.
Defined.

(** The second forced draw busts: the third card stays in the deck. *)
Lemma flip_three_stops_at_second_draw :
  _process_draw (Card_action "FlipThree") ex_flip_three_bust
  = (Ok [("result", VStr "flipthree_resolved");
         ("card", VCard (Card_action "FlipThree"));
         ("draws", VCards [Card_number 5; Card_number 3]);
         ("round_end", VBool true)],
     mkGameState 2 [0; 0] 0 (@mkDeck lcg_runtime 0 [Card_number 9])
       [] 0 false 0 true None).
Proof. reflexivity. Qed.

(** [C4] as stated fails: a FlipThree that draws a second FlipThree takes
    six cards from the deck, three of its own and three of the nested one;
    five of them are numbers that end up on the line. *)
Lemma C4_nested_flip_three_draws_six :
  is_flip_three (Card_action "FlipThree") = true
  /\ (length (cards (deck ex_flip_three_nested))
      - length (cards (deck (snd (_process_draw (Card_action "FlipThree") ex_flip_three_nested))))
      = 6)%nat
  /\ ~ (length (cards (deck ex_flip_three_nested))
        - length (cards (deck (snd (_process_draw (Card_action "FlipThree") ex_flip_three_nested))))
        <= 3)%nat
  /\ fst (_process_draw (Card_action "FlipThree") ex_flip_three_nested)
     = Ok [("result", VStr "flipthree_done");
           ("card", VCard (Card_action "FlipThree"));
           ("draws", VCards [Card_action "FlipThree"; Card_number 6; Card_number 7])]
  /\ current_numbers (snd (_process_draw (Card_action "FlipThree") ex_flip_three_nested))
     = [1; 2; 5; 6; 7].
Proof.
  split; [reflexivity|]. split; [vm_compute; reflexivity|].
  split; [vm_compute; lia|]. split; vm_compute; reflexivity.
Qed.

(** ** UCB1 selection *)

Lemma ltb_infinity_l (x : float) : (infinity <? x)%float = false.
Proof.
  rewrite FloatAxioms.ltb_spec. change (Prim2SF infinity) with (S754_infinity false).
  destruct (Prim2SF x) as [s| [|] | |s m e]; reflexivity.
Qed.

Lemma eqb_below_infinity (x : float) :
  (x <? infinity)%float = true -> (x =? infinity)%float = false.
Proof.
  rewrite FloatAxioms.ltb_spec, FloatAxioms.eqb_spec. unfold SFltb, SFeqb.
  destruct (SFcompare (Prim2SF x) (Prim2SF infinity)) as [[| |]|];
    (discriminate || reflexivity).
Qed.

Lemma max_from_infinity (l : list float) (bi i : nat) :
  Mcts.max_from bi infinity i l = (bi, infinity).
Proof.
  revert i. induction l as [|x l IH]; intros i; simpl; [reflexivity|].
  rewrite ltb_infinity_l. apply IH.
Qed.

Lemma max_from_first_infinity (sb sa : list float) :
  Forall (fun s => (s <? infinity)%float = true) sb ->
  forall (bi : nat) (best : float) (i : nat),
    (best <? infinity)%float = true ->
    Mcts.max_from bi best i (sb ++ infinity :: sa) = ((i + length sb)%nat, infinity).
Proof.
  induction 1 as [|x sb Hx _ IH]; intros bi best i Hbest; simpl.
  - rewrite Hbest, max_from_infinity. f_equal. lia.
  - destruct (best <? x)%float.
    + rewrite (IH i x (S i) Hx). f_equal. lia.
    + rewrite (IH bi best (S i) Hbest). f_equal. lia.
Qed.

Lemma py_max_first_infinity (sb sa : list float) :
  Forall (fun s => (s <? infinity)%float = true) sb ->
  Mcts.py_max (sb ++ infinity :: sa) = Ok (length sb, infinity).
Proof.
  intros H. destruct H as [|x sb Hx Hsb]; simpl.
  - rewrite max_from_infinity. reflexivity.
  - rewrite (max_from_first_infinity sb sa Hsb 0%nat x 1%nat Hx). reflexivity.
Qed.

Lemma index_from_first_infinity (sb sa : list float) :
  Forall (fun s => (s <? infinity)%float = true) sb ->
  forall i : nat,
    Mcts.index_from (i + length sb) infinity i (sb ++ infinity :: sa)
    = Ok (i + length sb)%nat.
Proof.
  induction 1 as [|x sb Hx _ IH]; intros i; simpl.
  - rewrite Nat.add_0_r, Nat.eqb_refl. reflexivity.
  - replace (Nat.eqb i (i + S (length sb))) with false
      by (symmetry; apply Nat.eqb_neq; lia).
    rewrite (eqb_below_infinity x Hx). simpl.
    replace (i + S (length sb))%nat with (S i + length sb)%nat by lia.
    apply IH.
Qed.

Section Ucb.
Context `{RT : PyRuntime}.

Lemma ucb1_unvisited (w : Mcts.world) (c_param : float) (ch : Mcts.loc) :
  unvisited w ch -> Mcts.ucb1 ch c_param w = (Mcts.Val infinity, w).
Proof.
  intros (nd & Hnd & Hv). unfold Mcts.ucb1, Mcts.mbind, Mcts.get_node.
  rewrite Hnd, Hv. reflexivity.
Qed.

Lemma ucb1_all_scores (w : Mcts.world) (c_param : float)
    (choices : list Mcts.loc) (scores : list float) :
  Forall2 (fun ch s => Mcts.ucb1 ch c_param w = (Mcts.Val s, w)) choices scores ->
  Mcts.ucb1_all choices c_param w = (Mcts.Val scores, w).
Proof.
  induction 1 as [|ch s choices scores Hs _ IH]; simpl; [reflexivity|].
  unfold Mcts.mbind. rewrite Hs. unfold Mcts.mbind in IH. rewrite IH.
  reflexivity.
Qed.

Lemma scores_of_visited (w : Mcts.world) (c_param : float) (chs : list Mcts.loc) :
  Forall (visited_below_infinity w c_param) chs ->
  exists ss,
    Forall2 (fun ch s => Mcts.ucb1 ch c_param w = (Mcts.Val s, w)) chs ss
    /\ Forall (fun s => (s <? infinity)%float = true) ss.
Proof.
  induction 1 as [|ch chs (nd & s & _ & _ & Hs & Hlt) _ (ss & H2 & Hall)].
  - exists []. split; constructor.
  - exists (s :: ss). split; constructor; assumption.
Qed.

Lemma scores_of_any (w : Mcts.world) (c_param : float) (chs : list Mcts.loc) :
  Forall (fun c => unvisited w c \/ visited_below_infinity w c_param c) chs ->
  exists ss,
    Forall2 (fun ch s => Mcts.ucb1 ch c_param w = (Mcts.Val s, w)) chs ss.
Proof.
  induction 1 as [|ch chs Hch _ (ss & H2)].
  - exists []. constructor.
  - destruct Hch as [Hu|(nd & s & _ & _ & Hs & _)].
    + exists (infinity :: ss). constructor; [apply ucb1_unvisited; exact Hu|exact H2].
    + exists (s :: ss). constructor; assumption.
Qed.

Lemma ucb1_visited_formula (w : Mcts.world) (c_param : float)
    (c p : Mcts.loc) (cn pn : Mcts.Node) (vf : float) :
  Mcts.node_heap w !! c = Some cn ->
  Mcts.visits cn <> 0 ->
  Mcts.parent cn = Some p ->
  Mcts.node_heap w !! p = Some pn ->
  0 < Mcts.visits pn ->
  Mcts.float_of_int (Mcts.visits cn) = Ok vf ->
  PrimFloat.is_zero vf = false ->
  (math_log (Mcts.visits pn) / vf <? 0)%float = false ->
  Mcts.ucb1 c c_param w
  = (Mcts.Val (Mcts.value cn / vf
               + c_param * PrimFloat.sqrt (math_log (Mcts.visits pn) / vf))%float, w).
Proof.
  intros Hc Hv Hp Hpn Hpv Hvf Hz Hq.
  unfold Mcts.ucb1, Mcts.mbind, Mcts.get_node. rewrite Hc.
  destruct (Mcts.visits cn =? 0) eqn:E; [lia|].
  rewrite Hp, Hpn. unfold Mcts.ucb1_score. rewrite E, Hvf.
  unfold Mcts.py_fdiv. rewrite Hz. unfold Mcts.py_log.
  destruct (Mcts.visits pn <=? 0) eqn:E2; [lia|].
  unfold Mcts.math_sqrt. rewrite Hq. reflexivity.
Qed.

(** [C8] In a node whose children are each either unvisited or visited with
    a UCB1 score below [+inf]: an unvisited child scores [+inf];
    [best_child] returns the first unvisited child, whatever the scores of
    its visited siblings; and a visited child scores
    [value / visits + c * sqrt(log(parent.visits) / visits)]. *)
Theorem C8_unvisited_child_selected (w : Mcts.world) (node : Mcts.loc)
    (nd : Mcts.Node) (c_param : float) (before : list Mcts.loc) (ch : Mcts.loc)
    (after : list Mcts.loc) :
  Mcts.node_heap w !! node = Some nd ->
  map snd (Mcts.children nd) = before ++ ch :: after ->
  Forall (visited_below_infinity w c_param) before ->
  unvisited w ch ->
  Forall (fun c => unvisited w c \/ visited_below_infinity w c_param c) after ->
  (forall c, unvisited w c -> Mcts.ucb1 c c_param w = (Mcts.Val infinity, w))
  /\ Mcts.best_child node c_param w = (Mcts.Val ch, w)
  /\ (forall c p cn pn vf,
        Mcts.node_heap w !! c = Some cn ->
        Mcts.visits cn <> 0 ->
        Mcts.parent cn = Some p ->
        Mcts.node_heap w !! p = Some pn ->
        0 < Mcts.visits pn ->
        Mcts.float_of_int (Mcts.visits cn) = Ok vf ->
        PrimFloat.is_zero vf = false ->
        (math_log (Mcts.visits pn) / vf <? 0)%float = false ->
        Mcts.ucb1 c c_param w
        = (Mcts.Val (Mcts.value cn / vf
                     + c_param * PrimFloat.sqrt (math_log (Mcts.visits pn) / vf))%float,
           w)).
Proof.
  intros Hnd Hch Hbefore Hu Hafter.
  split; [intros c Hc; apply ucb1_unvisited; exact Hc|].
  split; [|intros; eapply ucb1_visited_formula; eassumption].
  destruct (scores_of_visited w c_param before Hbefore) as (sb & Hsb & Hlt).
  destruct (scores_of_any w c_param after Hafter) as (sa & Hsa).
  assert (Hall : Mcts.ucb1_all (before ++ ch :: after) c_param w
                 = (Mcts.Val (sb ++ infinity :: sa), w)).
  { apply ucb1_all_scores. apply Forall2_app; [exact Hsb|].
    constructor; [apply ucb1_unvisited; exact Hu|exact Hsa]. }
  unfold Mcts.best_child, Mcts.mbind, Mcts.get_node. rewrite Hnd, Hch.
  unfold Mcts.mbind in Hall. rewrite Hall. unfold Mcts.lift.
  rewrite (py_max_first_infinity sb sa Hlt). unfold Mcts.mret, Mcts.py_index_of.
  cbn [fst snd Mcts.mbind]. cbv beta iota.
  pose proof (index_from_first_infinity sb sa Hlt 0) as Hi. simpl in Hi.
  rewrite Hi. rewrite <- (Forall2_length _ _ _ Hsb).
  rewrite list_lookup_middle by reflexivity. reflexivity.
Qed.

End Ucb.

(** An instance: the visited child "hit" scores 12, the unvisited child
    "stay" scores [+inf] and is the one selected. *)
Lemma C8_unvisited_child_selected_witness :
  Mcts.ucb1 3%positive 0x1.6666666666666p+0%float ex_tree
  = (Mcts.Val infinity, ex_tree)
  /\ Mcts.ucb1 2%positive 0x1.6666666666666p+0%float ex_tree
     = (Mcts.Val 12%float, ex_tree)
  /\ Mcts.best_child 1%positive 0x1.6666666666666p+0%float ex_tree
     = (Mcts.Val 3%positive, ex_tree).
Proof.
  assert (Hroot : Mcts.node_heap ex_tree !! 1%positive
                  = Some (Mcts.mkNode 1%positive None None
                            [("hit", 2%positive); ("stay", 3%positive)] 1 12%float))
    by reflexivity.
  assert (H2 : Mcts.node_heap ex_tree !! 2%positive
               = Some (Mcts.mkNode 1%positive (Some 1%positive) (Some "hit") [] 1 12%float))
    by reflexivity.
  assert (Hu : unvisited ex_tree 3%positive).
  { eexists. split; [reflexivity|reflexivity]. }
  assert (Hs2 : Mcts.ucb1 2%positive 0x1.6666666666666p+0%float ex_tree
                = (Mcts.Val 12%float, ex_tree)) by reflexivity.
  assert (Hv : visited_below_infinity ex_tree 0x1.6666666666666p+0%float 2%positive).
  { eexists _, _. split; [exact H2|]. split; [discriminate|].
    split; [exact Hs2|reflexivity]. }
  assert (Hb : Forall (visited_below_infinity ex_tree 0x1.6666666666666p+0%float)
                 [2%positive]) by (constructor; [exact Hv|constructor]).
  assert (Ha : Forall (fun c => unvisited ex_tree c
                        \/ visited_below_infinity ex_tree 0x1.6666666666666p+0%float c)
                 []) by constructor.
  destruct (@C8_unvisited_child_selected lcg_runtime ex_tree 1%positive _
              0x1.6666666666666p+0%float [2%positive] 3%positive [] Hroot eq_refl
              Hb Hu Ha)
    as (Hinf & Hbest & _).
  split; [apply Hinf; exact Hu|]. split; [exact Hs2|exact Hbest].
Defined.

(** ** The search leaves the caller's state alone *)

Section Frame.
Context `{RT : PyRuntime}.
Variable w0 : Mcts.world.

Lemma frame_refl : frame w0 w0.
Proof.
  split; [split; auto|]. intros l obj H1 H2. congruence.
Qed.

Lemma frame_same_heaps (w w' : Mcts.world) :
  Mcts.gs_heap w' = Mcts.gs_heap w ->
  Mcts.deck_heap w' = Mcts.deck_heap w ->
  frame w0 w -> frame w0 w'.
Proof.
  intros Hg Hd [[Hp1 Hp2] Hf]. unfold frame, preserves, fresh_decks.
  rewrite Hg, Hd. auto.
Qed.

Lemma safe_weaken {A : Type} (P Q : A -> Prop) (c : Mcts.M A) :
  safe w0 P c -> (forall a, P a -> Q a) -> safe w0 Q c.
Proof.
  intros Hc HPQ w Hw. destruct (Hc w Hw) as [Hf Hp]. split; auto.
Qed.

Lemma safe_mret {A : Type} (P : A -> Prop) (a : A) :
  P a -> safe w0 P (Mcts.mret a).
Proof. intros Ha w Hw. simpl. split; [exact Hw|]. intros b [= <-]. exact Ha. Qed.

Lemma safe_mraise {A : Type} (P : A -> Prop) (e : exn) :
  safe w0 P (Mcts.mraise e).
Proof. intros w Hw. simpl. split; [exact Hw|discriminate]. Qed.

Lemma safe_mdangling {A : Type} (P : A -> Prop) : safe w0 P Mcts.mdangling.
Proof. intros w Hw. simpl. split; [exact Hw|discriminate]. Qed.

Lemma safe_mtimeout {A : Type} (P : A -> Prop) : safe w0 P Mcts.mtimeout.
Proof. intros w Hw. simpl. split; [exact Hw|discriminate]. Qed.

Lemma safe_mbind {A B : Type} (P : A -> Prop) (Q : B -> Prop)
    (c : Mcts.M A) (k : A -> Mcts.M B) :
  safe w0 P c -> (forall a, P a -> safe w0 Q (k a)) -> safe w0 Q (Mcts.mbind c k).
Proof.
  intros Hc Hk w Hw. destruct (Hc w Hw) as [Hf Hp]. unfold Mcts.mbind.
  destruct (c w) as [[a| e | |] w1]; simpl in *;
    try (split; [exact Hf|discriminate]).
  apply (Hk a (Hp a eq_refl) w1 Hf).
Qed.

Lemma safe_lift {A : Type} (r : result A) : safe w0 (fun _ => True) (Mcts.lift r).
Proof. destruct r; [apply safe_mret; exact I|apply safe_mraise]. Qed.

(** Computations that only read, or only touch the tree and the generator. *)
Lemma safe_same_heaps {A : Type} (c : Mcts.M A) :
  (forall w, Mcts.gs_heap (snd (c w)) = Mcts.gs_heap w
             /\ Mcts.deck_heap (snd (c w)) = Mcts.deck_heap w) ->
  safe w0 (fun _ => True) c.
Proof.
  intros H w Hw. destruct (H w) as [Hg Hd].
  split; [eapply frame_same_heaps; eassumption|auto].
Qed.

Lemma safe_load_state (l : Mcts.loc) : safe w0 (fun _ => True) (Mcts.load_state l).
Proof.
  apply safe_same_heaps. intros w. unfold Mcts.load_state.
  destruct (Mcts.gs_heap w !! l) as [obj|]; [|auto].
  destruct (Mcts.deck_heap w !! deck obj); auto.
Qed.

Lemma safe_get_node (n : Mcts.loc) : safe w0 (fun _ => True) (Mcts.get_node n).
Proof.
  apply safe_same_heaps. intros w. unfold Mcts.get_node.
  destruct (Mcts.node_heap w !! n); auto.
Qed.

Lemma safe_put_node (n : Mcts.loc) (nd : Mcts.Node) :
  safe w0 (fun _ => True) (Mcts.put_node n nd).
Proof.
  apply safe_same_heaps. intros w. unfold Mcts.put_node.
  destruct (Mcts.node_heap w !! n); auto.
Qed.

Lemma safe_new_node (st : Mcts.loc) (p : option Mcts.loc) (a : option string) :
  safe w0 (fun _ => True) (Mcts.new_node st p a).
Proof. apply safe_same_heaps. intros w. auto. Qed.

Lemma safe_choice {A : Type} (l : list A) : safe w0 (fun _ => True) (Mcts.choice l).
Proof.
  apply safe_same_heaps. intros w. unfold Mcts.choice.
  destruct l as [|x l]; [auto|].
  destruct (rng_randbelow (Mcts.global_rng w) (length (x :: l))). auto.
Qed.

(** [clone] allocates: the copy is not one of the caller's objects. *)
Lemma safe_clone (l : Mcts.loc) :
  safe w0 (fun l' => Mcts.gs_heap w0 !! l' = None) (Mcts.clone l).
Proof.
  intros w [[Hp1 Hp2] Hf]. unfold Mcts.clone.
  destruct (Mcts.gs_heap w !! l) as [obj|] eqn:Hl;
    [|split; [split; [split|]; assumption|discriminate]].
  destruct (Mcts.deck_heap w !! deck obj) as [d|] eqn:Hd;
    [|split; [split; [split|]; assumption|discriminate]].
  assert (Hl' : Mcts.gs_heap w !! fresh (dom (Mcts.gs_heap w)) = None)
    by (apply not_elem_of_dom, is_fresh).
  assert (Hd' : Mcts.deck_heap w !! fresh (dom (Mcts.deck_heap w)) = None)
    by (apply not_elem_of_dom, is_fresh).
  generalize dependent (fresh (dom (Mcts.deck_heap w))).
  generalize dependent (fresh (dom (Mcts.gs_heap w))).
  intros l' Hl' d' Hd'.
  assert (Hl0 : Mcts.gs_heap w0 !! l' = None).
  { destruct (Mcts.gs_heap w0 !! l') as [o|] eqn:E; [|reflexivity].
    apply Hp1 in E. congruence. }
  assert (Hd0 : Mcts.deck_heap w0 !! d' = None).
  { destruct (Mcts.deck_heap w0 !! d') as [o|] eqn:E; [|reflexivity].
    apply Hp2 in E. congruence. }
  simpl. split; [|intros a [= <-]; exact Hl0].
  split; [split|]; simpl.
  - intros k o Hk. rewrite lookup_insert_ne; [auto|]. intros <-. congruence.
  - intros k o Hk. rewrite lookup_insert_ne; [auto|]. intros <-. congruence.
  - intros k o Hk Hk0. simpl in Hk. destruct (decide (l' = k)) as [<-|Hne].
    + rewrite lookup_insert_eq in Hk. injection Hk as <-. simpl. exact Hd0.
    + rewrite lookup_insert_ne in Hk by exact Hne. eauto.
Qed.

(** Writing to an object created since [w0], and to its deck. *)
Lemma frame_write (w : Mcts.world) (l : Mcts.loc) (obj obj' : GameState_ Mcts.loc)
    (dk : Flip7Deck) :
  frame w0 w ->
  Mcts.gs_heap w0 !! l = None ->
  Mcts.gs_heap w !! l = Some obj ->
  deck obj' = deck obj ->
  frame w0
    (Mcts.set_deck_heap (<[deck obj := dk]> (Mcts.deck_heap w))
       (Mcts.set_gs_heap (<[l := obj']> (Mcts.gs_heap w)) w)).
Proof.
  intros [[Hp1 Hp2] Hf] Hl0 Hl Hdeck.
  pose proof (Hf l obj Hl Hl0) as Hd0.
  split; [split|]; simpl.
  - intros k o Hk. rewrite lookup_insert_ne; [auto|]. intros <-. congruence.
  - intros k o Hk. rewrite lookup_insert_ne; [auto|]. intros <-. congruence.
  - intros k o Hk Hk0. simpl in Hk. destruct (decide (l = k)) as [<-|Hne].
    + rewrite lookup_insert_eq in Hk. injection Hk as <-. rewrite Hdeck. exact Hd0.
    + rewrite lookup_insert_ne in Hk by exact Hne. eauto.
Qed.

Lemma frame_write_deck (w : Mcts.world) (l : Mcts.loc) (obj : GameState_ Mcts.loc)
    (dk : Flip7Deck) :
  frame w0 w ->
  Mcts.gs_heap w0 !! l = None ->
  Mcts.gs_heap w !! l = Some obj ->
  frame w0 (Mcts.set_deck_heap (<[deck obj := dk]> (Mcts.deck_heap w)) w).
Proof.
  intros [[Hp1 Hp2] Hf] Hl0 Hl.
  pose proof (Hf l obj Hl Hl0) as Hd0.
  split; [split|]; simpl.
  - exact Hp1.
  - intros k o Hk. rewrite lookup_insert_ne; [auto|]. intros <-. congruence.
  - exact Hf.
Qed.

Lemma safe_shuffle_deck (l : Mcts.loc) :
  Mcts.gs_heap w0 !! l = None ->
  safe w0 (fun _ => True) (Mcts.shuffle_deck l).
Proof.
  intros Hl0 w Hw. unfold Mcts.shuffle_deck.
  destruct (Mcts.gs_heap w !! l) as [obj|] eqn:Hl; [|split; [exact Hw|discriminate]].
  destruct (Mcts.deck_heap w !! deck obj) as [d|] eqn:Hd;
    [|split; [exact Hw|discriminate]].
  destruct (rng_shuffle (Mcts.global_rng w) (cards d)) as [cs g].
  simpl. split; [|auto].
  eapply frame_same_heaps;
    [| |exact (frame_write_deck w l obj (mkDeck (rng d) cs) Hw Hl0 Hl)];
    reflexivity.
Qed.

Lemma safe_store_state (l : Mcts.loc) (gs : GameState) :
  Mcts.gs_heap w0 !! l = None ->
  safe w0 (fun _ => True) (Mcts.store_state l gs).
Proof.
  intros Hl0 w Hw. unfold Mcts.store_state.
  destruct (Mcts.gs_heap w !! l) as [obj|] eqn:Hl; [|split; [exact Hw|discriminate]].
  simpl. split; [|auto].
  apply (frame_write w l obj); auto.
Qed.

Lemma safe_call {A : Type} (l : Mcts.loc) (c : E A) :
  Mcts.gs_heap w0 !! l = None ->
  safe w0 (fun _ => True) (Mcts.call l c).
Proof.
  intros Hl0. unfold Mcts.call.
  eapply safe_mbind; [apply safe_load_state|]. intros gs _.
  destruct (c gs) as [r gs'].
  eapply safe_mbind; [apply safe_store_state; exact Hl0|]. intros _ _.
  destruct r; [apply safe_mret; exact I|apply safe_mraise].
Qed.

Lemma safe_seq {A B : Type} (c : Mcts.M A) (k : A -> Mcts.M B) :
  safe w0 (fun _ => True) c ->
  (forall a, safe w0 (fun _ => True) (k a)) ->
  safe w0 (fun _ => True) (Mcts.mbind c k).
Proof. intros Hc Hk. eapply safe_mbind; [exact Hc|]. intros a _. apply Hk. Qed.

(** Binding the result of an allocation. *)
Lemma safe_after {A B : Type} (P : A -> Prop) (c : Mcts.M A) (k : A -> Mcts.M B) :
  safe w0 P c ->
  (forall a, P a -> safe w0 (fun _ => True) (k a)) ->
  safe w0 (fun _ => True) (Mcts.mbind c k).
Proof. intros Hc Hk. eapply safe_mbind; [exact Hc|exact Hk]. Qed.

Ltac safe_leaf :=
  first
    [ apply safe_mret; exact I
    | apply safe_mraise
    | apply safe_mdangling
    | apply safe_mtimeout
    | apply safe_lift
    | apply safe_get_node
    | apply safe_put_node
    | apply safe_new_node
    | apply safe_choice
    | apply safe_load_state ].

Ltac safe_go :=
  repeat first
    [ safe_leaf
    | assumption
    | match goal with
      | |- safe _ _ (Mcts.mbind _ _) => apply safe_seq; [|intros ?]
      | |- safe _ _ (match ?x with _ => _ end) => destruct x
      | |- safe _ _ (let '(_, _) := ?x in _) => destruct x
      end ].

Lemma safe_true {A : Type} (P : A -> Prop) (c : Mcts.M A) :
  safe w0 P c -> safe w0 (fun _ => True) c.
Proof. intros H. eapply safe_weaken; [exact H|auto]. Qed.

Lemma safe_determinize (st : Mcts.loc) :
  safe w0 (fun l' => Mcts.gs_heap w0 !! l' = None) (Mcts.determinize st).
Proof.
  unfold Mcts.determinize.
  eapply safe_mbind; [apply safe_clone|]. intros l' Hl'.
  eapply safe_mbind; [apply safe_shuffle_deck; exact Hl'|]. intros _ _.
  apply safe_mret. exact Hl'.
Qed.

Lemma safe_expand_actions (node : Mcts.loc) (actions : list string) :
  safe w0 (fun _ => True) (Mcts.expand_actions node actions).
Proof.
  induction actions as [|a rest IH]; simpl; [safe_go|].
  apply safe_seq; [apply safe_get_node|]. intros nd.
  apply safe_seq; [|intros _; exact IH].
  destruct (Mcts.dict_mem a (Mcts.children nd)); [safe_go|].
  apply (safe_after _ _ _ (safe_clone _)). intros l' Hl'.
  apply safe_seq; [apply safe_shuffle_deck; exact Hl'|]. intros _.
  safe_go.
Qed.

Lemma safe_expand (node : Mcts.loc) : safe w0 (fun _ => True) (Mcts.expand node).
Proof.
  unfold Mcts.expand.
  apply safe_seq; [apply safe_get_node|]. intros nd.
  apply safe_seq; [apply safe_load_state|]. intros gs.
  apply safe_expand_actions.
Qed.

Lemma safe_rollout_loop (fuel : nat) (st : Mcts.loc) :
  Mcts.gs_heap w0 !! st = None ->
  forall hit : bool, safe w0 (fun _ => True) (Mcts.rollout_loop fuel st hit).
Proof.
  intros Hst. induction fuel as [|fuel IH]; intros hit; simpl; [safe_go|].
  apply safe_seq; [apply safe_load_state|]. intros gs.
  destruct (game_over gs || (Flip7Deck_remaining (deck gs) =? 0)); [safe_go|].
  destruct (legal_actions gs) as [|a0 acts]; [safe_go|].
  apply safe_seq; [apply safe_choice|]. intros act.
  apply safe_seq; [apply safe_call; exact Hst|]. intros res.
  destruct (truthy (dict_get "round_end" res)); [safe_go|apply IH].
Qed.

Lemma safe_total_of (st : Mcts.loc) (player : Z) :
  safe w0 (fun _ => True) (Mcts.total_of st player).
Proof. unfold Mcts.total_of. safe_go. Qed.

Lemma safe_default_policy (agent : Mcts.MCTSAgent) (fuel : nat) (st0 : Mcts.loc) :
  safe w0 (fun _ => True) (Mcts.default_policy agent fuel st0).
Proof.
  unfold Mcts.default_policy.
  apply (safe_after _ _ _ (safe_clone _)). intros st Hst.
  apply safe_seq; [apply safe_load_state|]. intros gs.
  apply safe_seq; [apply safe_total_of|]. intros s0.
  apply safe_seq; [apply safe_rollout_loop; exact Hst|]. intros hit.
  apply safe_seq; [apply safe_total_of|]. intros s1.
  destruct hit; safe_go.
Qed.

Lemma safe_backup (fuel : nat) (reward : Mcts.pynum) :
  forall node : option Mcts.loc,
    safe w0 (fun _ => True) (Mcts.backup fuel node reward).
Proof.
  induction fuel as [|fuel IH]; intros [cur|]; simpl; try safe_go.
  apply IH.
Qed.

Lemma safe_ucb1 (n : Mcts.loc) (c_param : float) :
  safe w0 (fun _ => True) (Mcts.ucb1 n c_param).
Proof. unfold Mcts.ucb1. safe_go. Qed.

Lemma safe_ucb1_all (choices : list Mcts.loc) (c_param : float) :
  safe w0 (fun _ => True) (Mcts.ucb1_all choices c_param).
Proof.
  induction choices as [|ch rest IH]; simpl; [safe_go|].
  apply safe_seq; [apply safe_ucb1|]. intros s.
  apply safe_seq; [exact IH|]. intros ss. safe_go.
Qed.

Lemma safe_best_child (node : Mcts.loc) (c_param : float) :
  safe w0 (fun _ => True) (Mcts.best_child node c_param).
Proof.
  unfold Mcts.best_child.
  apply safe_seq; [apply safe_get_node|]. intros nd.
  apply safe_seq; [apply safe_ucb1_all|]. intros scores.
  safe_go.
Qed.

Lemma safe_select_leaf (fuel : nat) :
  forall node : Mcts.loc, safe w0 (fun _ => True) (Mcts.select_leaf fuel node).
Proof.
  induction fuel as [|fuel IH]; intros node; simpl; [safe_go|].
  apply safe_seq; [apply safe_get_node|]. intros nd.
  destruct (Mcts.children nd); [safe_go|].
  apply safe_seq; [apply safe_best_child|]. intros ch. apply IH.
Qed.

Lemma safe_simulate_once (agent : Mcts.MCTSAgent) (fuel : nat) (root : Mcts.loc) :
  safe w0 (fun _ => True) (Mcts.simulate_once agent fuel root).
Proof.
  unfold Mcts.simulate_once.
  apply safe_seq; [apply safe_select_leaf|]. intros node.
  apply safe_seq; [apply safe_get_node|]. intros nd.
  eapply safe_mbind.
  { destruct (Mcts.visits nd >? 0); [|safe_go].
    apply safe_seq; [apply safe_expand|]. intros _. safe_go. }
  intros node' _.
  apply safe_seq; [apply safe_get_node|]. intros nd2.
  apply (safe_after _ _ _ (safe_clone _)). intros det Hdet.
  apply safe_seq; [apply safe_shuffle_deck; exact Hdet|]. intros _.
  apply safe_seq; [apply safe_default_policy|]. intros ri.
  apply safe_backup.
Qed.

Lemma safe_simulate_many (agent : Mcts.MCTSAgent) (fuel : nat) (root : Mcts.loc)
    (n : nat) :
  safe w0 (fun _ => True) (Mcts.simulate_many agent fuel root n).
Proof.
  induction n as [|n IH]; simpl; [safe_go|].
  apply safe_seq; [apply safe_simulate_once|]. intros _. exact IH.
Qed.

Lemma safe_pick_best (items : list (string * Mcts.loc)) :
  forall (best_act : option string) (best_score : float),
    safe w0 (fun _ => True) (Mcts.pick_best items best_act best_score).
Proof.
  induction items as [|[a child] rest IH]; intros best_act best_score; simpl;
    [safe_go|].
  apply safe_seq; [apply safe_get_node|]. intros ch.
  apply safe_seq.
  { destruct (Mcts.visits ch =? 0); safe_go. }
  intros score. destruct (best_score <? score)%float; apply IH.
Qed.

Lemma safe_run (agent : Mcts.MCTSAgent) (fuel : nat) (root_state : Mcts.loc)
    (sims_arg : option Z) :
  safe w0 (fun _ => True) (Mcts.run agent fuel root_state sims_arg).
Proof.
  unfold Mcts.run.
  apply (safe_after _ _ _ (safe_determinize _)). intros st Hst.
  apply safe_seq; [apply safe_new_node|]. intros root.
  apply safe_seq; [apply safe_expand|]. intros _.
  apply safe_seq; [apply safe_simulate_many|]. intros _.
  apply safe_seq; [apply safe_get_node|]. intros rn.
  apply safe_pick_best.
Qed.

End Frame.

Section CallerState.
Context `{RT : PyRuntime}.

Lemma run_on_missing_state (agent : Mcts.MCTSAgent) (fuel : nat)
    (root_state : Mcts.loc) (sims_arg : option Z) (w : Mcts.world) :
  fst (Mcts.load_state root_state w) = Mcts.Dangling ->
  snd (Mcts.run agent fuel root_state sims_arg w) = w.
Proof.
  unfold Mcts.load_state, Mcts.run, Mcts.determinize, Mcts.mbind, Mcts.clone.
  destruct (Mcts.gs_heap w !! root_state) as [obj|]; [|reflexivity].
  destruct (Mcts.deck_heap w !! deck obj); [discriminate|reflexivity].
Qed.

(** [C7] Whatever the budget, the loop bounds and the way [run] ends (a
    result, an exception, an exhausted bound), every [GameState] object and
    every deck object of the caller's store is afterwards what it was
    before: the clones that [run] works on are new objects with new decks.
    In particular, reading the state that was passed in gives the same
    fields (totals, current line, current player, winner) and the same
    deck contents before and after. *)
Theorem C7_run_leaves_caller_state (agent : Mcts.MCTSAgent) (fuel : nat)
    (root_state : Mcts.loc) (sims_arg : option Z) (w : Mcts.world) :
  let w' := snd (Mcts.run agent fuel root_state sims_arg w) in
  (forall l obj, Mcts.gs_heap w !! l = Some obj -> Mcts.gs_heap w' !! l = Some obj)
  /\ (forall d dk, Mcts.deck_heap w !! d = Some dk -> Mcts.deck_heap w' !! d = Some dk)
  /\ fst (Mcts.load_state root_state w') = fst (Mcts.load_state root_state w).
Proof.
  intros w'.
  destruct (safe_run w agent fuel root_state sims_arg w (frame_refl w))
    as [[[Hg Hd] _] _].
  fold w' in Hg, Hd. split; [exact Hg|]. split; [exact Hd|].
  destruct (fst (Mcts.load_state root_state w)) eqn:Hload.
  - unfold Mcts.load_state in *.
    destruct (Mcts.gs_heap w !! root_state) as [obj|] eqn:Ho; [|discriminate].
    destruct (Mcts.deck_heap w !! deck obj) as [dk|] eqn:Hk; [|discriminate].
    rewrite (Hg _ _ Ho), (Hd _ _ Hk). exact Hload.
  - unfold Mcts.load_state in Hload.
    destruct (Mcts.gs_heap w !! root_state) as [obj|]; [|discriminate].
    destruct (Mcts.deck_heap w !! deck obj); discriminate.
  - unfold w'. rewrite run_on_missing_state by exact Hload. exact Hload.
  - unfold Mcts.load_state in Hload.
    destruct (Mcts.gs_heap w !! root_state) as [obj|]; [|discriminate].
    destruct (Mcts.deck_heap w !! deck obj); discriminate.
Qed.

End CallerState.

(** The model at work: five simulations on a fresh two-player game return
    an action, and create objects next to the caller's. *)
Lemma run_five_simulations :
  fst (Mcts.run ex_agent 1000 1%positive (Some 5) ex_world) = Mcts.Val (Some "stay")
  /\ size (Mcts.gs_heap ex_world) = 1%nat
  /\ (1 < size (Mcts.gs_heap
                 (snd (Mcts.run ex_agent 1000 1%positive (Some 5%Z) ex_world))))%nat.
Proof. vm_compute. repeat split; lia. Qed.

(** ** A budget of zero *)

Section ZeroBudget.
Context `{RT : PyRuntime}.

Lemma live_state_insert_deck (w : Mcts.world) (k : Mcts.loc) (dk : Flip7Deck)
    (l : Mcts.loc) (ro : bool) (wn : option Z) :
  live_state w l ro wn ->
  live_state (Mcts.set_deck_heap (<[k := dk]> (Mcts.deck_heap w)) w) l ro wn.
Proof.
  intros (obj & d & Ho & Hd & Hr & Hw). unfold live_state. simpl.
  destruct (decide (k = deck obj)) as [->|Hne].
  - exists obj, dk. rewrite lookup_insert_eq. auto.
  - exists obj, d. rewrite lookup_insert_ne by exact Hne. auto.
Qed.

Lemma live_state_same_heaps (w w' : Mcts.world) (l : Mcts.loc) (ro : bool)
    (wn : option Z) :
  Mcts.gs_heap w' = Mcts.gs_heap w ->
  Mcts.deck_heap w' = Mcts.deck_heap w ->
  live_state w l ro wn -> live_state w' l ro wn.
Proof. unfold live_state. intros -> ->. auto. Qed.

Lemma clone_live (w : Mcts.world) (l : Mcts.loc) (ro : bool) (wn : option Z) :
  live_state w l ro wn ->
  exists l' w',
    Mcts.clone l w = (Mcts.Val l', w')
    /\ live_state w' l' ro wn
    /\ (forall l2 ro2 wn2, live_state w l2 ro2 wn2 -> live_state w' l2 ro2 wn2)
    /\ Mcts.node_heap w' = Mcts.node_heap w.
Proof.
  intros (obj & d & Ho & Hd & Hr & Hw). unfold Mcts.clone. rewrite Ho, Hd.
  assert (Hl' : Mcts.gs_heap w !! fresh (dom (Mcts.gs_heap w)) = None)
    by (apply not_elem_of_dom, is_fresh).
  assert (Hd' : Mcts.deck_heap w !! fresh (dom (Mcts.deck_heap w)) = None)
    by (apply not_elem_of_dom, is_fresh).
  generalize dependent (fresh (dom (Mcts.deck_heap w))).
  generalize dependent (fresh (dom (Mcts.gs_heap w))).
  intros l' Hl' d' Hd'.
  eexists l', _. split; [reflexivity|]. split; [|split; [|reflexivity]].
  - exists (with_deck d' obj), d. simpl. rewrite !lookup_insert_eq. auto.
  - intros l2 ro2 wn2 (obj2 & d2 & Ho2 & Hd2 & Hr2 & Hw2).
    exists obj2, d2. simpl.
    rewrite lookup_insert_ne by (intros Heq; subst; congruence).
    rewrite lookup_insert_ne by (intros Heq; subst; congruence). auto.
Qed.

Lemma shuffle_live (w : Mcts.world) (l : Mcts.loc) (ro : bool) (wn : option Z) :
  live_state w l ro wn ->
  exists w',
    Mcts.shuffle_deck l w = (Mcts.Val tt, w')
    /\ (forall l2 ro2 wn2, live_state w l2 ro2 wn2 -> live_state w' l2 ro2 wn2)
    /\ Mcts.node_heap w' = Mcts.node_heap w.
Proof.
  intros (obj & d & Ho & Hd & Hr & Hw). unfold Mcts.shuffle_deck. rewrite Ho, Hd.
  destruct (rng_shuffle (Mcts.global_rng w) (cards d)) as [cs g].
  eexists. split; [reflexivity|]. split; [|reflexivity].
  intros l2 ro2 wn2 Hl2.
  eapply live_state_same_heaps;
    [| |exact (live_state_insert_deck w (deck obj) (mkDeck (rng d) cs) l2 ro2 wn2 Hl2)];
    reflexivity.
Qed.

Lemma unvisited_insert (w : Mcts.world) (n : Mcts.loc) (nd : Mcts.Node) (c : Mcts.loc) :
  Mcts.visits nd = 0 ->
  unvisited w c ->
  unvisited (Mcts.set_node_heap (<[n := nd]> (Mcts.node_heap w)) w) c.
Proof.
  intros Hv (cn & Hc & Hcv). unfold unvisited. simpl.
  destruct (decide (n = c)) as [->|Hne].
  - exists nd. rewrite lookup_insert_eq. auto.
  - exists cn. rewrite lookup_insert_ne by exact Hne. auto.
Qed.

Lemma unvisited_same_nodes (w w' : Mcts.world) (c : Mcts.loc) :
  Mcts.node_heap w' = Mcts.node_heap w -> unvisited w c -> unvisited w' c.
Proof. unfold unvisited. intros ->. auto. Qed.

Lemma Forall_dict_set {V : Type} (P : string * V -> Prop) (k : string) (v : V)
    (d : list (string * V)) :
  P (k, v) -> Forall P d -> Forall P (Mcts.dict_set k v d).
Proof.
  intros Hkv. induction 1 as [|[k' v'] d Hx Hd IH]; simpl.
  - constructor; [exact Hkv|constructor].
  - destruct (String.eqb k k'); constructor; assumption.
Qed.

Lemma mbind_val {A B : Type} (c : Mcts.M A) (k : A -> Mcts.M B)
    (w w' : Mcts.world) (a : A) :
  c w = (Mcts.Val a, w') -> Mcts.mbind c k w = k a w'.
Proof. intros H. unfold Mcts.mbind. rewrite H. reflexivity. Qed.

Lemma get_node_val (w : Mcts.world) (n : Mcts.loc) (nd : Mcts.Node) :
  Mcts.node_heap w !! n = Some nd -> Mcts.get_node n w = (Mcts.Val nd, w).
Proof. intros H. unfold Mcts.get_node. rewrite H. reflexivity. Qed.

Lemma put_node_val (w : Mcts.world) (n : Mcts.loc) (old nd : Mcts.Node) :
  Mcts.node_heap w !! n = Some old ->
  Mcts.put_node n nd w
  = (Mcts.Val tt, Mcts.set_node_heap (<[n := nd]> (Mcts.node_heap w)) w).
Proof. intros H. unfold Mcts.put_node. rewrite H. reflexivity. Qed.

Lemma expand_actions_fresh_root (root st : Mcts.loc) (actions : list string) :
  forall (w : Mcts.world) (cs : list (string * Mcts.loc)),
    fresh_root w root st cs ->
    exists w' cs',
      Mcts.expand_actions root actions w = (Mcts.Val tt, w')
      /\ fresh_root w' root st cs'.
Proof.
  induction actions as [|a rest IH]; intros w cs Hroot; simpl.
  - exists w, cs. split; [reflexivity|exact Hroot].
  - destruct Hroot as (Hr & Hcs & Hlive).
    rewrite (mbind_val _ _ _ _ _ (get_node_val w root _ Hr)).
    cbn [Mcts.children Mcts.state].
    destruct (Mcts.dict_mem a cs).
    + rewrite (mbind_val _ _ w w tt) by reflexivity.
      apply (IH w cs). repeat split; assumption.
    + destruct (clone_live w st false None Hlive) as (l1 & w1 & Hc1 & Hl1 & Hk1 & Hn1).
      destruct (shuffle_live w1 l1 false None Hl1) as (w2 & Hs2 & Hk2 & Hn2).
      assert (Hfresh : Mcts.node_heap w2 !! fresh (dom (Mcts.node_heap w2)) = None)
        by (apply not_elem_of_dom, is_fresh).
      remember (fresh (dom (Mcts.node_heap w2))) as n eqn:En.
      assert (Hne : n <> root).
      { intros ->. rewrite Hn2, Hn1, Hr in Hfresh. discriminate. }
      set (child := Mcts.mkNode l1 (Some root) (Some a) [] 0 0%float).
      set (w3 := Mcts.set_node_heap (<[n := child]> (Mcts.node_heap w2)) w2).
      assert (Hr3 : Mcts.node_heap w3 !! root
                    = Some (Mcts.mkNode st None None cs 0 0%float)).
      { unfold w3. simpl. rewrite lookup_insert_ne by exact Hne.
        rewrite Hn2, Hn1. exact Hr. }
      set (rn := Mcts.mkNode st None None (Mcts.dict_set a n cs) 0 0%float).
      set (w4 := Mcts.set_node_heap (<[root := rn]> (Mcts.node_heap w3)) w3).
      assert (Hstep :
        Mcts.mbind (Mcts.clone st) (fun new_state =>
          Mcts.mbind (Mcts.shuffle_deck new_state) (fun _ =>
            Mcts.mbind (Mcts.new_node new_state (Some root) (Some a)) (fun ch =>
              Mcts.mbind (Mcts.get_node root) (fun nd' =>
                Mcts.put_node root
                  (Mcts.mkNode (Mcts.state nd') (Mcts.parent nd') (Mcts.action nd')
                     (Mcts.dict_set a ch (Mcts.children nd')) (Mcts.visits nd')
                     (Mcts.value nd')))))) w
        = (Mcts.Val tt, w4)).
      { rewrite (mbind_val _ _ _ _ _ Hc1).
        rewrite (mbind_val _ _ _ _ _ Hs2).
        rewrite (mbind_val _ _ w2 w3 n) by (unfold Mcts.new_node; rewrite <- En; reflexivity).
        rewrite (mbind_val _ _ _ _ _ (get_node_val w3 root _ Hr3)).
        rewrite (put_node_val w3 root _ _ Hr3). reflexivity. }
      rewrite (mbind_val _ _ _ _ _ Hstep).
      apply (IH w4 (Mcts.dict_set a n cs)).
      split; [unfold w4; simpl; apply lookup_insert_eq|]. split.
      * apply Forall_dict_set.
        -- exists child. unfold w4, w3. simpl.
           rewrite lookup_insert_ne by congruence.
           rewrite lookup_insert_eq. auto.
        -- eapply Forall_impl; [exact Hcs|]. intros [k c] Hu. simpl in *.
           apply (unvisited_insert w3 root rn c); [reflexivity|].
           apply (unvisited_insert w2 n child c); [reflexivity|].
           apply (unvisited_same_nodes w); [congruence|exact Hu].
      * eapply live_state_same_heaps; [| |apply Hk2, Hk1, Hlive]; reflexivity.
Qed.

Lemma pick_best_unvisited (w : Mcts.world) (items : list (string * Mcts.loc)) :
  Forall (fun kv => unvisited w (snd kv)) items ->
  forall best_act : option string,
    Mcts.pick_best items best_act neg_infinity w = (Mcts.Val best_act, w).
Proof.
  induction 1 as [|[a c] items (cn & Hc & Hv) _ IH]; intros best_act; simpl;
    [reflexivity|].
  unfold Mcts.mbind, Mcts.get_node. simpl in Hc. rewrite Hc, Hv. simpl.
  apply IH.
Qed.

(** [C2] fails on the code. With a budget of zero, on any state that has a
    legal action, [run] returns Python's [None]: both children of the root
    are unvisited, each scores [-inf], and [-inf > -inf] is false, so
    [best_act] keeps its initial value. *)
Theorem C2_zero_budget_returns_none (agent : Mcts.MCTSAgent) (fuel : nat)
    (root_state : Mcts.loc) (w : Mcts.world) (obj : GameState_ Mcts.loc)
    (d : Flip7Deck) :
  Mcts.gs_heap w !! root_state = Some obj ->
  Mcts.deck_heap w !! deck obj = Some d ->
  legal_actions (with_deck d obj) <> [] ->
  fst (Mcts.run agent fuel root_state (Some 0) w) = Mcts.Val None.
Proof.
  intros Ho Hd Hlegal.
  destruct (legal_actions_inv _ Hlegal) as [Hro Hwn]. simpl in Hro, Hwn.
  assert (Hlive : live_state w root_state false None).
  { exists obj, d. auto. }
  destruct (clone_live w root_state false None Hlive)
    as (st & w1 & Hc1 & Hl1 & _ & _).
  destruct (shuffle_live w1 st false None Hl1) as (w2 & Hs2 & Hk2 & _).
  remember (fresh (dom (Mcts.node_heap w2))) as root eqn:Eroot.
  set (rn := Mcts.mkNode st None None [] 0 0%float).
  set (w3 := Mcts.set_node_heap (<[root := rn]> (Mcts.node_heap w2)) w2).
  assert (Hlive3 : live_state w3 st false None).
  { eapply live_state_same_heaps; [| |apply Hk2, Hl1]; reflexivity. }
  assert (Hroot : fresh_root w3 root st []).
  { split; [unfold w3; simpl; apply lookup_insert_eq|]. split; [constructor|].
    exact Hlive3. }
  destruct Hlive3 as (obj3 & d3 & Ho3 & Hd3 & Hr3 & Hw3).
  assert (Hleg : legal_actions (with_deck d3 obj3) = ["hit"; "stay"]).
  { apply legal_actions_open; simpl; assumption. }
  destruct (expand_actions_fresh_root root st ["hit"; "stay"] w3 [] Hroot)
    as (w4 & cs & He & Hr4 & Hcs4 & _).
  unfold Mcts.run, Mcts.determinize.
  rewrite (mbind_val _ _ w w2 st)
    by (rewrite (mbind_val _ _ _ _ _ Hc1), (mbind_val _ _ _ _ _ Hs2); reflexivity).
  rewrite (mbind_val _ _ w2 w3 root)
    by (unfold Mcts.new_node; rewrite <- Eroot; reflexivity).
  rewrite (mbind_val _ _ w3 w4 tt).
  2:{ unfold Mcts.expand. destruct Hroot as (Hr & _ & _).
      rewrite (mbind_val _ _ _ _ _ (get_node_val w3 root _ Hr)).
      cbn [Mcts.state].
      rewrite (mbind_val _ _ w3 w3 (with_deck d3 obj3))
        by (unfold Mcts.load_state; rewrite Ho3, Hd3; reflexivity).
      rewrite Hleg. exact He. }
  simpl Z.to_nat. simpl Mcts.simulate_many.
  rewrite (mbind_val _ _ w4 w4 tt) by reflexivity.
  rewrite (mbind_val _ _ _ _ _ (get_node_val w4 root _ Hr4)).
  cbn [Mcts.children]. rewrite (pick_best_unvisited w4 cs Hcs4 None).
  reflexivity.
Qed.

End ZeroBudget.

(** An instance: a fresh two-player game built with seed 42. *)
Lemma C2_zero_budget_returns_none_witness :
  legal_actions ex_game = ["hit"; "stay"]
  /\ fst (Mcts.run ex_agent 1000 1%positive (Some 0) ex_world) = Mcts.Val None.
Proof.
  split; [reflexivity|].
  apply (@C2_zero_budget_returns_none lcg_runtime ex_agent 1000 1%positive ex_world
           (with_deck 1%positive ex_game) (deck ex_game));
    [reflexivity | reflexivity | discriminate].
Defined.

(** ** Staying during a rollout *)

Section Rollout.
Context `{RT : PyRuntime}.

Lemma with_deck_deck {D : Type} (gs : GameState_ D) : with_deck (deck gs) gs = gs.
Proof. destruct gs. reflexivity. Qed.

Lemma with_deck_twice {D1 D2 D3 : Type} (d2 : D2) (d3 : D3) (gs : GameState_ D1) :
  with_deck d3 (with_deck d2 gs) = with_deck d3 gs.
Proof. reflexivity. Qed.

(** A successful action leaves the round flag down. *)
Lemma apply_action_round_over (a : string) (gs gs' : GameState) (res : pydict) :
  apply_action a gs = (Ok res, gs') -> round_over gs' = false.
Proof.
  unfold apply_action. monad_unfold. cbv beta iota.
  destruct (negb (existsb (String.eqb a) (legal_actions gs))); [discriminate|].
  destruct (String.eqb a "stay").
  - destruct (_bank_current _) as [[[]|e] gs1]; [|discriminate].
    destruct (advance_player gs1) as [[[]|e] gs2]; [|discriminate].
    intros [= _ <-]. reflexivity.
  - match goal with |- context [draw ?g] => set (g0 := g) end.
    destruct (draw g0) as [[c|e] gs1] eqn:Hd; [|discriminate].
    assert (Hr1 : round_over gs1 = false).
    { unfold draw, Flip7Deck_draw in Hd.
      destruct (cards (deck g0)); [discriminate|]. injection Hd as _ <-. reflexivity. }
    pose proof (process_draw_post c gs1) as Hp. unfold draw_post in Hp.
    destruct (_process_draw c gs1) as [[out|e] gs2]; [|discriminate]. simpl in Hp.
    destruct (truthy (dict_get "round_end" out)).
    + destruct (advance_player gs2) as [[[]|e] gs3]; [|discriminate].
      intros [= _ <-]. reflexivity.
    + intros [= _ <-]. destruct Hp as (_ & _ & Hro & _). congruence.
Qed.

(** The outcome of a stay carries no round-end flag. *)
Lemma stay_outcome (gs gs' : GameState) (res : pydict) :
  apply_action "stay" gs = (Ok res, gs') ->
  res = [("result", VStr "stayed"); ("banked", VBool true)].
Proof.
  unfold apply_action. monad_unfold. cbv beta iota.
  destruct (negb (existsb (String.eqb "stay") (legal_actions gs))); [discriminate|].
  simpl.
  destruct (_bank_current _) as [[[]|e] gs1]; [|discriminate].
  destruct (advance_player gs1) as [[[]|e] gs2]; [|discriminate].
  intros [= <- _]. reflexivity.
Qed.

Lemma call_val {A : Type} (w : Mcts.world) (l : Mcts.loc) (c : E A)
    (obj : GameState_ Mcts.loc) (d : Flip7Deck) :
  Mcts.gs_heap w !! l = Some obj ->
  Mcts.deck_heap w !! deck obj = Some d ->
  let r := fst (c (with_deck d obj)) in
  let gs' := snd (c (with_deck d obj)) in
  let w' := Mcts.set_deck_heap (<[deck obj := deck gs']> (Mcts.deck_heap w))
              (Mcts.set_gs_heap (<[l := with_deck (deck obj) gs']> (Mcts.gs_heap w)) w) in
  Mcts.call l c w
  = (match r with Ok a => Mcts.Val a | Raise e => Mcts.Exc e end, w')
  /\ Mcts.load_state l w' = (Mcts.Val gs', w').
Proof.
  intros Ho Hd r gs' w'. split.
  - unfold Mcts.call, Mcts.mbind, Mcts.load_state, Mcts.store_state.
    rewrite Ho, Hd. subst r gs' w'.
    destruct (c (with_deck d obj)) as [[a|e] g]; simpl; rewrite Ho; reflexivity.
  - unfold Mcts.load_state, w'. simpl.
    rewrite lookup_insert_eq. simpl. rewrite lookup_insert_eq.
    rewrite with_deck_twice, with_deck_deck. reflexivity.
Qed.

Lemma load_state_inv (w w' : Mcts.world) (l : Mcts.loc) (gs : GameState) :
  Mcts.load_state l w = (Mcts.Val gs, w') ->
  w' = w
  /\ exists obj d,
       Mcts.gs_heap w !! l = Some obj
       /\ Mcts.deck_heap w !! deck obj = Some d
       /\ gs = with_deck d obj.
Proof.
  unfold Mcts.load_state.
  destruct (Mcts.gs_heap w !! l) as [obj|]; [|discriminate].
  destruct (Mcts.deck_heap w !! deck obj) as [d|] eqn:Hd; [|discriminate].
  intros [= <- <-]. split; [reflexivity|]. exists obj, d. auto.
Qed.

Lemma choice_two (w : Mcts.world) (x y : string) :
  exists act g,
    Mcts.choice [x; y] w = (Mcts.Val act, Mcts.set_global_rng g w)
    /\ (act = x \/ act = y)
    /\ g = snd (rng_randbelow (Mcts.global_rng w) 2)
    /\ ((fst (rng_randbelow (Mcts.global_rng w) 2) mod 2 = 1)%nat -> act = y).
Proof.
  unfold Mcts.choice. change (length [x; y]) with 2%nat.
  destruct (rng_randbelow (Mcts.global_rng w) 2) as [k g]. cbn [fst snd].
  exists (nth (k mod 2) [x; y] x), g. split; [reflexivity|].
  assert (Hk : (k mod 2 = 0 \/ k mod 2 = 1)%nat).
  { pose proof (Nat.mod_upper_bound k 2). lia. }
  destruct Hk as [Hk|Hk]; rewrite Hk; cbn [nth]; (split; [auto|]);
    (split; [reflexivity|]); intros H; (reflexivity || discriminate H).
Qed.

(** Where a rollout that returns has stopped. *)
Lemma rollout_exits (st : Mcts.loc) (fuel : nat) :
  forall (hit : bool) (w w' : Mcts.world) (gs0 : GameState) (b : bool),
    Mcts.load_state st w = (Mcts.Val gs0, w) ->
    round_over gs0 = false ->
    Mcts.rollout_loop fuel st hit w = (Mcts.Val b, w') ->
    exists gs',
      Mcts.load_state st w' = (Mcts.Val gs', w')
      /\ (game_over gs' = true
          \/ Flip7Deck_remaining (deck gs') = 0
          \/ exists w1 res,
               Mcts.call st (apply_action "hit") w1 = (Mcts.Val res, w')
               /\ truthy (dict_get "round_end" res) = true).
Proof.
  induction fuel as [|fuel IH]; intros hit w w' gs0 b Hload Hro; simpl;
    [discriminate|].
  rewrite (mbind_val _ _ _ _ _ Hload).
  destruct (game_over gs0) eqn:Hgo; simpl.
  { intros [= <- <-]. exists gs0. auto. }
  destruct (Flip7Deck_remaining (deck gs0) =? 0) eqn:Hrem.
  { intros [= <- <-]. exists gs0. split; [exact Hload|]. right. left. lia. }
  assert (Hw : winner gs0 = None).
  { unfold game_over in Hgo. destruct (winner gs0); [discriminate|reflexivity]. }
  rewrite (legal_actions_open gs0 Hro Hw).
  destruct (choice_two w "hit" "stay") as (act & g & Hch & Hact & _ & _).
  rewrite (mbind_val _ _ _ _ _ Hch).
  set (w1 := Mcts.set_global_rng g w).
  destruct (load_state_inv _ _ _ _ Hload) as (_ & obj & d & Ho & Hd & ->).
  destruct (call_val w1 st (apply_action act) obj d Ho Hd) as [Hcall Hload2].
  cbv zeta in Hcall, Hload2.
  destruct (apply_action act (with_deck d obj)) as [[res|e] gs1] eqn:Happ;
    simpl in Hcall, Hload2.
  - rewrite (mbind_val _ _ _ _ _ Hcall).
    destruct (truthy (dict_get "round_end" res)) eqn:Hre.
    + intros [= <- <-]. exists gs1. split; [exact Hload2|]. right. right.
      destruct Hact as [-> | ->].
      * exists w1, res. auto.
      * rewrite (stay_outcome _ _ _ Happ) in Hre. discriminate.
    + apply (IH _ _ w' gs1 b Hload2).
      eapply apply_action_round_over. exact Happ.
  - unfold Mcts.mbind. rewrite Hcall. discriminate.
Qed.

(** What a stay that returns has done: the line is banked into the active
    player's total, the line is cleared, and the turn has passed on. *)
Lemma stay_inv (gs gs' : GameState) (res : pydict) :
  apply_action "stay" gs = (Ok res, gs') ->
  exists (i : nat) (t : Z),
    py_index (player_totals gs) (current_player gs) = Some i
    /\ player_totals gs !! i = Some t
    /\ num_players gs <> 0
    /\ gs' = mkGameState (num_players gs)
               (<[i := t + banked_amount gs]> (player_totals gs))
               ((current_player gs + 1) mod num_players gs) (deck gs)
               [] 0 false 0 false
               (if t + banked_amount gs >=? 200 then Some (current_player gs)
                else winner gs).
Proof.
  intros H.
  assert (Hl : legal_actions gs <> []).
  { intros E. unfold apply_action in H. unfold ebind at 1 in H.
    unfold eget at 1 in H. rewrite E in H. discriminate. }
  destruct (py_index (player_totals gs) (current_player gs)) as [i|] eqn:Hi.
  - destruct (py_index_lookup _ _ _ Hi) as [t Ht].
    destruct (Z.eq_dec (num_players gs) 0) as [Hn|Hn].
    + exfalso. destruct (legal_actions_inv gs Hl) as [Hr Hw].
      unfold apply_action in H. monad_unfold. cbv beta iota in H.
      rewrite (legal_actions_open gs Hr Hw) in H. simpl in H.
      match type of H with context [_bank_current ?g] =>
        rewrite (bank_current_ok g i t) in H by (simpl; assumption) end.
      unfold advance_player in H. monad_unfold. simpl in H.
      rewrite Hn in H. simpl in H. discriminate.
    + exists i, t. split; [reflexivity|]. split; [exact Ht|]. split; [exact Hn|].
      rewrite (stay_ok gs i t Hl Hn Hi Ht) in H. injection H as _ <-.
      reflexivity.
  - exfalso. destruct (legal_actions_inv gs Hl) as [Hr Hw].
    unfold apply_action in H. monad_unfold. cbv beta iota in H.
    rewrite (legal_actions_open gs Hr Hw) in H. simpl in H.
    unfold _bank_current, add_to_current_total in H. monad_unfold.
    simpl in H. rewrite Hi in H. discriminate.
Qed.

(** [C9] [apply_action('stay')], when it returns, returns exactly
    [{'result': 'stayed', 'banked': True}], with no round-end flag, and it
    has ended the round: the line is banked into the active player's
    total and cleared, and the turn has passed to the next player. So an
    iteration of the rollout loop that picks stay is always followed by
    the next iteration, on that state; unless the bank has finished the
    game, that iteration draws the next random action and applies it for
    the next player. A rollout that returns has stopped because the game
    is over, the deck is empty, or a hit has come back with the round-end
    flag. *)
Theorem C9_stay_does_not_stop_rollout :
  (forall (gs gs' : GameState) (res : pydict),
      apply_action "stay" gs = (Ok res, gs') ->
      res = [("result", VStr "stayed"); ("banked", VBool true)]
      /\ dict_get "round_end" res = None
      /\ truthy (dict_get "round_end" res) = false)
  /\ (forall (fuel : nat) (st : Mcts.loc) (hit : bool) (w : Mcts.world)
        (gs gs' : GameState) (res : pydict),
        Mcts.load_state st w = (Mcts.Val gs, w) ->
        game_over gs = false ->
        Flip7Deck_remaining (deck gs) <> 0 ->
        round_over gs = false ->
        (fst (rng_randbelow (Mcts.global_rng w) 2) mod 2 = 1)%nat ->
        apply_action "stay" gs = (Ok res, gs') ->
        exists (w2 : Mcts.world) (i : nat) (t : Z),
          py_index (player_totals gs) (current_player gs) = Some i
          /\ player_totals gs !! i = Some t
          /\ num_players gs <> 0
          /\ gs' = mkGameState (num_players gs)
                     (<[i := t + banked_amount gs]> (player_totals gs))
                     ((current_player gs + 1) mod num_players gs) (deck gs)
                     [] 0 false 0 false
                     (if t + banked_amount gs >=? 200
                      then Some (current_player gs) else winner gs)
          /\ Mcts.rollout_loop (S fuel) st hit w = Mcts.rollout_loop fuel st hit w2
          /\ Mcts.load_state st w2 = (Mcts.Val gs', w2)
          /\ (game_over gs' = false ->
              forall fuel' : nat,
                Mcts.rollout_loop (S fuel') st hit w2
                = Mcts.mbind (Mcts.choice ["hit"; "stay"]) (fun act =>
                    Mcts.mbind (Mcts.call st (apply_action act)) (fun out =>
                      let hit' := if Mcts.result_is_flip7 out then true else hit in
                      if truthy (dict_get "round_end" out) then Mcts.mret hit'
                      else Mcts.rollout_loop fuel' st hit')) w2))
  /\ (forall (fuel : nat) (st : Mcts.loc) (hit : bool) (w w' : Mcts.world)
        (gs0 : GameState) (b : bool),
        Mcts.load_state st w = (Mcts.Val gs0, w) ->
        round_over gs0 = false ->
        Mcts.rollout_loop fuel st hit w = (Mcts.Val b, w') ->
        exists gs',
          Mcts.load_state st w' = (Mcts.Val gs', w')
          /\ (game_over gs' = true
              \/ Flip7Deck_remaining (deck gs') = 0
              \/ exists w1 res,
                   Mcts.call st (apply_action "hit") w1 = (Mcts.Val res, w')
                   /\ truthy (dict_get "round_end" res) = true)).
Proof.
  split; [|split].
  - intros gs gs' res H. rewrite (stay_outcome gs gs' res H). auto.
  - intros fuel st hit w gs gs' res Hload Hgo Hrem Hro Hk Happ.
    destruct (stay_inv gs gs' res Happ) as (i & t & Hi & Ht & Hn & Hgs').
    destruct (choice_two w "hit" "stay") as (act & g & Hch & _ & _ & Hstay).
    specialize (Hstay Hk). subst act.
    destruct (load_state_inv _ _ _ _ Hload) as (_ & obj & d & Ho & Hd & Hgs).
    destruct (call_val (Mcts.set_global_rng g w) st (apply_action "stay") obj d Ho Hd)
      as [Hcall Hload2].
    cbv zeta in Hcall, Hload2. rewrite <- Hgs in Hcall, Hload2.
    rewrite Happ in Hcall, Hload2. simpl in Hcall, Hload2.
    eexists _, i, t. split; [exact Hi|]. split; [exact Ht|]. split; [exact Hn|].
    split; [exact Hgs'|].
    assert (Hw : winner gs = None).
    { unfold game_over in Hgo. destruct (winner gs); [discriminate|reflexivity]. }
    assert (E : (Flip7Deck_remaining (deck gs) =? 0) = false)
      by (apply Z.eqb_neq; exact Hrem).
    split; [|split; [exact Hload2|]].
    + cbn [Mcts.rollout_loop]. rewrite (mbind_val _ _ _ _ _ Hload).
      rewrite Hgo, E. cbn [orb].
      rewrite (legal_actions_open _ Hro Hw).
      rewrite (mbind_val _ _ _ _ _ Hch).
      rewrite (mbind_val _ _ _ _ _ Hcall).
      rewrite (stay_outcome _ _ _ Happ). reflexivity.
    + intros Hgo' fuel'.
      assert (Hw' : winner gs' = None).
      { unfold game_over in Hgo'. destruct (winner gs'); [discriminate|reflexivity]. }
      assert (Hro' : round_over gs' = false) by (rewrite Hgs'; reflexivity).
      assert (E' : (Flip7Deck_remaining (deck gs') =? 0) = false)
        by (rewrite Hgs'; exact E).
      cbn [Mcts.rollout_loop]. rewrite (mbind_val _ _ _ _ _ Hload2).
      rewrite Hgo', E'. cbn [orb].
      rewrite (legal_actions_open _ Hro' Hw'). reflexivity.
  - intros fuel st hit w w' gs0 b. apply rollout_exits.
Qed.

End Rollout.

(** An instance: the line 3, 4 under a multiplier with a modifier of 5,
    the totals 30 and 10, and a generator whose first choice is stay. The
    stay banks 19 for the first player and hands the turn to the second;
    the rollout goes on from there. *)
Lemma C9_stay_does_not_stop_rollout_witness :
  fst (apply_action "stay" ex_about_to_bust)
  = Ok [("result", VStr "stayed"); ("banked", VBool true)]
  /\ exists w2,
       Mcts.rollout_loop 4 1%positive false ex_world_bust
       = Mcts.rollout_loop 3 1%positive false w2
       /\ Mcts.load_state 1%positive w2
          = (Mcts.Val (mkGameState 2 [49; 10] 1 (deck ex_about_to_bust)
                         [] 0 false 0 false None), w2).
Proof.
  assert (Happ : apply_action "stay" ex_about_to_bust
                 = (Ok [("result", VStr "stayed"); ("banked", VBool true)],
                    mkGameState 2 [49; 10] 1 (deck ex_about_to_bust)
                      [] 0 false 0 false None)) by reflexivity.
  split; [rewrite Happ; reflexivity|].
  destruct (@C9_stay_does_not_stop_rollout lcg_runtime) as (_ & Hcont & _).
  destruct (Hcont 3%nat 1%positive false ex_world_bust ex_about_to_bust _ _
              eq_refl eq_refl ltac:(discriminate) eq_refl eq_refl Happ)
    as (w2 & i & t & _ & _ & _ & _ & Hloop & Hload & _).
  exists w2. split; [exact Hloop|exact Hload].
Defined.

(** ** Invariants kept by a draw and by an action *)

Section Keeps.
Context `{RT : PyRuntime}.
Variable I : GameState -> Prop.
Variable Q : Card -> Prop.

Hypothesis keeps_draw :
  forall gs c rest,
    I gs -> cards (deck gs) = c :: rest ->
    Q c /\ I (with_deck (mkDeck (rng (deck gs)) rest) gs).
Hypothesis keeps_leaf :
  forall card gs,
    is_flip_three card = false -> Q card -> I gs ->
    I (snd (process_draw_depth 1 card gs)).

Lemma flip_three_loop_keeps (process : Card -> E pydict) (card : Card) :
  (forall c gs, Q c -> I gs -> I (snd (process c gs))) ->
  forall (n : nat) (draws : list Card) (gs : GameState),
    I gs -> I (snd (flip_three_loop process card n draws gs)).
Proof.
  intros Hp. induction n as [|n IH]; intros draws gs Hgs; simpl; [exact Hgs|].
  monad_unfold. cbv beta iota.
  destruct (Flip7Deck_remaining (deck gs) =? 0) eqn:Hrem; [exact Hgs|].
  destruct (draw_nonempty gs Hrem) as (c & rest & Hc).
  rewrite (draw_cons gs c rest Hc).
  destruct (keeps_draw gs c rest Hgs Hc) as [Hq H1].
  pose proof (Hp c _ Hq H1) as H2.
  destruct (process c (with_deck (mkDeck (rng (deck gs)) rest) gs))
    as [[res|e] gs2]; simpl in H2; [|exact H2].
  destruct (truthy (dict_get "round_end" res)); [exact H2|].
  apply IH. exact H2.
Qed.

Lemma process_draw_depth_keeps (depth : nat) :
  forall (card : Card) (gs : GameState),
    Q card -> I gs -> I (snd (process_draw_depth depth card gs)).
Proof.
  induction depth as [|d IH]; intros card gs Hq Hgs; [exact Hgs|].
  rewrite process_draw_unfold.
  destruct (is_flip_three card) eqn:Hf.
  - apply flip_three_loop_keeps; [exact IH|exact Hgs].
  - apply keeps_leaf; assumption.
Qed.

Hypothesis keeps_round_over :
  forall gs b, I gs -> I (snd (set_round_over b gs)).
Hypothesis keeps_bank : forall gs, I gs -> I (snd (_bank_current gs)).
Hypothesis keeps_advance : forall gs, I gs -> I (snd (advance_player gs)).

Lemma apply_action_keeps (a : string) (gs : GameState) :
  I gs -> I (snd (apply_action a gs)).
Proof.
  intros Hgs. unfold apply_action.
  unfold ebind at 1. unfold eget at 1.
  destruct (negb (existsb (String.eqb a) (legal_actions gs))); [exact Hgs|].
  unfold ebind at 1.
  pose proof (keeps_round_over gs false Hgs) as H0.
  destruct (set_round_over false gs) as [[[]|e] g0] eqn:E0;
    [|unfold set_round_over, emodify in E0; discriminate].
  simpl in H0.
  destruct (String.eqb a "stay").
  - unfold ebind at 1. pose proof (keeps_bank g0 H0) as H1.
    destruct (_bank_current g0) as [[[]|e] g1]; simpl in H1; [|exact H1].
    unfold ebind at 1. pose proof (keeps_advance g1 H1) as H2.
    destruct (advance_player g1) as [[[]|e] g2]; simpl in H2; [|exact H2].
    unfold ebind at 1. pose proof (keeps_round_over g2 false H2) as H3.
    destruct (set_round_over false g2) as [[[]|e] g3]; exact H3.
  - unfold ebind at 1. unfold draw at 1. unfold Flip7Deck_draw.
    destruct (cards (deck g0)) as [|c rest] eqn:Hc.
    { simpl. destruct g0; exact H0. }
    destruct (keeps_draw g0 c rest H0 Hc) as [Hq H1].
    set (g1 := with_deck (mkDeck (rng (deck g0)) rest) g0) in *.
    unfold ebind at 1.
    pose proof (process_draw_depth_keeps (S (length (cards (deck g1)))) c g1 Hq H1) as H2.
    fold (_process_draw c g1) in H2.
    destruct (_process_draw c g1) as [[res|e] g2]; simpl in H2; [|exact H2].
    destruct (truthy (dict_get "round_end" res)); [|exact H2].
    unfold ebind at 1. pose proof (keeps_advance g2 H2) as H3.
    destruct (advance_player g2) as [[[]|e] g3]; simpl in H3; [|exact H3].
    unfold ebind at 1. pose proof (keeps_round_over g3 false H3) as H4.
    destruct (set_round_over false g3) as [[[]|e] g4]; exact H4.
Qed.

End Keeps.

(** ** One card at a time *)

Section CardStep.
Context `{RT : PyRuntime}.

Lemma with_line_same (gs : GameState) :
  with_line (current_numbers gs) (flat_modifiers gs) (x2 gs)
    (second_chance_count gs) gs = gs.
Proof. destruct gs. reflexivity. Qed.

Lemma bank_current_raise (gs : GameState) :
  py_index (player_totals gs) (current_player gs) = None ->
  _bank_current gs = (Raise IndexError, gs).
Proof.
  intros Hi. unfold _bank_current, add_to_current_total. monad_unfold.
  cbv beta iota. rewrite Hi. reflexivity.
Qed.

Lemma process_leaf_step (card : Card) (gs : GameState) :
  is_flip_three card = false ->
  card_step card gs (snd (process_draw_depth 1 card gs)).
Proof.
  intros Hf. unfold is_flip_three in Hf.
  destruct (String.eqb (kind card) "number") eqn:Ek1.
  { apply String.eqb_eq in Ek1.
    destruct (value card) as [v|] eqn:Hv;
      [|simpl; rewrite Ek1, Hv; simpl; constructor].
    destruct (py_in v (current_numbers gs)) eqn:Hin.
    - simpl. rewrite Ek1, Hv. simpl. monad_unfold. cbv beta iota. rewrite Hin.
      destruct (second_chance_count gs >? 0) eqn:Hsc; simpl.
      + apply (card_discard card gs v); [assumption..|lia].
      + unfold reset_line. monad_unfold. simpl.
        apply (card_bust card gs v); [assumption..|lia].
    - destruct (Z_lt_ge_dec (distinct_count (current_numbers gs ++ [v])) 7) as [Hlt|Hge].
      + simpl. rewrite Ek1, Hv. simpl. monad_unfold. cbv beta iota. rewrite Hin.
        simpl.
        destruct (distinct_count (current_numbers gs ++ [v]) >=? 7) eqn:E; [lia|].
        simpl. apply (card_added card gs v); auto.
      + destruct (py_index (player_totals gs) (current_player gs)) as [i|] eqn:Hi.
        * destruct (py_index_lookup _ _ _ Hi) as [t Ht].
          rewrite (flip7_ok gs i t 0 card v Ek1 Hv Hin ltac:(lia) Hi Ht). simpl.
          apply (card_flip7 card gs v i t); auto. lia.
        * simpl. rewrite Ek1, Hv. simpl. monad_unfold. cbv beta iota. rewrite Hin.
          simpl.
          destruct (distinct_count (current_numbers gs ++ [v]) >=? 7) eqn:E; [|lia].
          unfold add_to_current_total. monad_unfold. simpl. rewrite Hi. simpl.
          apply (card_added card gs v); auto. }
  destruct (String.eqb (kind card) "modifier") eqn:Ek2.
  { simpl. rewrite Ek1, Ek2.
    destruct (value card) as [m|] eqn:Hv; [|simpl; constructor].
    monad_unfold. simpl. apply (card_modifier card gs m). exact Hv. }
  destruct (String.eqb (kind card) "mult") eqn:Ek3.
  { simpl. rewrite Ek1, Ek2, Ek3. monad_unfold. simpl. apply card_mult. }
  destruct (String.eqb (kind card) "action") eqn:Ek4;
    [|simpl; rewrite Ek1, Ek2, Ek3, Ek4; simpl; constructor].
  simpl in Hf.
  destruct (name card) as [s|] eqn:Hn;
    [|simpl; rewrite Ek1, Ek2, Ek3, Ek4, Hn; simpl; constructor].
  destruct (String.eqb s "Freeze") eqn:Efz.
  { apply String.eqb_eq in Efz, Ek4. subst s.
    destruct (py_index (player_totals gs) (current_player gs)) as [i|] eqn:Hi.
    - destruct (py_index_lookup _ _ _ Hi) as [t Ht].
      rewrite (freeze_ok gs i t 0 card Ek4 Hn Hi Ht). simpl.
      apply (card_freeze card gs i t); assumption.
    - simpl. rewrite Ek4, Hn. simpl. monad_unfold. cbv beta iota.
      rewrite (bank_current_raise gs Hi). simpl. constructor. }
  simpl. rewrite Ek1, Ek2, Ek3, Ek4, Hn. simpl. rewrite Efz, Hf.
  destruct (String.eqb s "SecondChance").
  - monad_unfold. simpl. apply card_second.
  - simpl. constructor.
Qed.

End CardStep.

(** An invariant kept by every single card is kept by [apply_action]. *)
Section StepKeeps.
Context `{RT : PyRuntime}.
Variable I : GameState -> Prop.
Variable Q : Card -> Prop.

Hypothesis keeps_deck :
  forall gs c rest,
    I gs -> cards (deck gs) = c :: rest ->
    Q c /\ I (with_deck (mkDeck (rng (deck gs)) rest) gs).
Hypothesis keeps_step :
  forall card gs gs', Q card -> I gs -> card_step card gs gs' -> I gs'.
Hypothesis keeps_banked :
  forall gs i t,
    I gs -> py_index (player_totals gs) (current_player gs) = Some i ->
    player_totals gs !! i = Some t -> I (banked_state gs i t).
Hypothesis keeps_flag :
  forall gs b, I gs -> I (snd (set_round_over b gs)).
Hypothesis keeps_turn :
  forall gs, I gs -> num_players gs <> 0 ->
    I (snd (set_current_player ((current_player gs + 1) mod num_players gs) gs)).

Lemma bank_current_keeps (gs : GameState) : I gs -> I (snd (_bank_current gs)).
Proof.
  intros Hgs.
  destruct (py_index (player_totals gs) (current_player gs)) as [i|] eqn:Hi.
  - destruct (py_index_lookup _ _ _ Hi) as [t Ht].
    rewrite (bank_current_ok gs i t Hi Ht). simpl. eauto.
  - rewrite (bank_current_raise gs Hi). exact Hgs.
Qed.

Lemma advance_player_keeps (gs : GameState) : I gs -> I (snd (advance_player gs)).
Proof.
  intros Hgs. unfold advance_player. unfold ebind, eget.
  destruct (num_players gs =? 0) eqn:E; [exact Hgs|].
  apply keeps_turn; [exact Hgs|lia].
Qed.

Lemma apply_action_steps (a : string) (gs : GameState) :
  I gs -> I (snd (apply_action a gs)).
Proof.
  apply (apply_action_keeps I Q keeps_deck).
  - intros card g Hf Hq Hg. eapply keeps_step; eauto using process_leaf_step.
  - exact keeps_flag.
  - exact bank_current_keeps.
  - exact advance_player_keeps.
Qed.

Lemma process_draw_steps (card : Card) (gs : GameState) :
  Q card -> I gs -> I (snd (_process_draw card gs)).
Proof.
  intros Hq Hgs. unfold _process_draw.
  apply (process_draw_depth_keeps I Q keeps_deck); auto.
  intros c g Hf Hc Hg. eapply keeps_step; eauto using process_leaf_step.
Qed.

End StepKeeps.

(** ** Deck round trip and rejected calls *)

Section Edges.
Context `{RT : PyRuntime}.

(** [X1] After [set_deck(cs)] the deck holds exactly [cs] and keeps its
    generator; the next [draw] hands out the first card of [cs] and leaves
    the state that [set_deck] of the remaining cards would have built, and
    on an empty [cs] it raises IndexError and changes nothing. *)
Theorem X1_set_deck_then_draw (gs : GameState) (cs : list Card) :
  Flip7Deck_remaining (deck (snd (set_deck cs gs))) = Z.of_nat (length cs)
  /\ rng (deck (snd (set_deck cs gs))) = rng (deck gs)
  /\ draw (snd (set_deck cs gs))
     = match cs with
       | [] => (Raise IndexError, snd (set_deck cs gs))
       | c :: rest => (Ok c, snd (set_deck rest gs))
       end.
Proof.
  unfold set_deck, Flip7Deck_set_cards, Flip7Deck_remaining. monad_unfold.
  simpl. repeat split.
  destruct cs as [|c rest]; unfold draw, Flip7Deck_draw; reflexivity.
Qed.

(** [X2] When hit is legal and the card on top of the deck is a number the
    line already holds, one second-chance token absorbs it: the outcome is
    "duplicate_discarded" without a round-end flag, one token is spent, the
    card leaves the deck, and the line, the totals and the turn stay. *)
Theorem X2_second_chance_absorbs_duplicate (gs : GameState) (card : Card) (v : Z)
    (rest : list Card) :
  legal_actions gs <> [] ->
  cards (deck gs) = card :: rest ->
  kind card = "number" ->
  value card = Some v ->
  py_in v (current_numbers gs) = true ->
  0 < second_chance_count gs ->
  apply_action "hit" gs
  = (Ok [("result", VStr "duplicate_discarded"); ("card", VCard card)],
     with_line (current_numbers gs) (flat_modifiers gs) (x2 gs)
       (second_chance_count gs - 1)
       (with_deck (mkDeck (rng (deck gs)) rest) gs)).
Proof.
  intros Hl Hd Hk Hv Hin Hsc. destruct (legal_actions_inv gs Hl) as [Hr Hw].
  unfold apply_action. monad_unfold. cbv beta iota.
  rewrite (legal_actions_open gs Hr Hw). simpl.
  match goal with |- context [draw ?g] =>
    rewrite (draw_cons g card rest) by (simpl; assumption) end.
  unfold _process_draw. simpl. rewrite Hk, Hv. simpl.
  monad_unfold. simpl. rewrite Hin.
  destruct (second_chance_count gs >? 0) eqn:E; [|lia].
  simpl. unfold with_line. simpl. rewrite Hr. reflexivity.
Qed.

(** [X3] An action label other than "hit" and "stay" is rejected with
    ValueError in every state, and the state is left as it was. *)
Theorem X3_unknown_label_rejected (gs : GameState) (a : string) :
  a <> "hit" -> a <> "stay" ->
  apply_action a gs = (Raise ValueError, gs).
Proof.
  intros Hh Hs. unfold apply_action, legal_actions. monad_unfold. cbv beta iota.
  apply String.eqb_neq in Hh, Hs.
  destruct (round_over gs || match winner gs with Some _ => true | None => false end);
    simpl; [reflexivity|].
  rewrite Hh, Hs. reflexivity.
Qed.

(** [X4] A legal hit on an empty deck raises IndexError and leaves the
    state as it was: the engine neither reshuffles nor refills the deck. *)
Theorem X4_hit_on_empty_deck (gs : GameState) :
  legal_actions gs <> [] ->
  cards (deck gs) = [] ->
  apply_action "hit" gs = (Raise IndexError, gs).
Proof.
  intros Hl Hd. destruct (legal_actions_inv gs Hl) as [Hr Hw].
  unfold apply_action. monad_unfold. cbv beta iota.
  rewrite (legal_actions_open gs Hr Hw). simpl.
  unfold draw, Flip7Deck_draw. simpl. rewrite Hd. simpl.
  destruct gs; simpl in *. subst. reflexivity.
Qed.

End Edges.

(** A 4 on the line 3, 4 with one token in hand: the 4 is discarded. *)
Lemma X2_second_chance_absorbs_duplicate_witness :
  apply_action "hit" ex_second_chance
  = (Ok [("result", VStr "duplicate_discarded"); ("card", VCard (Card_number 4))],
     with_line [3; 4] 5 true 0
       (with_deck (@mkDeck lcg_runtime 0 [Card_number 9]) ex_second_chance)).
Proof.
  apply (X2_second_chance_absorbs_duplicate ex_second_chance (Card_number 4) 4
           [Card_number 9]); try reflexivity.
  discriminate.
Defined.

Lemma X3_unknown_label_rejected_witness :
  apply_action "pass" ex_line_3_4 = (Raise ValueError, ex_line_3_4).
Proof. apply (X3_unknown_label_rejected ex_line_3_4 "pass"); discriminate. Defined.

Lemma X4_hit_on_empty_deck_witness :
  apply_action "hit" ex_line_3_4 = (Raise IndexError, ex_line_3_4).
Proof.
  apply (X4_hit_on_empty_deck ex_line_3_4); [discriminate|reflexivity].
Defined.

(** ** The line between two actions *)

Section LineInvariant.
Context `{RT : PyRuntime}.

Lemma players_index (gs : GameState) :
  players_ok gs -> 0 < num_players gs ->
  exists (i : nat) (t : Z),
    py_index (player_totals gs) (current_player gs) = Some i
    /\ player_totals gs !! i = Some t.
Proof.
  intros [Hlen Hcur] Hpos. specialize (Hcur Hpos).
  assert (Hi : py_index (player_totals gs) (current_player gs)
               = Some (Z.to_nat (current_player gs))).
  { unfold py_index. rewrite Hlen, Z2Nat.id by lia.
    destruct (Z.leb_spec 0 (current_player gs)); [|lia].
    destruct (Z.ltb_spec (current_player gs) (num_players gs)); [|lia].
    reflexivity. }
  destruct (py_index_lookup _ _ _ Hi) as [t Ht]. eauto.
Qed.

Lemma py_in_false (v : Z) (l : list Z) : py_in v l = false -> ~ In v l.
Proof.
  unfold py_in. intros H Hin.
  assert (existsb (Z.eqb v) l = true); [|congruence].
  apply existsb_exists. exists v. split; [exact Hin|apply Z.eqb_refl].
Qed.

Lemma NoDup_snoc (v : Z) (l : list Z) : NoDup l -> ~ In v l -> NoDup (l ++ [v]).
Proof.
  intros Hl Hv. apply NoDup_app; repeat split; auto.
  - intros x Hx Hx'. apply list_elem_of_In in Hx, Hx'.
    destruct Hx' as [<-|[]]. auto.
  - apply NoDup_singleton.
Qed.

Lemma distinct_count_NoDup (l : list Z) :
  NoDup l -> distinct_count l = Z.of_nat (length l).
Proof.
  intros H. unfold distinct_count.
  rewrite List.nodup_fixed_point; [reflexivity|].
  apply NoDup_ListNoDup. exact H.
Qed.

Lemma seated_frame (gs gs' : GameState) :
  seated gs ->
  num_players gs' = num_players gs ->
  current_player gs' = current_player gs ->
  length (player_totals gs') = length (player_totals gs) ->
  seated gs'.
Proof.
  unfold seated, players_ok. intros [[Hl Hc] Hp] -> -> ->. auto.
Qed.

Lemma card_step_seated (card : Card) (gs gs' : GameState) :
  seated gs -> card_step card gs gs' -> seated gs'.
Proof.
  intros Hs Hstep.
  destruct Hstep; try exact Hs;
    (eapply seated_frame; [exact Hs|simpl; try reflexivity..]);
    apply length_insert.
Qed.

Lemma seated_turn (gs : GameState) :
  seated gs ->
  seated (snd (set_current_player ((current_player gs + 1) mod num_players gs) gs)).
Proof.
  unfold seated, players_ok. intros [[Hl Hc] Hp]. simpl.
  repeat split; try assumption; apply Z.mod_pos_bound; assumption.
Qed.

Lemma card_step_line (card : Card) (gs gs' : GameState) :
  seated gs -> line_ok gs -> card_step card gs gs' -> line_ok gs'.
Proof.
  intros Hs (Hnd & Hlen & Hsc) Hstep. unfold line_ok.
  destruct Hstep; simpl; try (repeat split; first [assumption|lia|constructor]).
  - (* a number joins the line *)
    assert (Hnd' : NoDup (current_numbers gs ++ [v]))
      by (apply NoDup_snoc; [assumption|apply py_in_false; assumption]).
    repeat split; try assumption.
    match goal with H : _ \/ _ |- _ => destruct H as [Hd|Hnone] end.
    + rewrite (distinct_count_NoDup _ Hnd') in Hd. lia.
    + destruct Hs as [Hp Hpos].
      destruct (players_index gs Hp Hpos) as (i & t & Hi & _). congruence.
Qed.

Lemma reachable_line (gs : GameState) :
  reachable gs -> 0 < num_players gs -> seated gs /\ line_ok gs.
Proof.
  induction 1 as [n d seed env gs Hinit | gs a Hr IH | gs cs Hr IH]; intros Hpos.
  - split; [split; [|exact Hpos]|].
    + apply reachable_inv. econstructor; eassumption.
    + unfold GameState_init in Hinit.
      destruct (match d with Some d0 => Ok d0 | None => Flip7Deck_init seed env end)
        as [d0|e]; [|discriminate].
      injection Hinit as <-. unfold line_ok. simpl.
      repeat split; [constructor|simpl; lia|lia].
  - assert (Hn : num_players (snd (apply_action a gs)) = num_players gs)
      by (destruct (apply_action_turn a gs) as [Hn _]; exact Hn).
    rewrite Hn in Hpos. specialize (IH Hpos).
    apply (apply_action_steps (fun g => seated g /\ line_ok g) (fun _ => True));
      try exact IH.
    + intros g c rest Hg _. split; [exact I|exact Hg].
    + intros card g g' _ [Hs Hl] Hstep.
      split; [eapply card_step_seated|eapply card_step_line]; eassumption.
    + intros g i t [Hs Hl] Hi Ht. split.
      * eapply seated_frame; [exact Hs|simpl; try reflexivity..].
        apply length_insert.
      * unfold line_ok. simpl. repeat split; [constructor|simpl; lia|lia].
    + intros g b Hg. exact Hg.
    + intros g [Hs Hl] _. split; [apply seated_turn; exact Hs|exact Hl].
  - unfold set_deck in *. monad_unfold. simpl in *. exact (IH Hpos).
Qed.

Lemma played_reachable (gs : GameState) : played gs -> reachable gs.
Proof.
  induction 1 as [n d seed env gs Hinit _ | gs a _ IH | gs cs _ IH _].
  - econstructor. exact Hinit.
  - apply reach_action. exact IH.
  - apply reach_set_deck. exact IH.
Qed.

(** The deck of such a game holds typed cards at every moment. *)
Lemma played_typed (gs : GameState) :
  played gs -> Forall card_typed (cards (deck gs)).
Proof.
  induction 1 as [n d seed env gs Hinit Hd | gs a _ IH | gs cs _ IH Hcs].
  - exact Hd.
  - apply (apply_action_steps (fun g => Forall card_typed (cards (deck g)))
             (fun _ => True)); try exact IH.
    + intros g c rest Hg Hc. split; [exact I|]. simpl. rewrite Hc in Hg.
      apply Forall_cons_1 in Hg as [_ Hg]. exact Hg.
    + intros card g g' _ Hg Hstep. destruct Hstep; exact Hg.
    + intros g i t Hg _ _. exact Hg.
    + intros g b Hg. exact Hg.
    + intros g Hg _. exact Hg.
  - unfold set_deck. monad_unfold. simpl. exact Hcs.
Qed.

Lemma card_typed_check (l : list Card) :
  forallb card_typedb l = true -> Forall card_typed l.
Proof.
  intros H. apply Forall_forall. intros c Hc.
  apply list_elem_of_In in Hc.
  pose proof (proj1 (forallb_forall _ _) H c Hc) as Hb.
  unfold card_typedb in Hb. intros [Hk|Hk] Hv; rewrite Hk, Hv in Hb;
    discriminate.
Qed.

(** [X5] In every state of a game with at least one player whose decks
    hold typed cards only (every number and modifier card carries its
    value), the line holds no number twice and fewer than seven numbers,
    the count of second-chance tokens is not negative, and the deck still
    holds typed cards only: the seventh different number banks and clears
    the line within the same call. *)
Theorem X5_line_invariant (gs : GameState) :
  played gs -> 0 < num_players gs ->
  line_ok gs /\ Forall card_typed (cards (deck gs)).
Proof.
  intros Hp Hpos. split; [|apply played_typed; exact Hp].
  apply reachable_line; [apply played_reachable; exact Hp|exact Hpos].
Qed.

End LineInvariant.

Lemma X5_line_invariant_witness :
  line_ok ex_short_game_end
  /\ Forall card_typed (cards (deck ex_short_game_end)).
Proof.
  apply X5_line_invariant; [|reflexivity].
  unfold ex_short_game_end.
  destruct ex_short_game_start as [g|e] eqn:Hs; [|discriminate Hs].
  apply played_action, played_action.
  apply (played_init 2 (Some (@mkDeck lcg_runtime 0 [Card_number 200])) (Some 1) 0 g Hs).
  unfold ex_short_game_start, GameState_init in Hs. injection Hs as <-.
  apply card_typed_check. reflexivity.
Defined.

(** ** The round flag between two actions *)

Section RoundFlag.
Context `{RT : PyRuntime}.

Lemma apply_action_flag (a : string) (gs : GameState) :
  seated gs -> round_over gs = false ->
  round_over (snd (apply_action a gs)) = false.
Proof.
  intros [Hp Hpos] Hr.
  destruct (winner gs) as [q|] eqn:Hw.
  { destruct (terminal_rejects gs a) as [_ ->]; [congruence|exact Hr]. }
  assert (Hl : legal_actions gs <> [])
    by (rewrite (legal_actions_open gs Hr Hw); discriminate).
  destruct (players_index gs Hp Hpos) as (i & t & Hi & Ht).
  destruct (String.eqb a "stay") eqn:Ea.
  { apply String.eqb_eq in Ea. subst a.
    rewrite (stay_ok gs i t Hl ltac:(lia) Hi Ht). reflexivity. }
  unfold apply_action. unfold ebind at 1. unfold eget at 1.
  destruct (negb (existsb (String.eqb a) (legal_actions gs))); [exact Hr|].
  unfold ebind at 1. unfold set_round_over at 1. unfold emodify at 1.
  rewrite Ea.
  match goal with |- context [ebind draw _ ?g] => set (g0 := g) end.
  unfold ebind at 1. unfold draw at 1. unfold Flip7Deck_draw.
  destruct (cards (deck g0)) as [|c rest] eqn:Hc; [reflexivity|].
  set (g1 := with_deck (mkDeck (rng (deck g0)) rest) g0).
  unfold ebind at 1.
  pose proof (process_draw_post c g1) as Hpost. unfold draw_post in Hpost.
  destruct (_process_draw c g1) as [[res|e] g2]; simpl in Hpost.
  - destruct (truthy (dict_get "round_end" res)).
    + destruct Hpost as ((Hn & _) & _).
      assert (Hn2 : num_players g2 <> 0) by (rewrite Hn; simpl; lia).
      unfold advance_player. monad_unfold.
      destruct (num_players g2 =? 0) eqn:E; [lia|]. reflexivity.
    + destruct Hpost as (_ & _ & Hro & _). simpl. rewrite Hro. reflexivity.
  - destruct Hpost as (_ & _ & _ & Hro & _). simpl. rewrite Hro. reflexivity.
Qed.

Lemma reachable_flag (gs : GameState) :
  reachable gs -> 0 < num_players gs -> round_over gs = false.
Proof.
  induction 1 as [n d seed env gs Hinit | gs a Hr IH | gs cs Hr IH]; intros Hpos.
  - unfold GameState_init in Hinit.
    destruct (match d with Some d0 => Ok d0 | None => Flip7Deck_init seed env end)
      as [d0|e]; [|discriminate].
    injection Hinit as <-. reflexivity.
  - assert (Hn : num_players (snd (apply_action a gs)) = num_players gs)
      by (destruct (apply_action_turn a gs) as [Hn _]; exact Hn).
    rewrite Hn in Hpos.
    apply apply_action_flag; [|exact (IH Hpos)].
    apply reachable_line; assumption.
  - unfold set_deck in *. monad_unfold. simpl in *. exact (IH Hpos).
Qed.

(** [X6] In every reachable state of a game with at least one player the
    round flag is down: [apply_action] lowers it again before it returns,
    so the list of legal actions is empty exactly when the game is over. *)
Theorem X6_round_flag_down (gs : GameState) :
  reachable gs -> 0 < num_players gs ->
  round_over gs = false
  /\ (legal_actions gs = [] <-> game_over gs = true).
Proof.
  intros Hr Hpos. pose proof (reachable_flag gs Hr Hpos) as Hflag.
  split; [exact Hflag|].
  unfold legal_actions, game_over. rewrite Hflag. simpl.
  destruct (winner gs); split; intros H; congruence.
Qed.

End RoundFlag.

Lemma X6_round_flag_down_witness :
  round_over ex_short_game_end = false
  /\ (legal_actions ex_short_game_end = [] <-> game_over ex_short_game_end = true).
Proof.
  apply X6_round_flag_down; [|reflexivity].
  unfold ex_short_game_end.
  destruct ex_short_game_start as [g|e] eqn:Hs; [|discriminate Hs].
  apply reach_action, reach_action.
  exact (reach_init 2 (Some (@mkDeck lcg_runtime 0 [Card_number 200])) (Some 1) 0 g Hs).
Defined.

(** ** The deck during play *)

Section DeckShrinks.
Context `{RT : PyRuntime}.

Lemma card_step_deck (card : Card) (gs gs' : GameState) :
  card_step card gs gs' -> deck gs' = deck gs.
Proof. intros H. destruct H; reflexivity. Qed.

Lemma apply_action_suffix (a : string) (gs : GameState) :
  cards (deck (snd (apply_action a gs))) `suffix_of` cards (deck gs)
  /\ rng (deck (snd (apply_action a gs))) = rng (deck gs).
Proof.
  apply (apply_action_steps
           (fun g => cards (deck g) `suffix_of` cards (deck gs)
                     /\ rng (deck g) = rng (deck gs))
           (fun _ => True)).
  - intros g c rest [Hs Hr] Hc. split; [exact I|]. simpl. split; [|exact Hr].
    etransitivity; [|exact Hs]. rewrite Hc. apply suffix_cons_r. reflexivity.
  - intros card g g' _ Hg Hstep. rewrite (card_step_deck card g g' Hstep). exact Hg.
  - intros g i t Hg _ _. exact Hg.
  - intros g b Hg. exact Hg.
  - intros g Hg _. exact Hg.
  - split; reflexivity.
Qed.

Lemma stay_keeps_deck (gs : GameState) :
  deck (snd (apply_action "stay" gs)) = deck gs.
Proof.
  unfold apply_action. unfold ebind at 1. unfold eget at 1.
  destruct (negb (existsb (String.eqb "stay") (legal_actions gs))); [reflexivity|].
  unfold ebind at 1. unfold set_round_over at 1. unfold emodify at 1.
  change (String.eqb "stay" "stay") with true. cbv iota.
  match goal with |- context [ebind _bank_current _ ?g] => set (g0 := g) end.
  change (deck gs) with (deck g0).
  unfold ebind at 1.
  destruct (py_index (player_totals g0) (current_player g0)) as [i|] eqn:Hi.
  - destruct (py_index_lookup _ _ _ Hi) as [t Ht].
    rewrite (bank_current_ok g0 i t Hi Ht).
    unfold advance_player. monad_unfold. simpl.
    destruct (num_players gs =? 0); reflexivity.
  - rewrite (bank_current_raise g0 Hi). reflexivity.
Qed.

Lemma hit_takes_a_card (gs : GameState) (res : pydict) :
  fst (apply_action "hit" gs) = Ok res ->
  (length (cards (deck (snd (apply_action "hit" gs)))) < length (cards (deck gs)))%nat.
Proof.
  destruct (apply_action "hit" gs) as [r g'] eqn:E. simpl. intros ->.
  unfold apply_action in E. unfold ebind at 1 in E. unfold eget at 1 in E.
  destruct (negb (existsb (String.eqb "hit") (legal_actions gs))); [discriminate|].
  unfold ebind at 1 in E. unfold set_round_over at 1 in E. unfold emodify at 1 in E.
  change (String.eqb "hit" "stay") with false in E. cbv iota in E.
  match type of E with context [ebind draw _ ?g] => set (g0 := g) in E end.
  change (cards (deck gs)) with (cards (deck g0)).
  unfold ebind at 1 in E. unfold draw at 1 in E. unfold Flip7Deck_draw in E.
  destruct (cards (deck g0)) as [|c rest] eqn:Hc; [discriminate|].
  set (g1 := with_deck (mkDeck (rng (deck g0)) rest) g0) in E.
  unfold ebind at 1 in E.
  pose proof (process_draw_post c g1) as Hpost.
  apply draw_post_deck in Hpost.
  destruct (_process_draw c g1) as [[out|e] g2]; [|discriminate].
  simpl in Hpost.
  assert (Hlen : (length (cards (deck g2)) < length (c :: rest))%nat)
    by (simpl in *; lia).
  destruct (truthy (dict_get "round_end" out));
    [|injection E as _ <-; exact Hlen].
  unfold advance_player in E. monad_unfold.
  destruct (num_players g2 =? 0); [discriminate|].
  injection E as _ <-. exact Hlen.
Qed.

(** [X7] Whatever [apply_action] does, the deck it leaves is a final
    segment of the deck it found, with the same generator: cards are only
    taken from the top, never put back or reordered. A stay leaves the deck
    as it is, and a hit that returns has taken at least one card. *)
Theorem X7_deck_only_shrinks (a : string) (gs : GameState) :
  cards (deck (snd (apply_action a gs))) `suffix_of` cards (deck gs)
  /\ rng (deck (snd (apply_action a gs))) = rng (deck gs)
  /\ deck (snd (apply_action "stay" gs)) = deck gs
  /\ (forall res,
        fst (apply_action "hit" gs) = Ok res ->
        (length (cards (deck (snd (apply_action "hit" gs))))
         < length (cards (deck gs)))%nat).
Proof.
  destruct (apply_action_suffix a gs) as [Hs Hr].
  split; [exact Hs|]. split; [exact Hr|].
  split; [apply stay_keeps_deck|apply hit_takes_a_card].
Qed.

End DeckShrinks.

(** ** Totals only grow *)

Section TotalsGrow.
Context `{RT : PyRuntime}.

Lemma py_sum_nonneg (l : list Z) : Forall (Z.le 0) l -> 0 <= py_sum l.
Proof.
  induction l as [|x l IH] using rev_ind; intros H; [unfold py_sum; simpl; lia|].
  rewrite py_sum_app. apply Forall_app in H as [Hl Hx].
  apply Forall_cons_1 in Hx as [Hx _]. specialize (IH Hl). lia.
Qed.

Lemma spec_score_nonneg (nums : list Z) (flat : Z) (mult : bool) :
  Forall (Z.le 0) nums -> 0 <= flat -> 0 <= spec_score nums flat mult.
Proof.
  intros Hn Hf. pose proof (py_sum_nonneg nums Hn). unfold spec_score.
  destruct mult; destruct (7 <=? distinct_count nums); lia.
Qed.

Lemma banked_amount_nonneg (gs : GameState) :
  nonneg_state gs -> 0 <= banked_amount gs.
Proof.
  intros (Hn & Hf & _). unfold banked_amount.
  destruct (current_numbers gs) eqn:E; [lia|].
  rewrite <- E. rewrite <- E in Hn. apply spec_score_nonneg; assumption.
Qed.

Lemma Forall2_le_insert (l1 l2 : list Z) (i : nat) (t t' : Z) :
  Forall2 Z.le l1 l2 -> l2 !! i = Some t -> t <= t' ->
  Forall2 Z.le l1 (<[i := t']> l2).
Proof.
  intros H. revert i. induction H as [|x y l1 l2 Hxy H IH]; intros i Hi Ht.
  - constructor.
  - destruct i as [|i]; simpl in *.
    + injection Hi as <-. constructor; [lia|exact H].
    + constructor; [exact Hxy|]. apply IH; assumption.
Qed.

Lemma card_step_totals (gs0 : GameState) (card : Card) (gs gs' : GameState) :
  card_nonneg card ->
  nonneg_state gs /\ totals_le gs0 gs ->
  card_step card gs gs' ->
  nonneg_state gs' /\ totals_le gs0 gs'.
Proof.
  intros Hq [Hnn Hle] Hstep. pose proof Hnn as (Hn & Hf & Hd).
  unfold nonneg_state, totals_le.
  destruct Hstep; simpl.
  - auto.
  - auto.
  - repeat split; auto; lia.
  - repeat split; auto. apply Forall_app. split; [exact Hn|].
    constructor; [|constructor]. apply Hq. assumption.
  - repeat split; auto; [lia|].
    eapply Forall2_le_insert; [exact Hle|eassumption|].
    assert (0 <= s); [|lia]. apply spec_score_nonneg; [|exact Hf].
    apply Forall_app. split; [exact Hn|].
    constructor; [|constructor]. apply Hq. assumption.
  - repeat split; auto.
    assert (0 <= m) by (apply Hq; assumption). lia.
  - auto.
  - repeat split; auto; [lia|].
    eapply Forall2_le_insert; [exact Hle|eassumption|].
    pose proof (banked_amount_nonneg gs Hnn). lia.
  - auto.
Qed.

Lemma apply_action_grows (gs0 : GameState) (a : string) (gs : GameState) :
  nonneg_state gs /\ totals_le gs0 gs ->
  nonneg_state (snd (apply_action a gs)) /\ totals_le gs0 (snd (apply_action a gs)).
Proof.
  apply (apply_action_steps (fun g => nonneg_state g /\ totals_le gs0 g) card_nonneg).
  - intros g c rest [(Hn & Hf & Hd) Hle] Hc. rewrite Hc in Hd.
    apply Forall_cons_1 in Hd as [Hq Hd].
    split; [exact Hq|]. split; [|exact Hle]. repeat split; assumption.
  - intros card g g'. apply card_step_totals.
  - intros g i t [Hg Hle] Hi Ht.
    apply (card_step_totals gs0 Card_mult g); [discriminate|auto|].
    apply card_freeze; assumption.
  - intros g b Hg. exact Hg.
  - intros g Hg _. exact Hg.
Qed.

Lemma totals_le_refl (gs : GameState) : totals_le gs gs.
Proof.
  unfold totals_le. apply Forall_Forall2_diag, Forall_forall. intros; lia.
Qed.

(** [X8] When no number on the line, no modifier sum and no card value
    left in the deck is negative, [apply_action] leaves a state of the same
    kind and lowers no player's total: points are only ever added. *)
Theorem X8_totals_never_decrease (a : string) (gs : GameState) :
  nonneg_state gs ->
  nonneg_state (snd (apply_action a gs)) /\ totals_le gs (snd (apply_action a gs)).
Proof.
  intros Hnn. apply apply_action_grows. split; [exact Hnn|apply totals_le_refl].
Qed.

End TotalsGrow.

Lemma X8_totals_never_decrease_witness :
  nonneg_state (snd (apply_action "hit" ex_about_to_bust))
  /\ totals_le ex_about_to_bust (snd (apply_action "hit" ex_about_to_bust)).
Proof.
  apply X8_totals_never_decrease.
  unfold nonneg_state, ex_about_to_bust, card_nonneg. simpl.
  repeat split; [repeat constructor; lia|lia|].
  repeat constructor; intros v [= <-]; lia.
Defined.

(** ** Legal actions return *)

Section Progress.
Context `{RT : PyRuntime}.

Lemma leaf_returns (card : Card) (gs : GameState) :
  is_flip_three card = false -> card_typed card -> seated gs ->
  exists res, fst (process_draw_depth 1 card gs) = Ok res.
Proof.
  intros Hf Ht [Hp Hpos].
  destruct (players_index gs Hp Hpos) as (i & t & Hi & Hti).
  unfold is_flip_three in Hf. unfold card_typed in Ht.
  destruct (String.eqb (kind card) "number") eqn:Ek1.
  { apply String.eqb_eq in Ek1.
    destruct (value card) as [v|] eqn:Hv;
      [|exfalso; apply Ht; [left; exact Ek1|reflexivity]].
    destruct (py_in v (current_numbers gs)) eqn:Hin.
    - simpl. rewrite Ek1, Hv. simpl. monad_unfold. cbv beta iota. rewrite Hin.
      destruct (second_chance_count gs >? 0); simpl; eauto.
    - destruct (Z_lt_ge_dec (distinct_count (current_numbers gs ++ [v])) 7) as [Hlt|Hge].
      + simpl. rewrite Ek1, Hv. simpl. monad_unfold. cbv beta iota. rewrite Hin.
        simpl.
        destruct (distinct_count (current_numbers gs ++ [v]) >=? 7) eqn:E; [lia|].
        simpl. eauto.
      + rewrite (flip7_ok gs i t 0 card v Ek1 Hv Hin ltac:(lia) Hi Hti). simpl.
        eauto. }
  destruct (String.eqb (kind card) "modifier") eqn:Ek2.
  { apply String.eqb_eq in Ek2.
    destruct (value card) as [m|] eqn:Hv;
      [|exfalso; apply Ht; [right; exact Ek2|reflexivity]].
    simpl. rewrite Ek1, Ek2. simpl. rewrite Hv. monad_unfold. simpl. eauto. }
  destruct (String.eqb (kind card) "mult") eqn:Ek3.
  { simpl. rewrite Ek1, Ek2, Ek3. monad_unfold. simpl. eauto. }
  destruct (String.eqb (kind card) "action") eqn:Ek4;
    [|simpl; rewrite Ek1, Ek2, Ek3, Ek4; simpl; eauto].
  simpl in Hf.
  destruct (name card) as [s|] eqn:Hn;
    [|simpl; rewrite Ek1, Ek2, Ek3, Ek4, Hn; simpl; eauto].
  destruct (String.eqb s "Freeze") eqn:Efz.
  { apply String.eqb_eq in Efz, Ek4. subst s.
    rewrite (freeze_ok gs i t 0 card Ek4 Hn Hi Hti). simpl. eauto. }
  simpl. rewrite Ek1, Ek2, Ek3, Ek4, Hn. simpl. rewrite Efz, Hf.
  destruct (String.eqb s "SecondChance"); monad_unfold; simpl; eauto.
Qed.

Lemma ready_deck (gs : GameState) (c : Card) (rest : list Card) :
  ready gs -> cards (deck gs) = c :: rest ->
  card_typed c /\ ready (with_deck (mkDeck (rng (deck gs)) rest) gs).
Proof.
  intros [Hs Hd] Hc. rewrite Hc in Hd. apply Forall_cons_1 in Hd as [Hq Hd].
  split; [exact Hq|]. split; [exact Hs|exact Hd].
Qed.

Lemma ready_step (card : Card) (gs gs' : GameState) :
  card_typed card -> ready gs -> card_step card gs gs' -> ready gs'.
Proof.
  intros _ [Hs Hd] Hstep. split.
  - eapply card_step_seated; eassumption.
  - rewrite (card_step_deck card gs gs' Hstep). exact Hd.
Qed.

Lemma ready_process (depth : nat) (card : Card) (gs : GameState) :
  card_typed card -> ready gs -> ready (snd (process_draw_depth depth card gs)).
Proof.
  apply (process_draw_depth_keeps ready card_typed ready_deck).
  intros c g Hf Hc Hg. eapply ready_step; eauto using process_leaf_step.
Qed.

Lemma flip_three_returns (process : Card -> E pydict) (bound : nat) (card : Card) :
  (forall c g, card_typed c -> ready g -> (length (cards (deck g)) < bound)%nat ->
     exists res, fst (process c g) = Ok res) ->
  (forall c g, card_typed c -> ready g -> ready (snd (process c g))) ->
  (forall c g, (length (cards (deck g)) < bound)%nat ->
     (length (cards (deck (snd (process c g)))) <= length (cards (deck g)))%nat) ->
  forall (n : nat) (draws : list Card) (gs : GameState),
    ready gs -> (length (cards (deck gs)) <= bound)%nat ->
    exists res, fst (flip_three_loop process card n draws gs) = Ok res.
Proof.
  intros Hret Hkeep Hlen. induction n as [|n IH]; intros draws gs Hgs Hb.
  - simpl. eauto.
  - simpl. monad_unfold. cbv beta iota.
    destruct (Flip7Deck_remaining (deck gs) =? 0) eqn:Hrem; [simpl; eauto|].
    destruct (draw_nonempty gs Hrem) as (c & rest & Hc).
    rewrite (draw_cons gs c rest Hc).
    destruct (ready_deck gs c rest Hgs Hc) as [Hq H1].
    set (g1 := with_deck (mkDeck (rng (deck gs)) rest) gs) in *.
    assert (Hl1 : (length (cards (deck g1)) < bound)%nat).
    { unfold g1. simpl. rewrite Hc in Hb. simpl in Hb. lia. }
    destruct (Hret c g1 Hq H1 Hl1) as [res Hres].
    pose proof (Hkeep c g1 Hq H1) as H2.
    pose proof (Hlen c g1 Hl1) as Hl2.
    destruct (process c g1) as [r g2]. simpl in *. subst r.
    destruct (truthy (dict_get "round_end" res)); [simpl; eauto|].
    apply IH; [exact H2|lia].
Qed.

Lemma process_returns (depth : nat) :
  forall (card : Card) (gs : GameState),
    card_typed card -> ready gs -> (length (cards (deck gs)) < depth)%nat ->
    exists res, fst (process_draw_depth depth card gs) = Ok res.
Proof.
  induction depth as [|d IH]; intros card gs Hq Hgs Hlen; [lia|].
  rewrite process_draw_unfold.
  destruct (is_flip_three card) eqn:Hf.
  - apply (flip_three_returns _ d); [exact IH| |idtac| exact Hgs | lia].
    + intros c g. apply ready_process.
    + intros c g Hl. apply draw_post_deck, process_draw_depth_post. exact Hl.
  - apply leaf_returns; [exact Hf|exact Hq|apply Hgs].
Qed.

(** [X9] In a game with at least one player, a legal stay always returns,
    and a legal hit returns whenever the deck is not empty and every number
    and modifier card in it carries its value: no card, and no chain of
    FlipThree cards, makes [apply_action] raise. *)
Theorem X9_legal_action_returns (a : string) (gs : GameState) :
  seated gs ->
  In a (legal_actions gs) ->
  Forall card_typed (cards (deck gs)) ->
  a = "stay" \/ cards (deck gs) <> [] ->
  exists res, fst (apply_action a gs) = Ok res.
Proof.
  intros Hs Ha Hd Hne.
  assert (Hl : legal_actions gs <> []) by (intros E; rewrite E in Ha; exact Ha).
  destruct (legal_actions_inv gs Hl) as [Hr Hw].
  rewrite (legal_actions_open gs Hr Hw) in Ha.
  pose proof Hs as [Hp Hpos].
  destruct (players_index gs Hp Hpos) as (i & t & Hi & Hti).
  destruct Ha as [<-|[<-|[]]].
  - destruct Hne as [Hne|Hne]; [discriminate|].
    unfold apply_action. unfold ebind at 1. unfold eget at 1.
    rewrite (legal_actions_open gs Hr Hw).
    change (negb (existsb (String.eqb "hit") ["hit"; "stay"])) with false. cbv iota.
    unfold ebind at 1. unfold set_round_over at 1. unfold emodify at 1.
    change (String.eqb "hit" "stay") with false. cbv iota.
    match goal with |- context [ebind draw _ ?g] => set (g0 := g) end.
    assert (H0 : ready g0) by (split; [exact Hs|exact Hd]).
    unfold ebind at 1. unfold draw at 1. unfold Flip7Deck_draw.
    destruct (cards (deck g0)) as [|c rest] eqn:Hc; [exfalso; apply Hne; exact Hc|].
    destruct (ready_deck g0 c rest H0 Hc) as [Hq H1].
    set (g1 := with_deck (mkDeck (rng (deck g0)) rest) g0) in *.
    unfold ebind at 1.
    destruct (process_returns (S (length (cards (deck g1)))) c g1 Hq H1 ltac:(lia))
      as [res Hres].
    fold (_process_draw c g1) in Hres.
    pose proof (process_draw_post c g1) as Hpost. unfold draw_post in Hpost.
    destruct (_process_draw c g1) as [r g2]. simpl in Hres. subst r.
    simpl in Hpost.
    destruct (truthy (dict_get "round_end" res)); [|simpl; eauto].
    destruct Hpost as ((Hn & _) & _).
    unfold advance_player. monad_unfold. rewrite Hn. simpl.
    destruct (num_players gs =? 0) eqn:E; [lia|]. simpl. eauto.
  - rewrite (stay_ok gs i t Hl ltac:(lia) Hi Hti). simpl. eauto.
Qed.

End Progress.

Lemma X9_legal_action_returns_witness :
  exists res, fst (apply_action "hit" ex_about_to_bust) = Ok res.
Proof.
  apply X9_legal_action_returns.
  - split; [split; [reflexivity|intros _; simpl; lia]|reflexivity].
  - left. reflexivity.
  - repeat constructor; intros _; discriminate.
  - right. discriminate.
Defined.

(** ** Copies of a game state *)

Section Clone.
Context `{RT : PyRuntime}.

Lemma mbind_inv {A B : Type} (c : Mcts.M A) (k : A -> Mcts.M B)
    (w w' : Mcts.world) (b : B) :
  Mcts.mbind c k w = (Mcts.Val b, w') ->
  exists a w1, c w = (Mcts.Val a, w1) /\ k a w1 = (Mcts.Val b, w').
Proof.
  unfold Mcts.mbind. destruct (c w) as [[a|e| |] w1]; try discriminate.
  intros H. exists a, w1. auto.
Qed.

Lemma load_state_preserved (w w' : Mcts.world) (l : Mcts.loc) (gs : GameState) :
  preserves w w' ->
  fst (Mcts.load_state l w) = Mcts.Val gs ->
  Mcts.load_state l w' = (Mcts.Val gs, w').
Proof.
  intros [Hg Hd]. unfold Mcts.load_state.
  destruct (Mcts.gs_heap w !! l) as [obj|] eqn:Ho; [|discriminate].
  destruct (Mcts.deck_heap w !! deck obj) as [d|] eqn:Hk; [|discriminate].
  rewrite (Hg _ _ Ho), (Hd _ _ Hk). simpl. intros [= <-]. reflexivity.
Qed.

(** [X10] [clone] is a deep copy. On a state that is in the store it
    returns a new object that reads field by field, deck included, like
    the original; and whatever engine method is then called on the copy,
    the original still reads as before: the two share no deck. *)
Theorem X10_clone_is_deep_copy (w : Mcts.world) (l : Mcts.loc) (gs : GameState) :
  fst (Mcts.load_state l w) = Mcts.Val gs ->
  exists l' w',
    Mcts.clone l w = (Mcts.Val l', w')
    /\ Mcts.gs_heap w !! l' = None
    /\ Mcts.load_state l' w' = (Mcts.Val gs, w')
    /\ Mcts.load_state l w' = (Mcts.Val gs, w')
    /\ forall (A : Type) (c : E A),
         fst (Mcts.load_state l (snd (Mcts.call l' c w'))) = Mcts.Val gs.
Proof.
  intros Hload.
  destruct (safe_clone w l w (frame_refl w)) as [Hframe Hfresh].
  destruct (Mcts.clone l w) as [r w'] eqn:Hc. simpl in Hframe, Hfresh.
  assert (Hr : exists l', r = Mcts.Val l'
                 /\ Mcts.load_state l' w' = (Mcts.Val gs, w')).
  { unfold Mcts.clone, Mcts.load_state in *.
    destruct (Mcts.gs_heap w !! l) as [obj|] eqn:Ho; [|discriminate].
    destruct (Mcts.deck_heap w !! deck obj) as [d|] eqn:Hk; [|discriminate].
    injection Hc as <- <-. eexists. split; [reflexivity|]. simpl.
    rewrite lookup_insert_eq. simpl. rewrite lookup_insert_eq.
    simpl in Hload. injection Hload as <-. reflexivity. }
  destruct Hr as (l' & -> & Hl').
  exists l', w'. split; [reflexivity|].
  split; [apply Hfresh; reflexivity|]. split; [exact Hl'|].
  split; [apply (load_state_preserved w); [apply Hframe|exact Hload]|].
  intros A c.
  destruct (safe_call w l' c (Hfresh l' eq_refl) w' Hframe) as [[Hp _] _].
  rewrite (load_state_preserved w _ l gs Hp Hload). reflexivity.
Qed.

End Clone.

Lemma X10_clone_is_deep_copy_witness :
  exists l' w',
    Mcts.clone 1%positive ex_world = (Mcts.Val l', w')
    /\ Mcts.gs_heap ex_world !! l' = None
    /\ Mcts.load_state l' w' = (Mcts.Val ex_game, w')
    /\ Mcts.load_state 1%positive w' = (Mcts.Val ex_game, w')
    /\ forall (A : Type) (c : E A),
         fst (Mcts.load_state 1%positive (snd (Mcts.call l' c w'))) = Mcts.Val ex_game.
Proof. apply (X10_clone_is_deep_copy ex_world 1%positive ex_game). reflexivity. Defined.

(** ** Expanding a node *)

Section Expand.
Context `{RT : PyRuntime}.

Lemma clone_inv (w w' : Mcts.world) (l l' : Mcts.loc) :
  Mcts.clone l w = (Mcts.Val l', w') ->
  Mcts.node_heap w' = Mcts.node_heap w /\ Mcts.gs_heap w !! l' = None.
Proof.
  unfold Mcts.clone.
  destruct (Mcts.gs_heap w !! l) as [obj|]; [|discriminate].
  destruct (Mcts.deck_heap w !! deck obj) as [d|]; [|discriminate].
  intros [= <- <-]. split; [reflexivity|apply not_elem_of_dom, is_fresh].
Qed.

Lemma clone_inv_heap (w w' : Mcts.world) (l l' : Mcts.loc) :
  Mcts.clone l w = (Mcts.Val l', w') ->
  forall k, k <> l' -> Mcts.gs_heap w' !! k = Mcts.gs_heap w !! k.
Proof.
  unfold Mcts.clone.
  destruct (Mcts.gs_heap w !! l) as [obj|]; [|discriminate].
  destruct (Mcts.deck_heap w !! deck obj) as [d|]; [|discriminate].
  intros [= <- <-] k Hk. simpl. apply lookup_insert_ne. congruence.
Qed.

Lemma shuffle_inv (w w' : Mcts.world) (l : Mcts.loc) (u : unit) :
  Mcts.shuffle_deck l w = (Mcts.Val u, w') ->
  Mcts.node_heap w' = Mcts.node_heap w /\ Mcts.gs_heap w' = Mcts.gs_heap w.
Proof.
  unfold Mcts.shuffle_deck.
  destruct (Mcts.gs_heap w !! l) as [obj|]; [|discriminate].
  destruct (Mcts.deck_heap w !! deck obj) as [d|]; [|discriminate].
  destruct (rng_shuffle (Mcts.global_rng w) (cards d)) as [cs g].
  intros [= _ <-]. split; reflexivity.
Qed.

Lemma get_node_inv (w w' : Mcts.world) (n : Mcts.loc) (nd : Mcts.Node) :
  Mcts.get_node n w = (Mcts.Val nd, w') ->
  w' = w /\ Mcts.node_heap w !! n = Some nd.
Proof.
  unfold Mcts.get_node. destruct (Mcts.node_heap w !! n); [|discriminate].
  intros [= <- <-]. auto.
Qed.

Lemma dict_set_new {V : Type} (a : string) (v : V) (cs : list (string * V)) :
  Mcts.dict_mem a cs = false -> Mcts.dict_set a v cs = cs ++ [(a, v)].
Proof.
  unfold Mcts.dict_mem. induction cs as [|[k x] cs IH]; simpl; [reflexivity|].
  destruct (String.eqb a k); simpl; [discriminate|].
  intros H. rewrite IH by exact H. reflexivity.
Qed.

Lemma dict_mem_app {V : Type} (a : string) (cs1 cs2 : list (string * V)) :
  Mcts.dict_mem a (cs1 ++ cs2) = Mcts.dict_mem a cs1 || Mcts.dict_mem a cs2.
Proof. apply existsb_app. Qed.

Lemma dict_mem_In {V : Type} (a : string) (c : V) (cs : list (string * V)) :
  In (a, c) cs -> Mcts.dict_mem a cs = true.
Proof.
  intros H. apply existsb_exists. exists (a, c). split; [exact H|].
  apply String.eqb_refl.
Qed.

(** The body of the loop for a label the node has no child for. *)
Lemma expand_step (node : Mcts.loc) (a : string) (nd : Mcts.Node)
    (w w' : Mcts.world) (u : unit) :
  Mcts.node_heap w !! node = Some nd ->
  Mcts.dict_mem a (Mcts.children nd) = false ->
  Mcts.mbind (Mcts.clone (Mcts.state nd)) (fun new_state =>
    Mcts.mbind (Mcts.shuffle_deck new_state) (fun _ =>
      Mcts.mbind (Mcts.new_node new_state (Some node) (Some a)) (fun ch =>
        Mcts.mbind (Mcts.get_node node) (fun nd' =>
          Mcts.put_node node
            (Mcts.mkNode (Mcts.state nd') (Mcts.parent nd') (Mcts.action nd')
               (Mcts.dict_set a ch (Mcts.children nd')) (Mcts.visits nd')
               (Mcts.value nd')))))) w
  = (Mcts.Val u, w') ->
  exists n st,
    Mcts.node_heap w !! n = None
    /\ Mcts.gs_heap w !! st = None
    /\ Mcts.node_heap w'
       = <[node := Mcts.mkNode (Mcts.state nd) (Mcts.parent nd) (Mcts.action nd)
                     (Mcts.children nd ++ [(a, n)]) (Mcts.visits nd) (Mcts.value nd)]>
           (<[n := Mcts.mkNode st (Some node) (Some a) [] 0 0%float]>
              (Mcts.node_heap w))
    /\ (forall k, Mcts.gs_heap w' !! k = None -> Mcts.gs_heap w !! k = None).
Proof.
  intros Hn Hmem H.
  apply mbind_inv in H as (st & wa & Hc & H).
  apply mbind_inv in H as (u1 & wb & Hs & H).
  apply mbind_inv in H as (n & wc & Hnew & H).
  apply mbind_inv in H as (nd' & wd & Hget & H).
  destruct (clone_inv _ _ _ _ Hc) as [Hna Hst].
  destruct (shuffle_inv _ _ _ _ Hs) as [Hnb Hgb].
  pose proof (clone_inv_heap _ _ _ _ Hc) as Hga.
  unfold Mcts.new_node in Hnew. injection Hnew as <- <-.
  assert (Hfresh : Mcts.node_heap w !! fresh (dom (Mcts.node_heap wb)) = None).
  { rewrite <- Hna, <- Hnb. apply not_elem_of_dom, is_fresh. }
  remember (fresh (dom (Mcts.node_heap wb))) as n eqn:En.
  assert (Hne : n <> node) by (intros ->; congruence).
  apply get_node_inv in Hget as [-> Hnd'].
  simpl in Hnd'. rewrite lookup_insert_ne in Hnd' by exact Hne.
  rewrite Hnb, Hna, Hn in Hnd'. injection Hnd' as <-.
  unfold Mcts.put_node in H. simpl in H.
  rewrite lookup_insert_ne in H by exact Hne.
  rewrite Hnb, Hna, Hn in H. injection H as _ <-. simpl.
  exists n, st. split; [exact Hfresh|]. split; [exact Hst|].
  split; [rewrite (dict_set_new a n _ Hmem); reflexivity|].
  intros k Hk. rewrite Hgb in Hk.
  destruct (decide (k = st)) as [->|Hd]; [exact Hst|].
  rewrite (Hga k Hd) in Hk. exact Hk.
Qed.

Lemma expanded_refl (node : Mcts.loc) (nd : Mcts.Node) (w : Mcts.world) :
  Mcts.node_heap w !! node = Some nd -> expanded node [] w w.
Proof.
  intros Hn. exists nd, (Mcts.children nd).
  split; [exact Hn|]. split; [destruct nd; exact Hn|].
  split; [intros a; simpl; tauto|]. split; [auto|]. split; auto.
Qed.

Lemma expand_actions_post (node : Mcts.loc) (acts : list string) :
  forall (w w1 : Mcts.world) (nd : Mcts.Node),
    Mcts.node_heap w !! node = Some nd ->
    Mcts.expand_actions node acts w = (Mcts.Val tt, w1) ->
    expanded node acts w w1.
Proof.
  induction acts as [|a rest IH]; intros w w1 nd Hn H.
  - simpl in H. injection H as <-. eapply expanded_refl; eassumption.
  - simpl in H. rewrite (mbind_val _ _ _ _ _ (get_node_val w node _ Hn)) in H.
    apply mbind_inv in H as (u & w' & Hstep & Hrest).
    destruct (Mcts.dict_mem a (Mcts.children nd)) eqn:Hmem.
    + injection Hstep as _ <-.
      destruct (IH w w1 nd Hn Hrest) as (nd0 & cs1 & Hn0 & Hn1 & Hiff & Hold & Hnew & Hoth).
      assert (nd0 = nd) by congruence. subst nd0.
      exists nd, cs1. repeat split; try assumption.
      * intros Hm. apply Hiff in Hm. simpl. tauto.
      * intros [Hm|[<-|Hin]]; apply Hiff; auto.
    + destruct (expand_step node a nd w w' u Hn Hmem Hstep)
        as (n & st & Hfresh & Hst & Hheap & Hgs).
      assert (Hne : n <> node) by (intros ->; congruence).
      set (nd' := Mcts.mkNode (Mcts.state nd) (Mcts.parent nd) (Mcts.action nd)
                    (Mcts.children nd ++ [(a, n)]) (Mcts.visits nd) (Mcts.value nd))
        in *.
      assert (Hn' : Mcts.node_heap w' !! node = Some nd')
        by (rewrite Hheap; apply lookup_insert_eq).
      destruct (IH w' w1 nd' Hn' Hrest)
        as (nd0 & cs1 & Hn0 & Hn1 & Hiff & Hold & Hnew & Hoth).
      assert (nd0 = nd') by congruence. subst nd0. simpl in *.
      assert (Hkeep : forall m x, m <> node -> Mcts.node_heap w !! m = Some x ->
                        Mcts.node_heap w1 !! m = Some x).
      { intros m x Hm Hx. apply Hoth; [exact Hm|]. rewrite Hheap.
        rewrite lookup_insert_ne by congruence.
        rewrite lookup_insert_ne by (intros <-; congruence). exact Hx. }
      exists nd, cs1. repeat split; try assumption.
      * intros Hm. apply Hiff in Hm. rewrite dict_mem_app in Hm.
        cbn [Mcts.dict_mem existsb fst] in Hm.
        destruct Hm as [Hm|Hm]; [|right; right; exact Hm].
        apply orb_true_iff in Hm as [Hm|Hm]; [left; exact Hm|].
        rewrite orb_false_r in Hm. apply String.eqb_eq in Hm.
        right. left. symmetry. exact Hm.
      * intros [Hm|[<-|Hin]]; apply Hiff; rewrite ?dict_mem_app;
          cbn [Mcts.dict_mem existsb fst].
        -- left. fold (Mcts.dict_mem a0 (Mcts.children nd)). rewrite Hm. reflexivity.
        -- left. rewrite String.eqb_refl. apply orb_true_iff. right. reflexivity.
        -- right. exact Hin.
      * intros a0 c Hin. apply Hold, in_or_app. left. exact Hin.
      * intros a0 c Hin. destruct (Hnew a0 c Hin) as [Hin'|(Hc & st' & Hc1 & Hst')].
        -- apply in_app_or in Hin' as [Hin'|[[= <- <-]|[]]]; [left; exact Hin'|].
           right. split; [exact Hfresh|]. exists st. split; [|exact Hst].
           apply Hoth; [exact Hne|]. rewrite Hheap.
           rewrite lookup_insert_ne by congruence. apply lookup_insert_eq.
        -- right. split.
           ++ destruct (Mcts.node_heap w !! c) as [x|] eqn:Hx; [|reflexivity].
              assert (c <> node) by (intros ->; congruence).
              rewrite Hheap in Hc. rewrite lookup_insert_ne in Hc by congruence.
              destruct (decide (n = c)) as [->|Hnc]; [congruence|].
              rewrite lookup_insert_ne in Hc by exact Hnc. congruence.
           ++ exists st'. split; [exact Hc1|]. apply Hgs. exact Hst'.
Qed.

Lemma expand_inv (node : Mcts.loc) (w w1 : Mcts.world) (u : unit) :
  Mcts.expand node w = (Mcts.Val u, w1) ->
  exists nd gs,
    Mcts.node_heap w !! node = Some nd
    /\ Mcts.load_state (Mcts.state nd) w = (Mcts.Val gs, w)
    /\ Mcts.expand_actions node (legal_actions gs) w = (Mcts.Val tt, w1).
Proof.
  unfold Mcts.expand. intros H.
  apply mbind_inv in H as (nd & wa & Hg & H). apply get_node_inv in Hg as [-> Hn].
  apply mbind_inv in H as (gs & wb & Hl & H).
  destruct (load_state_inv _ _ _ _ Hl) as [-> _].
  exists nd, gs. destruct u. auto.
Qed.

Lemma expand_actions_noop (node : Mcts.loc) (nd : Mcts.Node) (w : Mcts.world)
    (acts : list string) :
  Mcts.node_heap w !! node = Some nd ->
  (forall a, In a acts -> Mcts.dict_mem a (Mcts.children nd) = true) ->
  Mcts.expand_actions node acts w = (Mcts.Val tt, w).
Proof.
  intros Hn. induction acts as [|a rest IH]; intros Hall; simpl; [reflexivity|].
  rewrite (mbind_val _ _ _ _ _ (get_node_val w node _ Hn)).
  rewrite (Hall a (or_introl eq_refl)).
  rewrite (mbind_val _ _ w w tt) by reflexivity.
  apply IH. intros b Hb. apply Hall. right. exact Hb.
Qed.

(** [X11] When [expand] returns, the node has a child under every legal
    action of its state; the children it had are kept under their labels,
    every child added is a new leaf without visits, whose parent is the
    node and whose state is a new object; the node's other fields, all
    other nodes and every game state and deck of the store before the call
    are as they were. *)
Theorem X11_expand_adds_missing_children (node : Mcts.loc) (w w1 : Mcts.world)
    (u : unit) :
  Mcts.expand node w = (Mcts.Val u, w1) ->
  exists nd gs,
    Mcts.node_heap w !! node = Some nd
    /\ Mcts.load_state (Mcts.state nd) w = (Mcts.Val gs, w)
    /\ expanded node (legal_actions gs) w w1
    /\ preserves w w1.
Proof.
  intros H. destruct (expand_inv node w w1 u H) as (nd & gs & Hn & Hl & He).
  exists nd, gs. split; [exact Hn|]. split; [exact Hl|].
  split; [eapply expand_actions_post; eassumption|].
  destruct (safe_expand w node w (frame_refl w)) as [[Hp _] _].
  rewrite H in Hp. exact Hp.
Qed.

(** [X12] [expand] is idempotent: called again on the store it has left,
    it returns without changing anything. On a node whose state has no
    legal action the first call changes nothing either. *)
Theorem X12_expand_is_idempotent (node : Mcts.loc) (w w1 : Mcts.world) (u : unit) :
  Mcts.expand node w = (Mcts.Val u, w1) ->
  Mcts.expand node w1 = (Mcts.Val tt, w1)
  /\ (forall nd gs,
        Mcts.node_heap w !! node = Some nd ->
        fst (Mcts.load_state (Mcts.state nd) w) = Mcts.Val gs ->
        legal_actions gs = [] -> w1 = w).
Proof.
  intros H. destruct (expand_inv node w w1 u H) as (nd & gs & Hn & Hl & He).
  split.
  - destruct (expand_actions_post node _ w w1 nd Hn He)
      as (nd0 & cs1 & Hn0 & Hn1 & Hiff & _).
    assert (nd0 = nd) by congruence. subst nd0.
    destruct (safe_expand w node w (frame_refl w)) as [[Hp _] _].
    rewrite H in Hp. simpl in Hp.
    assert (Hl1 : Mcts.load_state (Mcts.state nd) w1 = (Mcts.Val gs, w1)).
    { apply (load_state_preserved w); [exact Hp|rewrite Hl; reflexivity]. }
    unfold Mcts.expand.
    rewrite (mbind_val _ _ _ _ _ (get_node_val w1 node _ Hn1)).
    cbn [Mcts.state]. rewrite (mbind_val _ _ _ _ _ Hl1).
    apply (expand_actions_noop node _ w1 _ Hn1).
    intros a Ha. cbn [Mcts.children]. apply Hiff. right. exact Ha.
  - intros nd' gs' Hn' Hl' Hnone.
    assert (nd' = nd) by congruence. subst nd'.
    rewrite Hl in Hl'. simpl in Hl'. injection Hl' as <-.
    rewrite Hnone in He. simpl in He. unfold Mcts.mret in He. congruence.
Qed.

End Expand.

(** An instance: the root of a new tree over a fresh game. *)
Lemma X11_expand_adds_missing_children_witness :
  exists nd gs,
    Mcts.node_heap ex_world_root !! 1%positive = Some nd
    /\ Mcts.load_state (Mcts.state nd) ex_world_root = (Mcts.Val gs, ex_world_root)
    /\ expanded 1%positive (legal_actions gs) ex_world_root
         (snd (Mcts.expand 1%positive ex_world_root))
    /\ preserves ex_world_root (snd (Mcts.expand 1%positive ex_world_root)).
Proof.
  apply (X11_expand_adds_missing_children 1%positive ex_world_root _ tt).
  reflexivity.
Defined.

Lemma X12_expand_is_idempotent_witness :
  Mcts.expand 1%positive (snd (Mcts.expand 1%positive ex_world_root))
  = (Mcts.Val tt, snd (Mcts.expand 1%positive ex_world_root)).
Proof.
  apply (X12_expand_is_idempotent 1%positive ex_world_root _ tt). reflexivity.
Defined.

(** ** Backing a reward up *)

Section Backup.
Context `{RT : PyRuntime}.

Lemma path_to_root_unique (w : Mcts.world) (p1 : list Mcts.loc) :
  forall (n : Mcts.loc) (p2 : list Mcts.loc),
    path_to_root w n p1 -> path_to_root w n p2 -> p1 = p2.
Proof.
  induction p1 as [|x r1 IH]; intros n [|y r2]; simpl; try tauto.
  intros (-> & nd & Hn & H1) (-> & nd' & Hn' & H2).
  assert (nd' = nd) by congruence. subst nd'. f_equal.
  destruct (Mcts.parent nd) as [p|]; [eapply IH; eassumption|congruence].
Qed.

Lemma path_to_root_tail (w : Mcts.world) (l1 : list Mcts.loc) :
  forall (n x : Mcts.loc) (l2 : list Mcts.loc),
    path_to_root w n (l1 ++ x :: l2) -> path_to_root w x (x :: l2).
Proof.
  induction l1 as [|y l1 IH]; intros n x l2; simpl.
  - intros (-> & H). split; [reflexivity|exact H].
  - intros (-> & nd & Hn & H).
    destruct (Mcts.parent nd) as [p|]; [eapply IH; exact H|].
    destruct l1; discriminate.
Qed.

Lemma path_to_root_NoDup (w : Mcts.world) (path : list Mcts.loc) :
  forall n, path_to_root w n path -> NoDup path.
Proof.
  induction path as [|x rest IH]; intros n H; [constructor|].
  pose proof H as (-> & nd & Hn & Hp). constructor.
  - intros Hin. apply list_elem_of_In, in_split in Hin as (l1 & l2 & ->).
    assert (H1 : path_to_root w n (n :: l2)).
    { apply (path_to_root_tail w (n :: l1) n n l2). exact H. }
    pose proof (path_to_root_unique w _ n _ H H1) as Heq.
    apply (f_equal (@length _)) in Heq. simpl in Heq.
    rewrite length_app in Heq. simpl in Heq. lia.
  - destruct (Mcts.parent nd) as [p|]; [eapply IH; exact Hp|].
    subst rest. constructor.
Qed.

Lemma path_to_root_ext (w w' : Mcts.world) (path : list Mcts.loc) :
  forall n,
    (forall m, m ∈ path -> Mcts.node_heap w' !! m = Mcts.node_heap w !! m) ->
    path_to_root w n path -> path_to_root w' n path.
Proof.
  induction path as [|x rest IH]; intros n Hsame; simpl; [tauto|].
  intros (-> & nd & Hn & Hp). split; [reflexivity|]. exists nd.
  split; [rewrite Hsame; [exact Hn|left]|].
  destruct (Mcts.parent nd) as [p|]; [|exact Hp].
  apply IH; [|exact Hp]. intros m Hm. apply Hsame. right. exact Hm.
Qed.

Lemma backup_path (reward : Mcts.pynum) (r : float) (path : list Mcts.loc) :
  Mcts.pynum_to_float reward = Ok r ->
  forall (fuel : nat) (n : Mcts.loc) (w : Mcts.world),
    path_to_root w n path -> NoDup path -> (length path <= fuel)%nat ->
    exists w',
      Mcts.backup fuel (Some n) reward w = (Mcts.Val tt, w')
      /\ Mcts.gs_heap w' = Mcts.gs_heap w
      /\ Mcts.deck_heap w' = Mcts.deck_heap w
      /\ Mcts.global_rng w' = Mcts.global_rng w
      /\ forall m,
           Mcts.node_heap w' !! m
           = if decide (m ∈ path) then visited_once r <$> Mcts.node_heap w !! m
             else Mcts.node_heap w !! m.
Proof.
  intros Hr. induction path as [|x rest IH]; intros fuel n w Hp Hnd Hlen;
    [destruct Hp|].
  destruct Hp as (-> & nd & Hn & Hp). apply NoDup_cons in Hnd as [Hx Hnd].
  destruct fuel as [|fuel]; [simpl in Hlen; lia|]. simpl in Hlen.
  set (nd1 := Mcts.mkNode (Mcts.state nd) (Mcts.parent nd) (Mcts.action nd)
                (Mcts.children nd) (Mcts.visits nd + 1) (Mcts.value nd)).
  set (w1 := Mcts.set_node_heap (<[n := nd1]> (Mcts.node_heap w)) w).
  set (w2 := Mcts.set_node_heap (<[n := visited_once r nd]> (Mcts.node_heap w1)) w1).
  assert (Hn1 : Mcts.node_heap w1 !! n = Some nd1) by apply lookup_insert_eq.
  assert (Hstep : Mcts.backup (S fuel) (Some n) reward w
                  = Mcts.backup fuel (Mcts.parent nd) reward w2).
  { simpl.
    rewrite (mbind_val _ _ _ _ _ (get_node_val w n _ Hn)).
    rewrite (mbind_val _ _ _ _ _ (put_node_val w n _ nd1 Hn)).
    fold w1. rewrite (mbind_val _ _ w1 w1 r) by (rewrite Hr; reflexivity).
    rewrite (mbind_val _ _ _ _ _ (get_node_val w1 n _ Hn1)).
    rewrite (mbind_val _ _ _ _ _ (put_node_val w1 n _ (visited_once r nd) Hn1)).
    reflexivity. }
  rewrite Hstep.
  assert (Hw2 : forall m, Mcts.node_heap w2 !! m
                = if decide (m = n) then Some (visited_once r nd)
                  else Mcts.node_heap w !! m).
  { intros m. unfold w2, w1. simpl. destruct (decide (m = n)) as [->|Hne].
    - apply lookup_insert_eq.
    - rewrite !lookup_insert_ne by congruence. reflexivity. }
  destruct (Mcts.parent nd) as [p|] eqn:Hpar.
  - assert (Hp2 : path_to_root w2 p rest).
    { apply (path_to_root_ext w); [|exact Hp].
      intros m Hm. rewrite Hw2. destruct (decide (m = n)) as [->|]; [|reflexivity].
      contradiction. }
    destruct (IH fuel p w2 Hp2 Hnd ltac:(lia)) as (w' & Hb & Hg & Hd & Hrng & Hlook).
    exists w'. split; [exact Hb|]. repeat split; try assumption.
    intros m. rewrite Hlook, Hw2.
    destruct (decide (m = n)) as [->|Hne].
    + rewrite decide_False by exact Hx.
      rewrite decide_True by left. rewrite Hn. reflexivity.
    + destruct (decide (m ∈ rest)) as [Hin|Hout].
      * rewrite decide_True by (right; exact Hin). reflexivity.
      * rewrite decide_False; [reflexivity|].
        intros Hin. apply elem_of_cons in Hin as [?|?]; contradiction.
  - subst rest. exists w2. split; [destruct fuel; reflexivity|].
    repeat split. intros m. rewrite Hw2.
    destruct (decide (m = n)) as [->|Hne].
    + rewrite decide_True by left. rewrite Hn. reflexivity.
    + rewrite decide_False; [reflexivity|].
      intros Hin. apply elem_of_cons in Hin as [?|Hin]; [contradiction|].
      inversion Hin.
Qed.

(** [X13] [backup] walks from the node to the root of its tree: every
    node on that path gets one more visit and the reward added to its
    value, exactly once; every other node, and everything outside the
    tree, is left as it was. The walk needs as many steps as the path is
    long. *)
Theorem X13_backup_updates_path (fuel : nat) (n : Mcts.loc) (reward : Mcts.pynum)
    (r : float) (path : list Mcts.loc) (w : Mcts.world) :
  Mcts.pynum_to_float reward = Ok r ->
  path_to_root w n path ->
  (length path <= fuel)%nat ->
  exists w',
    Mcts.backup fuel (Some n) reward w = (Mcts.Val tt, w')
    /\ Mcts.gs_heap w' = Mcts.gs_heap w
    /\ Mcts.deck_heap w' = Mcts.deck_heap w
    /\ Mcts.global_rng w' = Mcts.global_rng w
    /\ forall m,
         Mcts.node_heap w' !! m
         = if decide (m ∈ path) then visited_once r <$> Mcts.node_heap w !! m
           else Mcts.node_heap w !! m.
Proof.
  intros Hr Hp Hlen.
  apply (backup_path reward r path Hr fuel n w Hp); [|exact Hlen].
  eapply path_to_root_NoDup. exact Hp.
Qed.

End Backup.

(** An instance: a reward of 7 backed up from the child "stay" of
    [ex_tree] reaches that child and the root, and not the child "hit". *)
Lemma X13_backup_updates_path_witness :
  exists w',
    Mcts.backup 2 (Some 3%positive) (Mcts.PInt 7) ex_tree = (Mcts.Val tt, w')
    /\ Mcts.gs_heap w' = Mcts.gs_heap ex_tree
    /\ Mcts.deck_heap w' = Mcts.deck_heap ex_tree
    /\ Mcts.global_rng w' = Mcts.global_rng ex_tree
    /\ forall m,
         Mcts.node_heap w' !! m
         = if decide (m ∈ [3%positive; 1%positive])
           then visited_once 7%float <$> Mcts.node_heap ex_tree !! m
           else Mcts.node_heap ex_tree !! m.
Proof.
  apply (X13_backup_updates_path 2 3%positive (Mcts.PInt 7) 7%float
           [3%positive; 1%positive] ex_tree).
  - reflexivity.
  - simpl. split; [reflexivity|]. eexists. split; [reflexivity|]. simpl.
    split; [reflexivity|]. eexists. split; [reflexivity|]. reflexivity.
  - simpl. lia.
Defined.

(** ** Selection *)

Section Descent.
Context `{RT : PyRuntime}.

Lemma reads_mbind {A B : Type} (c : Mcts.M A) (k : A -> Mcts.M B) :
  reads_only c -> (forall a, reads_only (k a)) -> reads_only (Mcts.mbind c k).
Proof.
  intros Hc Hk w. unfold Mcts.mbind. specialize (Hc w).
  destruct (c w) as [[a|e| |] w1]; simpl in Hc; subst w1; try reflexivity.
  apply Hk.
Qed.

Lemma reads_get_node (n : Mcts.loc) : reads_only (Mcts.get_node n).
Proof. intros w. unfold Mcts.get_node. destruct (Mcts.node_heap w !! n); reflexivity. Qed.

Lemma reads_lift {A : Type} (r : result A) : reads_only (Mcts.lift r).
Proof. intros w. destruct r; reflexivity. Qed.

Lemma reads_ucb1 (n : Mcts.loc) (c_param : float) : reads_only (Mcts.ucb1 n c_param).
Proof.
  unfold Mcts.ucb1. apply reads_mbind; [apply reads_get_node|]. intros nd.
  destruct (Mcts.visits nd =? 0); [intros w; reflexivity|].
  destruct (Mcts.parent nd); [|apply reads_lift].
  apply reads_mbind; [apply reads_get_node|]. intros pn. apply reads_lift.
Qed.

Lemma reads_ucb1_all (choices : list Mcts.loc) (c_param : float) :
  reads_only (Mcts.ucb1_all choices c_param).
Proof.
  induction choices as [|ch rest IH]; simpl; [intros w; reflexivity|].
  apply reads_mbind; [apply reads_ucb1|]. intros s.
  apply reads_mbind; [exact IH|]. intros ss w. reflexivity.
Qed.

Lemma reads_best_child (node : Mcts.loc) (c_param : float) :
  reads_only (Mcts.best_child node c_param).
Proof.
  unfold Mcts.best_child. apply reads_mbind; [apply reads_get_node|]. intros nd.
  apply reads_mbind; [apply reads_ucb1_all|]. intros scores.
  apply reads_mbind; [apply reads_lift|]. intros m.
  apply reads_mbind; [apply reads_lift|]. intros i.
  destruct (map snd (Mcts.children nd) !! i); intros w; reflexivity.
Qed.

Lemma reads_select_leaf (fuel : nat) :
  forall node, reads_only (Mcts.select_leaf fuel node).
Proof.
  induction fuel as [|fuel IH]; intros node; simpl; [intros w; reflexivity|].
  apply reads_mbind; [apply reads_get_node|]. intros nd.
  destruct (Mcts.children nd); [intros w; reflexivity|].
  apply reads_mbind; [apply reads_best_child|]. intros ch. apply IH.
Qed.

Lemma reads_val {A : Type} (c : Mcts.M A) (w : Mcts.world) (a : A) :
  reads_only c -> fst (c w) = Mcts.Val a -> c w = (Mcts.Val a, w).
Proof.
  intros Hc Ha. specialize (Hc w). destruct (c w) as [r w1]. simpl in *.
  congruence.
Qed.

Lemma mbind_fst_inv {A B : Type} (c : Mcts.M A) (k : A -> Mcts.M B)
    (w : Mcts.world) (b : B) :
  reads_only c ->
  fst (Mcts.mbind c k w) = Mcts.Val b ->
  exists a, c w = (Mcts.Val a, w) /\ fst (k a w) = Mcts.Val b.
Proof.
  intros Hc H. destruct (Mcts.mbind c k w) as [r w'] eqn:E. simpl in H. subst r.
  apply mbind_inv in E as (a & w1 & Ha & Hk).
  pose proof (Hc w) as Hw. rewrite Ha in Hw. simpl in Hw. subst w1.
  exists a. split; [exact Ha|]. rewrite Hk. reflexivity.
Qed.

Lemma best_child_is_child (node : Mcts.loc) (c_param : float) (w : Mcts.world)
    (ch : Mcts.loc) :
  fst (Mcts.best_child node c_param w) = Mcts.Val ch -> child_of w node ch.
Proof.
  unfold Mcts.best_child. intros H.
  apply mbind_fst_inv in H as (nd & Hg & H); [|apply reads_get_node].
  apply get_node_inv in Hg as [_ Hn].
  apply mbind_fst_inv in H as (scores & _ & H); [|apply reads_ucb1_all].
  apply mbind_fst_inv in H as (m & _ & H); [|apply reads_lift].
  apply mbind_fst_inv in H as (i & _ & H); [|apply reads_lift].
  destruct (map snd (Mcts.children nd) !! i) as [c|] eqn:Hi; [|discriminate].
  injection H as <-.
  apply list_elem_of_lookup_2, list_elem_of_In, in_map_iff in Hi
    as ([a c'] & Hc & Hin).
  simpl in Hc. subst c'. exists nd, a. auto.
Qed.

(** [X14] The selection walk only reads the store, and the node it returns
    is reached from the root through children and has no children itself. *)
Theorem X14_tree_policy_returns_leaf (fuel : nat) (root : Mcts.loc)
    (w : Mcts.world) :
  snd (Mcts.tree_policy fuel root w) = w
  /\ forall m,
       fst (Mcts.tree_policy fuel root w) = Mcts.Val m ->
       rtc (child_of w) root m
       /\ exists nd, Mcts.node_heap w !! m = Some nd /\ Mcts.children nd = [].
Proof.
  unfold Mcts.tree_policy. split; [apply reads_select_leaf|].
  revert root. induction fuel as [|fuel IH]; intros root m; simpl; [discriminate|].
  intros H.
  apply mbind_fst_inv in H as (nd & Hg & H); [|apply reads_get_node].
  apply get_node_inv in Hg as [_ Hn].
  destruct (Mcts.children nd) as [|kv cs] eqn:Hcs.
  - injection H as <-. split; [apply rtc_refl|]. exists nd. auto.
  - apply mbind_fst_inv in H as (ch & Hb & H); [|apply reads_best_child].
    destruct (IH ch m H) as [Hrtc Hleaf]. split; [|exact Hleaf].
    eapply rtc_l; [|exact Hrtc].
    apply (best_child_is_child root 0x1.6666666666666p+0%float).
    rewrite Hb. reflexivity.
Qed.

End Descent.

(** ** The labels in the tree and the answer of a search *)

Section Labels.
Context `{RT : PyRuntime}.

Lemma triple_bind {A B : Type} (Pre : Mcts.world -> Prop) (c : Mcts.M A)
    (Mid : A -> Mcts.world -> Prop) (k : A -> Mcts.M B)
    (Post : B -> Mcts.world -> Prop) :
  triple Pre c Mid -> (forall a, triple (Mid a) (k a) Post) ->
  triple Pre (Mcts.mbind c k) Post.
Proof.
  intros Hc Hk w b w' Hpre H. apply mbind_inv in H as (a & w1 & Ha & Hb).
  eapply Hk; [eapply Hc; eassumption|exact Hb].
Qed.

Lemma triple_ret {A : Type} (a : A) (Post : A -> Mcts.world -> Prop) :
  triple (Post a) (Mcts.mret a) Post.
Proof. intros w b w' Hpre [= <- <-]. exact Hpre. Qed.

Lemma triple_ret_same {A : Type} (Inv : Mcts.world -> Prop) (a : A) :
  triple Inv (Mcts.mret a) (fun _ => Inv).
Proof. intros w b w' Hpre [= <- <-]. exact Hpre. Qed.

Lemma triple_pre {A : Type} (Pre Pre' : Mcts.world -> Prop) (c : Mcts.M A)
    (Post : A -> Mcts.world -> Prop) :
  (forall w, Pre' w -> Pre w) -> triple Pre c Post -> triple Pre' c Post.
Proof. intros Himp Hc w a w' Hpre H. eapply Hc; eauto. Qed.

Lemma nodes_same_mbind {A B : Type} (c : Mcts.M A) (k : A -> Mcts.M B) :
  nodes_same c -> (forall a, nodes_same (k a)) -> nodes_same (Mcts.mbind c k).
Proof.
  intros Hc Hk w. unfold Mcts.mbind. specialize (Hc w).
  destruct (c w) as [[a|e| |] w1]; simpl in *; try exact Hc.
  rewrite Hk. exact Hc.
Qed.

Lemma nodes_same_reads {A : Type} (c : Mcts.M A) : reads_only c -> nodes_same c.
Proof. intros H w. rewrite H. reflexivity. Qed.

Lemma nodes_same_load_state (l : Mcts.loc) : nodes_same (Mcts.load_state l).
Proof.
  intros w. unfold Mcts.load_state.
  destruct (Mcts.gs_heap w !! l) as [obj|]; [|reflexivity].
  destruct (Mcts.deck_heap w !! deck obj); reflexivity.
Qed.

Lemma nodes_same_store_state (l : Mcts.loc) (gs : GameState) :
  nodes_same (Mcts.store_state l gs).
Proof.
  intros w. unfold Mcts.store_state.
  destruct (Mcts.gs_heap w !! l); reflexivity.
Qed.

Lemma nodes_same_lift {A : Type} (r : result A) : nodes_same (Mcts.lift r).
Proof. apply nodes_same_reads, reads_lift. Qed.

Lemma nodes_same_call {A : Type} (l : Mcts.loc) (c : E A) :
  nodes_same (Mcts.call l c).
Proof.
  unfold Mcts.call. apply nodes_same_mbind; [apply nodes_same_load_state|].
  intros gs. destruct (c gs) as [r gs'].
  apply nodes_same_mbind; [apply nodes_same_store_state|]. intros ?; cbv beta.
  destruct r; intros w; reflexivity.
Qed.

Lemma nodes_same_clone (l : Mcts.loc) : nodes_same (Mcts.clone l).
Proof.
  intros w. unfold Mcts.clone.
  destruct (Mcts.gs_heap w !! l) as [obj|]; [|reflexivity].
  destruct (Mcts.deck_heap w !! deck obj); reflexivity.
Qed.

Lemma nodes_same_shuffle_deck (l : Mcts.loc) : nodes_same (Mcts.shuffle_deck l).
Proof.
  intros w. unfold Mcts.shuffle_deck.
  destruct (Mcts.gs_heap w !! l) as [obj|]; [|reflexivity].
  destruct (Mcts.deck_heap w !! deck obj) as [d|]; [|reflexivity].
  destruct (rng_shuffle (Mcts.global_rng w) (cards d)). reflexivity.
Qed.

Lemma nodes_same_choice {A : Type} (l : list A) : nodes_same (Mcts.choice l).
Proof.
  intros w. unfold Mcts.choice. destruct l as [|x l]; [reflexivity|].
  destruct (rng_randbelow (Mcts.global_rng w) (length (x :: l))). reflexivity.
Qed.

Lemma nodes_same_total_of (st : Mcts.loc) (player : Z) :
  nodes_same (Mcts.total_of st player).
Proof.
  unfold Mcts.total_of. apply nodes_same_mbind; [apply nodes_same_load_state|].
  intros gs. destruct (py_index (player_totals gs) player) as [i|];
    [|intros w; reflexivity].
  destruct (player_totals gs !! i); intros w; reflexivity.
Qed.

Lemma nodes_same_rollout_loop (fuel : nat) (st : Mcts.loc) :
  forall hit, nodes_same (Mcts.rollout_loop fuel st hit).
Proof.
  induction fuel as [|fuel IH]; intros hit; simpl; [intros w; reflexivity|].
  apply nodes_same_mbind; [apply nodes_same_load_state|]. intros gs.
  destruct (game_over gs || (Flip7Deck_remaining (deck gs) =? 0));
    [intros w; reflexivity|].
  destruct (legal_actions gs) as [|a0 acts]; [intros w; reflexivity|].
  apply nodes_same_mbind; [apply nodes_same_choice|]. intros act.
  apply nodes_same_mbind; [apply nodes_same_call|]. intros res.
  destruct (truthy (dict_get "round_end" res)); [intros w; reflexivity|apply IH].
Qed.

Lemma nodes_same_default_policy (agent : Mcts.MCTSAgent) (fuel : nat)
    (st0 : Mcts.loc) :
  nodes_same (Mcts.default_policy agent fuel st0).
Proof.
  unfold Mcts.default_policy.
  apply nodes_same_mbind; [apply nodes_same_clone|]. intros st.
  apply nodes_same_mbind; [apply nodes_same_load_state|]. intros gs.
  apply nodes_same_mbind; [apply nodes_same_total_of|]. intros s0.
  apply nodes_same_mbind; [apply nodes_same_rollout_loop|]. intros hit.
  apply nodes_same_mbind; [apply nodes_same_total_of|]. intros s1.
  destruct hit; [|intros w; reflexivity].
  destruct (Mcts.flip7_weight agent); [intros w; reflexivity|].
  apply nodes_same_mbind; [apply nodes_same_lift|]. intros rf w. reflexivity.
Qed.

Lemma labelled_same (w w' : Mcts.world) :
  Mcts.node_heap w' = Mcts.node_heap w -> labelled w -> labelled w'.
Proof. unfold labelled. intros ->. auto. Qed.

Lemma triple_nodes_same {A : Type} (c : Mcts.M A) :
  nodes_same c -> triple labelled c (fun _ => labelled).
Proof.
  intros Hc w a w' Hl H. apply (labelled_same w); [|exact Hl].
  rewrite <- (Hc w), H. reflexivity.
Qed.

Lemma labelled_insert (w : Mcts.world) (n : Mcts.loc) (nd : Mcts.Node) :
  labelled w ->
  Forall (fun kv => is_label (fst kv)) (Mcts.children nd) ->
  labelled (Mcts.set_node_heap (<[n := nd]> (Mcts.node_heap w)) w).
Proof.
  intros Hl Hnd m x. simpl. destruct (decide (n = m)) as [->|Hne].
  - rewrite lookup_insert_eq. intros [= <-]. exact Hnd.
  - rewrite lookup_insert_ne by exact Hne. apply Hl.
Qed.

Lemma triple_get_node (n : Mcts.loc) :
  triple labelled (Mcts.get_node n)
    (fun nd w => labelled w /\ Mcts.node_heap w !! n = Some nd).
Proof. intros w nd w' Hl H. apply get_node_inv in H as [-> Hn]. auto. Qed.

Lemma triple_put_node (n : Mcts.loc) (nd : Mcts.Node) :
  Forall (fun kv => is_label (fst kv)) (Mcts.children nd) ->
  triple labelled (Mcts.put_node n nd) (fun _ => labelled).
Proof.
  intros Hnd w u w' Hl H. unfold Mcts.put_node in H.
  destruct (Mcts.node_heap w !! n); [|discriminate].
  injection H as _ <-. apply labelled_insert; assumption.
Qed.

Lemma triple_new_node (st : Mcts.loc) (p : option Mcts.loc) (a : option string) :
  triple labelled (Mcts.new_node st p a) (fun _ => labelled).
Proof.
  intros w n w' Hl H. unfold Mcts.new_node in H. injection H as _ <-.
  apply labelled_insert; [exact Hl|constructor].
Qed.

Lemma expand_actions_labelled (node : Mcts.loc) (acts : list string) :
  Forall is_label acts ->
  triple labelled (Mcts.expand_actions node acts) (fun _ => labelled).
Proof.
  induction 1 as [|a rest Ha Hrest IH]; simpl; [apply triple_ret_same|].
  eapply triple_bind; [apply triple_get_node|]. intros nd.
  eapply (triple_bind _ _ (fun _ => labelled)); [|intros _; exact IH].
  destruct (Mcts.dict_mem a (Mcts.children nd)).
  { eapply triple_pre; [|apply triple_ret_same]. intros w [Hl _]. exact Hl. }
  eapply triple_pre; [intros w [Hl _]; exact Hl|].
  eapply triple_bind; [apply triple_nodes_same, nodes_same_clone|]. intros st.
  eapply triple_bind; [apply triple_nodes_same, nodes_same_shuffle_deck|]. intros ?; cbv beta.
  eapply triple_bind; [apply triple_new_node|]. intros ch.
  intros w u w' Hl H. apply mbind_inv in H as (nd' & w1 & Hg & H).
  apply get_node_inv in Hg as [-> Hn].
  eapply triple_put_node; [|exact Hl|exact H]. simpl.
  apply Forall_dict_set; [exact Ha|]. exact (Hl node nd' Hn).
Qed.

Lemma legal_actions_labels (gs : GameState) : Forall is_label (legal_actions gs).
Proof.
  unfold legal_actions.
  destruct (round_over gs || match winner gs with Some _ => true | None => false end);
    [constructor|].
  constructor; [left; reflexivity|]. constructor; [right; reflexivity|constructor].
Qed.

Lemma expand_labelled (node : Mcts.loc) :
  triple labelled (Mcts.expand node) (fun _ => labelled).
Proof.
  unfold Mcts.expand.
  eapply triple_bind; [apply triple_nodes_same, nodes_same_reads, reads_get_node|].
  intros nd.
  eapply triple_bind; [apply triple_nodes_same, nodes_same_load_state|]. intros gs.
  apply expand_actions_labelled, legal_actions_labels.
Qed.

Lemma backup_labelled (fuel : nat) (reward : Mcts.pynum) :
  forall node, triple labelled (Mcts.backup fuel node reward) (fun _ => labelled).
Proof.
  induction fuel as [|fuel IH]; intros [cur|]; simpl; try apply triple_ret_same.
  - intros w a w' _ H. discriminate.
  - intros w u w' Hl H.
    apply mbind_inv in H as (nd & w1 & Hg & H). apply get_node_inv in Hg as [-> Hn].
    apply mbind_inv in H as (u1 & w1 & Hp & H).
    assert (Hl1 : labelled w1).
    { eapply triple_put_node; [|exact Hl|exact Hp]. exact (Hl cur nd Hn). }
    apply mbind_inv in H as (r & w2 & Hr & H).
    assert (w2 = w1) by (pose proof (reads_lift (Mcts.pynum_to_float reward) w1) as E;
                         rewrite Hr in E; exact E).
    subst w2.
    apply mbind_inv in H as (nd1 & w2 & Hg & H). apply get_node_inv in Hg as [-> Hn1].
    apply mbind_inv in H as (u2 & w2 & Hp2 & H).
    assert (Hl2 : labelled w2).
    { eapply triple_put_node; [|exact Hl1|exact Hp2]. exact (Hl1 cur nd1 Hn1). }
    eapply IH; eassumption.
Qed.

Lemma simulate_once_labelled (agent : Mcts.MCTSAgent) (fuel : nat) (root : Mcts.loc) :
  triple labelled (Mcts.simulate_once agent fuel root) (fun _ => labelled).
Proof.
  unfold Mcts.simulate_once.
  eapply triple_bind;
    [apply triple_nodes_same, nodes_same_reads, reads_select_leaf|]. intros node.
  eapply triple_bind; [apply triple_nodes_same, nodes_same_reads, reads_get_node|].
  intros nd.
  eapply (triple_bind _ _ (fun _ => labelled)).
  { destruct (Mcts.visits nd >? 0); [|apply triple_ret_same].
    eapply triple_bind; [apply expand_labelled|]. intros ?; cbv beta.
    eapply triple_bind; [apply triple_nodes_same, nodes_same_reads, reads_get_node|].
    intros nd'. destruct (Mcts.children nd'); [apply triple_ret_same|].
    apply triple_nodes_same, nodes_same_choice. }
  intros node'.
  eapply triple_bind; [apply triple_nodes_same, nodes_same_reads, reads_get_node|].
  intros nd2.
  eapply triple_bind; [apply triple_nodes_same, nodes_same_clone|]. intros det.
  eapply triple_bind; [apply triple_nodes_same, nodes_same_shuffle_deck|]. intros ?; cbv beta.
  eapply triple_bind; [apply triple_nodes_same, nodes_same_default_policy|].
  intros ri. apply backup_labelled.
Qed.

Lemma simulate_many_labelled (agent : Mcts.MCTSAgent) (fuel : nat) (root : Mcts.loc)
    (n : nat) :
  triple labelled (Mcts.simulate_many agent fuel root n) (fun _ => labelled).
Proof.
  induction n as [|n IH]; simpl; [apply triple_ret_same|].
  eapply triple_bind; [apply simulate_once_labelled|]. intros ?; cbv beta. exact IH.
Qed.

Lemma reads_pick_best (items : list (string * Mcts.loc)) :
  forall best_act best_score,
    reads_only (Mcts.pick_best items best_act best_score).
Proof.
  induction items as [|[a child] rest IH]; intros best_act best_score; simpl;
    [intros w; reflexivity|].
  apply reads_mbind; [apply reads_get_node|]. intros ch.
  apply reads_mbind.
  { destruct (Mcts.visits ch =? 0); [intros w; reflexivity|].
    apply reads_mbind; [apply reads_lift|]. intros vf. apply reads_lift. }
  intros score. destruct (best_score <? score)%float; apply IH.
Qed.

Lemma pick_best_result (items : list (string * Mcts.loc)) :
  forall best_act best_score w r,
    fst (Mcts.pick_best items best_act best_score w) = Mcts.Val r ->
    r = best_act \/ exists a c, r = Some a /\ In (a, c) items.
Proof.
  induction items as [|[a child] rest IH]; intros best_act best_score w r; simpl.
  - intros [= <-]. left. reflexivity.
  - intros H.
    apply mbind_fst_inv in H as (ch & _ & H); [|apply reads_get_node].
    apply mbind_fst_inv in H as (score & _ & H).
    2:{ destruct (Mcts.visits ch =? 0); [intros w0; reflexivity|].
        apply reads_mbind; [apply reads_lift|]. intros vf. apply reads_lift. }
    destruct (best_score <? score)%float; apply IH in H.
    + destruct H as [->|(a' & c & -> & Hin)]; right; eauto 6.
    + destruct H as [->|(a' & c & -> & Hin)]; [left; reflexivity|right; eauto 6].
Qed.

(** [X15] In a store whose tree nodes carry children under the labels
    "hit" and "stay" only (an empty tree, or the trees earlier searches have
    left), a search that returns gives [None], "hit" or "stay", and leaves
    a store of the same kind. *)
Theorem X15_run_answers_hit_or_stay (agent : Mcts.MCTSAgent) (fuel : nat)
    (root_state : Mcts.loc) (sims_arg : option Z) (w w' : Mcts.world)
    (r : option string) :
  labelled w ->
  Mcts.run agent fuel root_state sims_arg w = (Mcts.Val r, w') ->
  (r = None \/ r = Some "hit" \/ r = Some "stay") /\ labelled w'.
Proof.
  intros Hl H. unfold Mcts.run in H.
  apply mbind_inv in H as (st & w1 & Hd & H).
  assert (Hl1 : labelled w1).
  { apply (labelled_same w); [|exact Hl].
    unfold Mcts.determinize in Hd.
    pose proof (nodes_same_mbind _ _ (nodes_same_clone root_state)
                  (fun st' => nodes_same_mbind _ (fun _ => Mcts.mret st')
                     (nodes_same_shuffle_deck st')
                     (fun _ w0 => eq_refl)) w) as E.
    rewrite Hd in E. exact E. }
  apply mbind_inv in H as (root & w2 & Hn & H).
  pose proof (triple_new_node _ _ _ _ _ _ Hl1 Hn) as Hl2.
  apply mbind_inv in H as (u & w3 & He & H).
  pose proof (expand_labelled _ _ _ _ Hl2 He) as Hl3.
  apply mbind_inv in H as (u' & w4 & Hs & H).
  pose proof (simulate_many_labelled _ _ _ _ _ _ _ Hl3 Hs) as Hl4.
  apply mbind_inv in H as (rn & w5 & Hg & H).
  apply get_node_inv in Hg as [-> Hrn].
  pose proof (reads_pick_best (Mcts.children rn) None neg_infinity w4) as Hw.
  rewrite H in Hw. simpl in Hw. subst w'. split; [|exact Hl4].
  destruct (pick_best_result (Mcts.children rn) None neg_infinity w4 r)
    as [->|(a & c & -> & Hin)]; [rewrite H; reflexivity|left; reflexivity|].
  right. pose proof (Hl4 root rn Hrn) as Hk.
  rewrite Forall_forall in Hk. specialize (Hk (a, c)).
  destruct Hk as [Hk|Hk]; [apply list_elem_of_In; exact Hin|..];
    simpl in Hk; subst a; auto.
Qed.

End Labels.

(** An instance: five simulations on a fresh two-player game, started
    with an empty tree. *)
Lemma X15_run_answers_hit_or_stay_witness :
  fst (Mcts.run ex_agent 1000 1%positive (Some 5) ex_world) = Mcts.Val (Some "stay")
  /\ labelled (snd (Mcts.run ex_agent 1000 1%positive (Some 5) ex_world)).
Proof.
  assert (Hfst : fst (Mcts.run ex_agent 1000 1%positive (Some 5) ex_world)
                 = Mcts.Val (Some "stay")) by (vm_compute; reflexivity).
  split; [exact Hfst|].
  destruct (Mcts.run ex_agent 1000 1%positive (Some 5) ex_world) as [r w'] eqn:E.
  simpl in Hfst. subst r. simpl.
  apply (X15_run_answers_hit_or_stay ex_agent 1000 1%positive (Some 5) ex_world w'
           (Some "stay")); [|exact E].
  intros n nd Hn.
  change (Mcts.node_heap ex_world) with (∅ : gmap Mcts.loc Mcts.Node) in Hn.
  rewrite lookup_empty in Hn. discriminate.
Defined.

(** ** The reward of a rollout *)

Section Reward.
Context `{RT : PyRuntime}.








End Reward.


(** ** The baseline agents *)

Section Baselines.
Context `{RT : PyRuntime}.

Lemma choice_member {A : Type} (l : list A) (w w' : Mcts.world) (a : A) :
  Mcts.choice l w = (Mcts.Val a, w') ->
  In a l
  /\ Mcts.gs_heap w' = Mcts.gs_heap w
  /\ Mcts.deck_heap w' = Mcts.deck_heap w
  /\ Mcts.node_heap w' = Mcts.node_heap w.
Proof.
  unfold Mcts.choice. destruct l as [|x l]; [discriminate|].
  destruct (rng_randbelow (Mcts.global_rng w) (length (x :: l))) as [k g].
  intros H.
  assert (Ha : a = nth (k mod length (x :: l)) (x :: l) x) by congruence.
  assert (Hw : w' = Mcts.set_global_rng g w) by congruence.
  rewrite Ha, Hw. split; [|auto].
  apply nth_In, Nat.mod_upper_bound. discriminate.
Qed.

(** [X17] On a state of a running game with at least one player whose
    decks hold typed cards only, the heuristic agent answers a legal
    action, and it answers "stay" exactly when the score the engine would
    bank for the line is at least 15: the sum it computes itself leaves out
    the bonus for seven numbers, which no line between two actions can
    earn. *)
Theorem X17_heuristic_follows_engine_score (gs : GameState) :
  played gs -> 0 < num_players gs -> winner gs = None ->
  In (Harness.Heuristic_choose_action gs) (legal_actions gs)
  /\ (Harness.Heuristic_choose_action gs = "stay" <-> 15 <= _sum_current_score gs)
  /\ (Harness.Heuristic_choose_action gs = "hit" <-> _sum_current_score gs < 15).
Proof.
  intros Hp Hpos Hw. pose proof (played_reachable gs Hp) as Hr.
  pose proof (reachable_flag gs Hr Hpos) as Hflag.
  destruct (reachable_line gs Hr Hpos) as [_ (Hnd & Hlen & _)].
  unfold Harness.Heuristic_choose_action, _sum_current_score.
  rewrite (legal_actions_open gs Hflag Hw).
  rewrite (distinct_count_NoDup _ Hnd).
  change (negb (existsb (String.eqb "stay") ["hit"; "stay"])
          && negb (existsb (String.eqb "hit") ["hit"; "stay"])) with false.
  cbv iota zeta.
  destruct (Z.of_nat (length (current_numbers gs)) >=? 7) eqn:E7; [lia|].
  destruct ((if x2 gs then py_sum (current_numbers gs) * 2
             else py_sum (current_numbers gs)) + flat_modifiers gs >=? 15) eqn:E.
  - split; [right; left; reflexivity|]. split; split; intros H;
      first [reflexivity | discriminate | lia].
  - split; [left; reflexivity|]. split; split; intros H;
      first [reflexivity | discriminate | lia].
Qed.

(** [X18] The random agent answers "stay" without touching the store when
    the state has no legal action, and otherwise one of the legal actions,
    having advanced nothing but the generator of the [random] module. *)
Theorem X18_random_agent_answers_legal (st : Mcts.loc) (w : Mcts.world)
    (gs : GameState) :
  Mcts.load_state st w = (Mcts.Val gs, w) ->
  exists a w',
    Harness.Random_choose_action st w = (Mcts.Val a, w')
    /\ Mcts.gs_heap w' = Mcts.gs_heap w
    /\ Mcts.deck_heap w' = Mcts.deck_heap w
    /\ Mcts.node_heap w' = Mcts.node_heap w
    /\ (legal_actions gs = [] -> a = "stay" /\ w' = w)
    /\ (legal_actions gs <> [] -> In a (legal_actions gs)).
Proof.
  intros Hload. unfold Harness.Random_choose_action.
  rewrite (mbind_val _ _ _ _ _ Hload).
  destruct (legal_actions gs) as [|a0 acts] eqn:Hacts.
  - exists "stay", w. repeat split; try reflexivity. intros H. congruence.
  - destruct (Mcts.choice (a0 :: acts) w) as [r w'] eqn:Hc.
    assert (Hr : exists a, r = Mcts.Val a).
    { unfold Mcts.choice in Hc.
      destruct (rng_randbelow (Mcts.global_rng w) (length (a0 :: acts))).
      injection Hc as <- _. eauto. }
    destruct Hr as [a ->].
    destruct (choice_member _ _ _ _ Hc) as (Hin & Hg & Hd & Hn).
    exists a, w'. repeat split; try assumption; congruence.
Qed.

End Baselines.

Lemma X17_heuristic_follows_engine_score_witness :
  Harness.Heuristic_choose_action ex_game = "hit"
  /\ _sum_current_score ex_game < 15.
Proof.
  assert (Hr : played ex_game).
  { apply (played_init 2 None (Some 42) 0 ex_game); [reflexivity|].
    apply card_typed_check. vm_compute. reflexivity. }
  destruct (X17_heuristic_follows_engine_score ex_game Hr) as (_ & _ & Hhit);
    [reflexivity|reflexivity|].
  split; [reflexivity|]. apply Hhit. reflexivity.
Defined.

Lemma X18_random_agent_answers_legal_witness :
  exists a w',
    Harness.Random_choose_action 1%positive ex_world = (Mcts.Val a, w')
    /\ Mcts.gs_heap w' = Mcts.gs_heap ex_world
    /\ Mcts.deck_heap w' = Mcts.deck_heap ex_world
    /\ Mcts.node_heap w' = Mcts.node_heap ex_world
    /\ (legal_actions ex_game = [] -> a = "stay" /\ w' = ex_world)
    /\ (legal_actions ex_game <> [] -> In a (legal_actions ex_game)).
Proof.
  apply (X18_random_agent_answers_legal 1%positive ex_world ex_game). reflexivity.
Defined.

(** ** A full game *)

Section PlayGame.
Context `{RT : PyRuntime}.

Lemma new_game_inv (n : Z) (seed : option Z) (env : Z) (w w' : Mcts.world)
    (st : Mcts.loc) :
  Harness.new_game n seed env w = (Mcts.Val st, w') ->
  exists gs,
    GameState_init n None seed env = Ok gs
    /\ Mcts.load_state st w' = (Mcts.Val gs, w')
    /\ Mcts.gs_heap w !! st = None
    /\ frame w w'.
Proof.
  unfold Harness.new_game.
  destruct (GameState_init n None seed env) as [gs|e]; [|discriminate].
  assert (Hl : Mcts.gs_heap w !! fresh (dom (Mcts.gs_heap w)) = None)
    by (apply not_elem_of_dom, is_fresh).
  assert (Hd : Mcts.deck_heap w !! fresh (dom (Mcts.deck_heap w)) = None)
    by (apply not_elem_of_dom, is_fresh).
  generalize dependent (fresh (dom (Mcts.deck_heap w))).
  generalize dependent (fresh (dom (Mcts.gs_heap w))).
  intros l Hl d Hd [= <- <-]. exists gs. split; [reflexivity|].
  split; [|split; [exact Hl|]].
  - unfold Mcts.load_state. simpl. rewrite lookup_insert_eq. simpl.
    rewrite lookup_insert_eq. rewrite with_deck_twice, with_deck_deck. reflexivity.
  - split; [split|]; simpl.
    + intros k o Hk. rewrite lookup_insert_ne; [exact Hk|]. intros <-. congruence.
    + intros k o Hk. rewrite lookup_insert_ne; [exact Hk|]. intros <-. congruence.
    + intros k o Hk Hk0. simpl in Hk. destruct (decide (l = k)) as [<-|Hne].
      * rewrite lookup_insert_eq in Hk. injection Hk as <-. simpl. exact Hd.
      * rewrite lookup_insert_ne in Hk by exact Hne. congruence.
Qed.

Lemma safe_agent_action (w0 : Mcts.world) (fuel : nat) (ag : Harness.agent)
    (st : Mcts.loc) :
  safe w0 (fun _ => True) (Harness.agent_action fuel ag st).
Proof.
  destruct ag as [a| |]; simpl.
  - apply safe_run.
  - unfold Harness.Random_choose_action.
    apply safe_seq; [|intros a; apply safe_mret; exact I].
    apply safe_seq; [apply safe_load_state|]. intros gs.
    destruct (legal_actions gs); [apply safe_mret; exact I|apply safe_choice].
  - apply safe_seq; [apply safe_load_state|]. intros gs. apply safe_mret. exact I.
Qed.

Lemma safe_play_loop (w0 : Mcts.world) (fuel : nat) (agents : list Harness.agent)
    (st : Mcts.loc) :
  Mcts.gs_heap w0 !! st = None ->
  forall turns, safe w0 (fun _ => True) (Harness.play_loop turns fuel agents st).
Proof.
  intros Hst. induction turns as [|turns IH]; simpl; [apply safe_mtimeout|].
  apply safe_seq; [apply safe_load_state|]. intros gs.
  destruct (game_over gs); [apply safe_mret; exact I|].
  destruct (py_index agents (current_player gs)) as [i|]; [|apply safe_mraise].
  destruct (agents !! i) as [ag|]; [|apply safe_mraise].
  apply safe_seq; [apply safe_agent_action|]. intros act.
  apply safe_seq; [|intros _; exact IH].
  destruct act as [a|]; simpl.
  - apply safe_call. exact Hst.
  - apply safe_seq; [apply safe_load_state|]. intros _. apply safe_mraise.
Qed.

Lemma agent_action_keeps (fuel : nat) (ag : Harness.agent) (st : Mcts.loc)
    (w w' : Mcts.world) (gs : GameState) (act : option string) :
  Mcts.load_state st w = (Mcts.Val gs, w) ->
  Harness.agent_action fuel ag st w = (Mcts.Val act, w') ->
  Mcts.load_state st w' = (Mcts.Val gs, w').
Proof.
  intros Hload H.
  destruct (safe_agent_action w fuel ag st w (frame_refl w)) as [[Hp _] _].
  rewrite H in Hp. apply (load_state_preserved w); [exact Hp|].
  rewrite Hload. reflexivity.
Qed.

Lemma apply_ok_legal (a : string) (gs gs1 : GameState) (res : pydict) :
  apply_action a gs = (Ok res, gs1) -> In a (legal_actions gs).
Proof.
  unfold apply_action. unfold ebind at 1. unfold eget at 1.
  destruct (existsb (String.eqb a) (legal_actions gs)) eqn:E; [|discriminate].
  intros _. apply existsb_exists in E as (x & Hin & Hx).
  apply String.eqb_eq in Hx. subst x. exact Hin.
Qed.

Lemma apply_answer_inv (st : Mcts.loc) (act : option string) (w w' : Mcts.world)
    (gs : GameState) (res : pydict) :
  Mcts.load_state st w = (Mcts.Val gs, w) ->
  Harness.apply_answer st act w = (Mcts.Val res, w') ->
  exists a gs1,
    act = Some a
    /\ apply_action a gs = (Ok res, gs1)
    /\ Mcts.load_state st w' = (Mcts.Val gs1, w').
Proof.
  intros Hload H. destruct act as [a|]; simpl in H.
  - destruct (load_state_inv _ _ _ _ Hload) as (_ & obj & d & Ho & Hd & ->).
    destruct (call_val w st (apply_action a) obj d Ho Hd) as [Hcall Hload2].
    cbv zeta in Hcall, Hload2. rewrite Hcall in H.
    destruct (apply_action a (with_deck d obj)) as [[out|e] gs1] eqn:Happ;
      simpl in H, Hload2; [|discriminate].
    injection H as <- <-. exists a, gs1. auto.
  - rewrite (mbind_val _ _ _ _ _ Hload) in H. discriminate.
Qed.

Lemma heuristic_answer (fuel : nat) (st : Mcts.loc) (w w' : Mcts.world)
    (gs : GameState) (act : option string) :
  Mcts.load_state st w = (Mcts.Val gs, w) ->
  Harness.agent_action fuel Harness.AgentHeuristic st w = (Mcts.Val act, w') ->
  act = Some (Harness.Heuristic_choose_action gs).
Proof.
  intros Hload H. simpl in H. rewrite (mbind_val _ _ _ _ _ Hload) in H.
  unfold Mcts.mret in H. congruence.
Qed.

(** The loop plays a trace of the game on the state object it was given. *)
Lemma play_loop_inv (fuel : nat) (agents : list Harness.agent) (st : Mcts.loc)
    (turns : nat) :
  forall (w w' : Mcts.world) (gs : GameState) (r : option Z),
    Mcts.load_state st w = (Mcts.Val gs, w) ->
    Harness.play_loop turns fuel agents st w = (Mcts.Val r, w') ->
    exists acts gs',
      game_trace agents gs acts gs'
      /\ (length acts < turns)%nat
      /\ Mcts.load_state st w' = (Mcts.Val gs', w')
      /\ r = winner gs'.
Proof.
  induction turns as [|turns IH]; intros w w' gs r Hload; simpl;
    [discriminate|].
  rewrite (mbind_val _ _ _ _ _ Hload).
  destruct (game_over gs) eqn:Hgo.
  { unfold Mcts.mret. intros [= <- <-]. exists [], gs.
    split; [constructor; exact Hgo|]. split; [simpl; lia|]. auto. }
  destruct (py_index agents (current_player gs)) as [i|] eqn:Hi; [|discriminate].
  destruct (agents !! i) as [ag|] eqn:Hag; [|discriminate].
  intros H. apply mbind_inv in H as (act & w1 & Hact & H).
  pose proof (agent_action_keeps _ _ _ _ _ _ _ Hload Hact) as Hload1.
  apply mbind_inv in H as (res & w2 & Hans & H).
  destruct (apply_answer_inv _ _ _ _ _ _ Hload1 Hans) as (a & gs1 & -> & Happ & Hload2).
  destruct (IH _ _ _ _ Hload2 H) as (acts & gs' & Htr & Hlen & Hl & ->).
  exists (a :: acts), gs'. split; [|split; [simpl; lia|auto]].
  apply (trace_turn agents gs i ag a res gs1 acts gs' Hgo Hi Hag); try assumption.
  split; [eapply apply_ok_legal; exact Happ|].
  destruct ag; try exact I.
  pose proof (heuristic_answer _ _ _ _ _ _ Hload Hact) as E. congruence.
Qed.

Lemma game_trace_reachable (agents : list Harness.agent) (gs gs' : GameState)
    (acts : list string) :
  game_trace agents gs acts gs' ->
  reachable gs ->
  reachable gs' /\ num_players gs' = num_players gs /\ game_over gs' = true.
Proof.
  induction 1 as [gs Hgo|gs i ag a res gs1 acts gs' Hgo Hi Hag Hans Happ Htr IH];
    intros Hr; [auto|].
  assert (Hr1 : reachable gs1).
  { replace gs1 with (snd (apply_action a gs)) by (rewrite Happ; reflexivity).
    apply reach_action. exact Hr. }
  destruct (IH Hr1) as (Hr' & Hn & Hgo'). split; [exact Hr'|]. split; [|exact Hgo'].
  rewrite Hn. destruct (apply_action_turn a gs) as [Hn' _].
  rewrite Happ in Hn'. exact Hn'.
Qed.

(** [X19] When [play_game] returns, the state object it has created holds
    a finished game that the agents have played from the newly constructed
    state: every action was answered by the agent in the seat of the
    active player (the heuristic agent's by its rule) and accepted by
    [apply_action], in fewer turns than the loop was allowed. The value
    returned is the winner of that final state, the index of one of the
    agents, and that player's total there is at least 200. Every game
    state and deck that was in the store before is unchanged. *)
Theorem X19_play_game_returns_a_winner (turns fuel : nat)
    (agents : list Harness.agent) (seed : option Z) (env : Z)
    (w w' : Mcts.world) (r : option Z) :
  Harness.play_game turns fuel agents seed env w = (Mcts.Val r, w') ->
  preserves w w'
  /\ exists (q t : Z) (gs0 gs : GameState) (acts : list string),
       GameState_init (Z.of_nat (length agents)) None seed env = Ok gs0
       /\ game_trace agents gs0 acts gs
       /\ (length acts < turns)%nat
       /\ Mcts.gs_heap w !! fresh (dom (Mcts.gs_heap w)) = None
       /\ Mcts.load_state (fresh (dom (Mcts.gs_heap w))) w' = (Mcts.Val gs, w')
       /\ r = Some q
       /\ winner gs = Some q
       /\ 0 <= q < Z.of_nat (length agents)
       /\ reachable gs
       /\ player_totals gs !! Z.to_nat q = Some t
       /\ 200 <= t.
Proof.
  unfold Harness.play_game. intros H.
  apply mbind_inv in H as (st & w1 & Hnew & H).
  destruct (new_game_inv _ _ _ _ _ _ Hnew) as (gs0 & Hinit & Hload & Hfresh & Hframe).
  assert (Hst : st = fresh (dom (Mcts.gs_heap w))).
  { unfold Harness.new_game in Hnew.
    destruct (GameState_init (Z.of_nat (length agents)) None seed env);
      [|discriminate].
    injection Hnew as <- _. reflexivity. }
  split.
  { destruct (safe_play_loop w fuel agents st Hfresh turns w1 Hframe) as [[Hp _] _].
    rewrite H in Hp. exact Hp. }
  assert (Hr0 : reachable gs0) by (econstructor; exact Hinit).
  assert (Hn0 : num_players gs0 = Z.of_nat (length agents)).
  { unfold GameState_init in Hinit.
    destruct (Flip7Deck_init seed env); [|discriminate].
    injection Hinit as <-. reflexivity. }
  destruct (play_loop_inv _ _ _ _ _ _ _ _ Hload H) as (acts & gs & Htr & Hlen & Hl & ->).
  destruct (game_trace_reachable _ _ _ _ Htr Hr0) as (Hr & Hn & Hgo).
  destruct (reachable_inv gs Hr) as [[Hlt _] [Hwin _]].
  unfold game_over in Hgo. destruct (winner gs) as [q|] eqn:Hw; [|discriminate].
  destruct (Hwin q eq_refl) as (p & t & -> & Ht & H200).
  exists (Z.of_nat p), t, gs0, gs, acts.
  split; [exact Hinit|]. split; [exact Htr|]. split; [exact Hlen|].
  rewrite <- Hst. split; [exact Hfresh|]. split; [exact Hl|].
  split; [reflexivity|]. split; [exact Hw|].
  split.
  { apply lookup_lt_Some in Ht. rewrite Hlt, Hn, Hn0 in Ht. lia. }
  split; [exact Hr|]. split; [rewrite Nat2Z.id; exact Ht|exact H200].
Qed.

End PlayGame.

(** An instance: two heuristic agents on a deck shuffled with seed 42; the
    second agent wins, and the game already in the store is untouched. *)
Lemma X19_play_game_returns_a_winner_witness :
  fst (Harness.play_game 500 100 [Harness.AgentHeuristic; Harness.AgentHeuristic]
         (Some 42) 0 ex_world) = Mcts.Val (Some 1)
  /\ preserves ex_world
       (snd (Harness.play_game 500 100
               [Harness.AgentHeuristic; Harness.AgentHeuristic] (Some 42) 0 ex_world))
  /\ exists (t : Z) (gs0 gs : GameState) (acts : list string),
       GameState_init 2 None (Some 42) 0 = Ok gs0
       /\ game_trace [Harness.AgentHeuristic; Harness.AgentHeuristic] gs0 acts gs
       /\ Mcts.load_state (fresh (dom (Mcts.gs_heap ex_world)))
            (snd (Harness.play_game 500 100
                    [Harness.AgentHeuristic; Harness.AgentHeuristic]
                    (Some 42) 0 ex_world))
          = (Mcts.Val gs,
             snd (Harness.play_game 500 100
                    [Harness.AgentHeuristic; Harness.AgentHeuristic]
                    (Some 42) 0 ex_world))
       /\ winner gs = Some 1
       /\ player_totals gs !! 1%nat = Some t
       /\ 200 <= t.
Proof.
  assert (Hfst : fst (Harness.play_game 500 100
                        [Harness.AgentHeuristic; Harness.AgentHeuristic]
                        (Some 42) 0 ex_world) = Mcts.Val (Some 1))
    by (vm_compute; reflexivity).
  split; [exact Hfst|].
  destruct (Harness.play_game 500 100 [Harness.AgentHeuristic; Harness.AgentHeuristic]
              (Some 42) 0 ex_world) as [r w'] eqn:E.
  simpl in Hfst. subst r. simpl.
  destruct (X19_play_game_returns_a_winner 500 100
              [Harness.AgentHeuristic; Harness.AgentHeuristic] (Some 42) 0
              ex_world w' (Some 1) E)
    as (Hp & q & t & gs0 & gs & acts & Hinit & Htr & _ & _ & Hl & Hq & Hw & _ & _
        & Ht & H200).
  injection Hq as <-.
  split; [exact Hp|]. exists t, gs0, gs, acts.
  split; [exact Hinit|]. split; [exact Htr|]. split; [exact Hl|].
  split; [exact Hw|]. split; [exact Ht|exact H200].
Defined.

(** ** The action a search settles on *)

Lemma ltb_neg_infinity_r (x : float) : (x <? neg_infinity)%float = false.
Proof.
  rewrite FloatAxioms.ltb_spec.
  change (Prim2SF neg_infinity) with (S754_infinity true).
  destruct (Prim2SF x) as [s| [|] | |s m e]; reflexivity.
Qed.

Section Answer.
Context `{RT : PyRuntime}.

Lemma pick_best_visited (items : list (string * Mcts.loc)) (w : Mcts.world) :
  forall (best_act : option string) (best_score : float) (r : option string),
    fst (Mcts.pick_best items best_act best_score w) = Mcts.Val r ->
    r = best_act
    \/ exists a c nd,
         r = Some a /\ In (a, c) items
         /\ Mcts.node_heap w !! c = Some nd /\ Mcts.visits nd <> 0.
Proof.
  induction items as [|[a child] rest IH]; intros best_act best_score r; simpl.
  - intros [= <-]. left. reflexivity.
  - intros H.
    apply mbind_fst_inv in H as (ch & Hg & H); [|apply reads_get_node].
    apply get_node_inv in Hg as [_ Hch].
    destruct (Mcts.visits ch =? 0) eqn:Hv.
    + rewrite (mbind_val _ _ w w neg_infinity) in H by reflexivity.
      rewrite ltb_neg_infinity_r in H.
      destruct (IH _ _ _ H) as [->|(a' & c & nd & -> & Hin & Hnd)];
        [left; reflexivity|right; eauto 8].
    + apply mbind_fst_inv in H as (score & _ & H).
      2:{ apply reads_mbind; [apply reads_lift|]. intros vf. apply reads_lift. }
      destruct (best_score <? score)%float; apply IH in H.
      * destruct H as [->|(a' & c & nd & -> & Hin & Hnd)]; right.
        -- exists a, child, ch. repeat split; [left; reflexivity|exact Hch|lia].
        -- eauto 8.
      * destruct H as [->|(a' & c & nd & -> & Hin & Hnd)];
          [left; reflexivity|right; eauto 8].
Qed.

(** [X20] The closing loop of [run] never settles on a child without
    visits: an action it returns labels a child of the root that at least
    one simulation has gone through, because an unvisited child scores
    [-inf] and nothing compares below [-inf]. *)
Theorem X20_chosen_child_was_visited (items : list (string * Mcts.loc))
    (w : Mcts.world) (a : string) :
  fst (Mcts.pick_best items None neg_infinity w) = Mcts.Val (Some a) ->
  exists c nd,
    In (a, c) items
    /\ Mcts.node_heap w !! c = Some nd
    /\ Mcts.visits nd <> 0.
Proof.
  intros H.
  destruct (pick_best_visited items w None neg_infinity (Some a) H)
    as [Hnone|(a' & c & nd & [= <-] & Hin & Hnd)]; [discriminate|].
  exists c, nd. exact (conj Hin Hnd).
Qed.

End Answer.

(** An instance: over [ex_tree] the loop settles on "hit", the visited
    child. *)
Lemma X20_chosen_child_was_visited_witness :
  exists c nd,
    In ("hit", c) [("hit", 2%positive); ("stay", 3%positive)]
    /\ Mcts.node_heap ex_tree !! c = Some nd
    /\ Mcts.visits nd <> 0.
Proof.
  apply (X20_chosen_child_was_visited
           [("hit", 2%positive); ("stay", 3%positive)] ex_tree "hit").
  reflexivity.
Defined.

(** ** Hit against stay *)

Section VsStayFacts.
Context `{RT : PyRuntime}.
Variable int_truediv : Z -> Z -> result float.

Lemma try_apply_world (st : Mcts.loc) (a : string) (w : Mcts.world) :
  snd (VsStay.try_apply st a w) = snd (Mcts.call st (apply_action a) w).
Proof.
  unfold VsStay.try_apply.
  destruct (Mcts.call st (apply_action a) w) as [[res|e| |] w']; try reflexivity.
  destruct e; reflexivity.
Qed.

Lemma safe_try_apply (w0 : Mcts.world) (st : Mcts.loc) (a : string) :
  Mcts.gs_heap w0 !! st = None ->
  safe w0 (fun _ => True) (VsStay.try_apply st a).
Proof.
  intros Hst w Hw. rewrite try_apply_world.
  split; [apply (safe_call w0 st (apply_action a) Hst w Hw)|auto].
Qed.

Lemma safe_scenario (w0 : Mcts.world) (fuel : nat) (weight : Mcts.pynum)
    (state : Mcts.loc) (a : string) :
  safe w0 (fun _ => True) (VsStay.scenario fuel weight state a).
Proof.
  unfold VsStay.scenario.
  apply (safe_after w0 _ _ _ (safe_clone w0 _)). intros st Hst.
  apply safe_seq; [apply safe_shuffle_deck; exact Hst|]. intros _.
  apply safe_seq; [apply safe_try_apply; exact Hst|]. intros [res|];
    [|apply safe_mret; exact I].
  apply safe_seq; [apply safe_default_policy|]. intros ri.
  apply safe_mret. exact I.
Qed.

Lemma safe_add_reward (w0 : Mcts.world) (acc : float) (reward : Mcts.pynum) :
  safe w0 (fun _ => True) (VsStay.add_reward acc reward).
Proof.
  unfold VsStay.add_reward. apply safe_seq; [apply safe_lift|]. intros r.
  apply safe_mret. exact I.
Qed.

Lemma safe_iteration (w0 : Mcts.world) (fuel : nat) (weight : Mcts.pynum)
    (state : Mcts.loc) (c : VsStay.counters) :
  safe w0 (fun _ => True) (VsStay.iteration fuel weight state c).
Proof.
  unfold VsStay.iteration.
  apply safe_seq; [apply safe_scenario|]. intros [[res reward]|];
    [|apply safe_mret; exact I].
  apply safe_seq; [apply safe_add_reward|]. intros hp.
  apply safe_seq; [apply safe_scenario|]. intros [[res2 reward2]|];
    [|apply safe_mret; exact I].
  apply safe_seq; [apply safe_add_reward|]. intros sp.
  apply safe_mret. exact I.
Qed.

Lemma safe_iterations (w0 : Mcts.world) (fuel : nat) (weight : Mcts.pynum)
    (state : Mcts.loc) (n : nat) :
  forall c, safe w0 (fun _ => True) (VsStay.iterations fuel weight state n c).
Proof.
  induction n as [|n IH]; intros c; simpl; [apply safe_mret; exact I|].
  apply safe_seq; [apply safe_iteration|]. intros c'. apply IH.
Qed.

Lemma safe_rates_of (w0 : Mcts.world) (sims : Z) (c : VsStay.counters) :
  safe w0 (fun _ => True) (VsStay.rates_of int_truediv sims c).
Proof.
  unfold VsStay.rates_of.
  repeat (apply safe_seq; [apply safe_lift|]; intros ?).
  apply safe_mret. exact I.
Qed.

Lemma safe_budgets (w0 : Mcts.world) (fuel : nat) (weight : Mcts.pynum)
    (state : Mcts.loc) (sims_list : list Z) :
  forall results,
    safe w0 (fun _ => True)
      (VsStay.budgets int_truediv fuel weight state sims_list results).
Proof.
  induction sims_list as [|sims rest IH]; intros results; simpl;
    [apply safe_mret; exact I|].
  apply safe_seq; [apply safe_iterations|]. intros c.
  apply safe_seq; [apply safe_rates_of|]. intros r. apply IH.
Qed.

(** A stay that returns is never reported as a bust. *)
Lemma try_apply_stay (st : Mcts.loc) (w w' : Mcts.world) (res : pydict) :
  VsStay.try_apply st "stay" w = (Mcts.Val (Some res), w') ->
  VsStay.result_is_bust res = false.
Proof.
  unfold VsStay.try_apply.
  destruct (Mcts.call st (apply_action "stay") w) as [[res'|e| |] w1] eqn:Hc;
    try discriminate; [|destruct e; discriminate].
  intros [= <- <-]. unfold Mcts.call in Hc.
  apply mbind_inv in Hc as (gs & w2 & Hl & Hc).
  destruct (apply_action "stay" gs) as [[out|e] gs'] eqn:Happ.
  - apply mbind_inv in Hc as (u & w3 & _ & Hc).
    unfold Mcts.mret in Hc. injection Hc as <- _.
    rewrite (stay_outcome _ _ _ Happ). reflexivity.
  - apply mbind_inv in Hc as (u & w3 & _ & Hc). discriminate.
Qed.

Lemma scenario_stay (fuel : nat) (weight : Mcts.pynum) (state : Mcts.loc)
    (w w' : Mcts.world) (res : pydict) (reward : Mcts.pynum) :
  VsStay.scenario fuel weight state "stay" w = (Mcts.Val (Some (res, reward)), w') ->
  VsStay.result_is_bust res = false.
Proof.
  unfold VsStay.scenario. intros H.
  apply mbind_inv in H as (st & w1 & _ & H).
  apply mbind_inv in H as (u & w2 & _ & H).
  apply mbind_inv in H as ([out|] & w3 & Ht & H); [|discriminate].
  apply mbind_inv in H as (ri & w4 & _ & H).
  unfold Mcts.mret in H. injection H as <- _ _.
  eapply try_apply_stay. exact Ht.
Qed.

Lemma iteration_stay_busts (fuel : nat) (weight : Mcts.pynum) (state : Mcts.loc)
    (c c' : VsStay.counters) (w w' : Mcts.world) :
  VsStay.iteration fuel weight state c w = (Mcts.Val c', w') ->
  VsStay.stay_busts c' = VsStay.stay_busts c.
Proof.
  unfold VsStay.iteration. intros H.
  apply mbind_inv in H as ([[res reward]|] & w1 & _ & H);
    [|unfold Mcts.mret in H; injection H as <- _; reflexivity].
  apply mbind_inv in H as (hp & w2 & _ & H).
  apply mbind_inv in H as ([[res2 reward2]|] & w3 & Hs & H);
    [|unfold Mcts.mret in H; injection H as <- _; reflexivity].
  apply mbind_inv in H as (sp & w4 & _ & H).
  unfold Mcts.mret in H. injection H as <- _. simpl.
  rewrite (scenario_stay _ _ _ _ _ _ _ Hs). reflexivity.
Qed.

Lemma iterations_stay_busts (fuel : nat) (weight : Mcts.pynum) (state : Mcts.loc)
    (n : nat) :
  forall (c c' : VsStay.counters) (w w' : Mcts.world),
    VsStay.iterations fuel weight state n c w = (Mcts.Val c', w') ->
    VsStay.stay_busts c' = VsStay.stay_busts c.
Proof.
  induction n as [|n IH]; intros c c' w w'; simpl.
  - unfold Mcts.mret. intros [= <- _]. reflexivity.
  - intros H. apply mbind_inv in H as (c1 & w1 & H1 & H).
    rewrite (IH _ _ _ _ H). eapply iteration_stay_busts. exact H1.
Qed.

Lemma rates_of_stay (sims : Z) (c : VsStay.counters) (r : VsStay.rates)
    (w w' : Mcts.world) :
  VsStay.rates_of int_truediv sims c w = (Mcts.Val r, w') ->
  int_truediv (VsStay.stay_busts c) (Z.max 1 sims) = Ok (VsStay.stay_bust_rate r).
Proof.
  unfold VsStay.rates_of. intros H.
  apply mbind_inv in H as (hb & w1 & _ & H).
  apply mbind_inv in H as (sb & w2 & Hsb & H).
  apply mbind_inv in H as (mf & w3 & _ & H).
  apply mbind_inv in H as (hp & w4 & _ & H).
  apply mbind_inv in H as (mf' & w5 & _ & H).
  apply mbind_inv in H as (sp & w6 & _ & H).
  unfold Mcts.mret in H. injection H as <- _. simpl.
  unfold Mcts.lift in Hsb.
  destruct (int_truediv (VsStay.stay_busts c) (Z.max 1 sims)); [|discriminate].
  unfold Mcts.mret in Hsb. injection Hsb as -> _. reflexivity.
Qed.

Lemma Forall_results_set (P : Z * VsStay.rates -> Prop) (k : Z) (v : VsStay.rates)
    (d : list (Z * VsStay.rates)) :
  P (k, v) -> Forall P d -> Forall P (VsStay.results_set k v d).
Proof.
  intros Hkv. induction 1 as [|[k' v'] d Hx Hd IH]; simpl.
  - constructor; [exact Hkv|constructor].
  - destruct (k =? k'); constructor; assumption.
Qed.

Lemma budgets_stay (fuel : nat) (weight : Mcts.pynum) (state : Mcts.loc)
    (sims_list : list Z) :
  forall (results out : list (Z * VsStay.rates)) (w w' : Mcts.world),
    Forall (fun kv => int_truediv 0 (Z.max 1 (fst kv))
                      = Ok (VsStay.stay_bust_rate (snd kv))) results ->
    VsStay.budgets int_truediv fuel weight state sims_list results w
    = (Mcts.Val out, w') ->
    Forall (fun kv => int_truediv 0 (Z.max 1 (fst kv))
                      = Ok (VsStay.stay_bust_rate (snd kv))) out.
Proof.
  induction sims_list as [|sims rest IH]; intros results out w w' Hres; simpl.
  - unfold Mcts.mret. intros [= <- _]. exact Hres.
  - intros H. apply mbind_inv in H as (c & w1 & Hc & H).
    apply mbind_inv in H as (r & w2 & Hr & H).
    pose proof (rates_of_stay _ _ _ _ _ Hr) as Hrate.
    rewrite (iterations_stay_busts _ _ _ _ _ _ _ _ Hc) in Hrate.
    cbn [VsStay.stay_busts] in Hrate.
    apply (IH _ _ _ _ (Forall_results_set _ sims r results Hrate Hres) H).
Qed.

(** [X21] Whatever the budgets and the state, when [simulate_vs_stay]
    returns, the stay bust rate of every entry is [0 / max(1, sims)]: a
    stay that returns reports "stayed", never "bust", so the counter is
    never raised. The caller's game states and decks are left unchanged;
    every scenario runs on a clone. *)
Theorem X21_stay_bust_rate_is_zero (fuel : nat) (state : Mcts.loc)
    (sims_list : list Z) (weight : Mcts.pynum)
    (w w' : Mcts.world) (results : list (Z * VsStay.rates)) :
  VsStay.simulate_vs_stay int_truediv fuel state sims_list weight w
  = (Mcts.Val results, w') ->
  preserves w w'
  /\ Forall (fun kv => int_truediv 0 (Z.max 1 (fst kv))
                       = Ok (VsStay.stay_bust_rate (snd kv))) results.
Proof.
  unfold VsStay.simulate_vs_stay. intros H. split.
  - destruct (safe_budgets w fuel weight state sims_list [] w (frame_refl w))
      as [[Hp _] _].
    rewrite H in Hp. exact Hp.
  - eapply budgets_stay; [constructor|exact H].
Qed.

End VsStayFacts.

(** An instance: budgets 2 and 3 on the state [ex_about_to_bust]. *)
Lemma X21_stay_bust_rate_is_zero_witness :
  exists results,
    fst (VsStay.simulate_vs_stay small_truediv 100 1%positive [2; 3]
           (Mcts.PFloat 50%float) ex_world_bust) = Mcts.Val results
    /\ map fst results = [2; 3]
    /\ Forall (fun kv => small_truediv 0 (Z.max 1 (fst kv))
                         = Ok (VsStay.stay_bust_rate (snd kv))) results.
Proof.
  assert (Hfst : exists results,
             fst (VsStay.simulate_vs_stay small_truediv 100 1%positive [2; 3]
                    (Mcts.PFloat 50%float) ex_world_bust) = Mcts.Val results
             /\ map fst results = [2; 3])
    by (vm_compute; eexists; split; reflexivity).
  destruct Hfst as (results & Hfst & Hkeys). exists results.
  split; [exact Hfst|]. split; [exact Hkeys|].
  destruct (VsStay.simulate_vs_stay small_truediv 100 1%positive [2; 3]
              (Mcts.PFloat 50%float) ex_world_bust) as [r w'] eqn:E.
  simpl in Hfst. subst r.
  apply (X21_stay_bust_rate_is_zero small_truediv 100 1%positive [2; 3]
           (Mcts.PFloat 50%float) ex_world_bust w' results E).
Defined.

(** ** Determinization *)

Section Determinize.
Context `{RT : PyRuntime}.

(** [X22] [determinize] returns a new object that agrees with the state it
    was given in every field except the order of the cards: the cards are
    those of the original as reordered by the generator of the [random]
    module, which advances; the generator that belongs to the deck is
    copied as it is and not used. The original still reads as before. *)
Theorem X22_determinize_reorders_a_copy (w : Mcts.world) (st : Mcts.loc)
    (gs : GameState) :
  Mcts.load_state st w = (Mcts.Val gs, w) ->
  exists st' w',
    Mcts.determinize st w = (Mcts.Val st', w')
    /\ Mcts.gs_heap w !! st' = None
    /\ Mcts.load_state st' w'
       = (Mcts.Val
            (with_deck
               (mkDeck (rng (deck gs))
                  (fst (rng_shuffle (Mcts.global_rng w) (cards (deck gs)))))
               gs),
          w')
    /\ Mcts.global_rng w'
       = snd (rng_shuffle (Mcts.global_rng w) (cards (deck gs)))
    /\ Mcts.load_state st w' = (Mcts.Val gs, w').
Proof.
  intros Hload.
  destruct (safe_determinize w st w (frame_refl w)) as [[Hp _] Hfresh].
  assert (Hl0 : fst (Mcts.load_state st w) = Mcts.Val gs)
    by (rewrite Hload; reflexivity).
  pose proof (fun w' => load_state_preserved w w' st gs) as Hkeep.
  unfold Mcts.determinize, Mcts.mbind, Mcts.clone, Mcts.shuffle_deck in *.
  destruct (load_state_inv _ _ _ _ Hload) as (_ & obj & d & Ho & Hd & ->).
  rewrite Ho, Hd in *. simpl in *.
  rewrite lookup_insert_eq in *. simpl in *. rewrite lookup_insert_eq in *.
  destruct (rng_shuffle (Mcts.global_rng w) (cards d)) as [cs g] eqn:Hs.
  simpl in *. eexists _, _. split; [reflexivity|].
  split; [apply Hfresh; reflexivity|].
  split.
  - unfold Mcts.load_state. simpl. rewrite lookup_insert_eq. simpl.
    rewrite lookup_insert_eq. reflexivity.
  - split; [reflexivity|]. apply Hkeep; [exact Hp|exact Hl0].
Qed.

End Determinize.

Lemma X22_determinize_reorders_a_copy_witness :
  exists st' w',
    Mcts.determinize 1%positive ex_world_bust = (Mcts.Val st', w')
    /\ Mcts.gs_heap ex_world_bust !! st' = None
    /\ Mcts.load_state st' w'
       = (Mcts.Val
            (with_deck
               (mkDeck (rng (deck ex_about_to_bust))
                  (fst (rng_shuffle (Mcts.global_rng ex_world_bust)
                          (cards (deck ex_about_to_bust)))))
               ex_about_to_bust),
          w')
    /\ Mcts.global_rng w'
       = snd (rng_shuffle (Mcts.global_rng ex_world_bust)
                (cards (deck ex_about_to_bust)))
    /\ Mcts.load_state 1%positive w' = (Mcts.Val ex_about_to_bust, w').
Proof.
  apply (X22_determinize_reorders_a_copy ex_world_bust 1%positive ex_about_to_bust).
  reflexivity.
Defined.

(** ** A game with a search that has no budget *)

Section ZeroBudgetGame.
Context `{RT : PyRuntime}.

(** With no simulation at all the search has nothing to compare. *)
Lemma run_without_simulations (agent : Mcts.MCTSAgent) (fuel : nat)
    (st0 : Mcts.loc) (w : Mcts.world) (gs : GameState) :
  Mcts.load_state st0 w = (Mcts.Val gs, w) ->
  round_over gs = false -> winner gs = None ->
  fst (Mcts.run agent fuel st0 (Some 0) w) = Mcts.Val None.
Proof.
  intros Hload Hro Hwn.
  destruct (load_state_inv _ _ _ _ Hload) as (_ & obj & d & Ho & Hd & ->).
  simpl in Hro, Hwn.
  assert (Hlive : live_state w st0 false None) by (exists obj, d; auto).
  destruct (clone_live w st0 false None Hlive) as (st & w1 & Hc1 & Hl1 & _ & _).
  destruct (shuffle_live w1 st false None Hl1) as (w2 & Hs2 & Hk2 & _).
  remember (fresh (dom (Mcts.node_heap w2))) as root eqn:Eroot.
  pose (w3 := Mcts.set_node_heap
                (<[root := Mcts.mkNode st None None [] 0 0%float]>
                   (Mcts.node_heap w2)) w2).
  assert (Hlive3 : live_state w3 st false None).
  { eapply live_state_same_heaps; [| |apply Hk2, Hl1]; reflexivity. }
  assert (Hroot : fresh_root w3 root st []).
  { split; [apply lookup_insert_eq|]. split; [constructor|exact Hlive3]. }
  destruct Hlive3 as (obj3 & d3 & Ho3 & Hd3 & Hr3 & Hw3).
  destruct (expand_actions_fresh_root root st ["hit"; "stay"] w3 [] Hroot)
    as (w4 & cs & He & Hr4 & Hcs4 & _).
  assert (Hexp : Mcts.expand root w3 = (Mcts.Val tt, w4)).
  { unfold Mcts.expand. destruct Hroot as (Hr & _ & _).
    rewrite (mbind_val _ _ _ _ _ (get_node_val w3 root _ Hr)). cbn [Mcts.state].
    rewrite (mbind_val _ _ w3 w3 (with_deck d3 obj3))
      by (unfold Mcts.load_state; rewrite Ho3, Hd3; reflexivity).
    rewrite legal_actions_open by (simpl; assumption). exact He. }
  unfold Mcts.run, Mcts.determinize.
  rewrite (mbind_val _ _ w w2 st)
    by (rewrite (mbind_val _ _ _ _ _ Hc1), (mbind_val _ _ _ _ _ Hs2); reflexivity).
  rewrite (mbind_val _ _ w2 w3 root)
    by (unfold Mcts.new_node; rewrite <- Eroot; reflexivity).
  rewrite (mbind_val _ _ _ _ _ Hexp).
  simpl Z.to_nat. simpl Mcts.simulate_many.
  rewrite (mbind_val _ _ w4 w4 tt) by reflexivity.
  rewrite (mbind_val _ _ _ _ _ (get_node_val w4 root _ Hr4)).
  cbn [Mcts.children]. rewrite (pick_best_unvisited w4 cs Hcs4 None).
  reflexivity.
Qed.

(** [X23] A game in which the first seat is taken by a search agent whose
    budget [sims] is 0 never gets past the first turn: the agent answers
    [None], [apply_action] rejects it, and [play_game] raises ValueError. *)
Theorem X23_zero_budget_agent_stops_the_game (turns fuel : nat)
    (a : Mcts.MCTSAgent) (others : list Harness.agent)
    (seed : option Z) (env : Z) (w : Mcts.world) :
  Mcts.sims a = 0 ->
  fst (Harness.play_game (S turns) fuel (Harness.AgentMCTS a :: others) seed env w)
  = Mcts.Exc ValueError.
Proof.
  intros Hsims. unfold Harness.play_game.
  destruct (Harness.new_game (Z.of_nat (length (Harness.AgentMCTS a :: others)))
              seed env w) as [r w1] eqn:Hnew.
  assert (Hr : exists st, r = Mcts.Val st).
  { unfold Harness.new_game, GameState_init, Flip7Deck_init in Hnew.
    change (Z.of_nat (length (cards (mkDeck (Random_new seed env) initial_cards)))
            =? 94) with true in Hnew.
    cbv iota in Hnew. injection Hnew as <- _. eauto. }
  destruct Hr as [st ->].
  rewrite (mbind_val _ _ _ _ _ Hnew).
  destruct (new_game_inv _ _ _ _ _ _ Hnew) as (gs0 & Hinit & Hload & _ & _).
  assert (Hfields : round_over gs0 = false /\ winner gs0 = None
                    /\ current_player gs0 = 0).
  { unfold GameState_init in Hinit.
    destruct (Flip7Deck_init seed env); [|discriminate].
    injection Hinit as <-. auto. }
  destruct Hfields as (Hro & Hwn & Hcur).
  simpl Harness.play_loop.
  rewrite (mbind_val _ _ _ _ _ Hload).
  unfold game_over. rewrite Hwn, Hcur.
  assert (Hidx : py_index (Harness.AgentMCTS a :: others) 0 = Some 0%nat).
  { unfold py_index. simpl length.
    destruct (Z.ltb_spec 0 (Z.of_nat (S (length others)))); [reflexivity|lia]. }
  rewrite Hidx.
  change ((Harness.AgentMCTS a :: others) !! 0%nat) with (Some (Harness.AgentMCTS a)).
  cbn [Harness.agent_action]. rewrite Hsims.
  pose proof (run_without_simulations a fuel st w1 gs0 Hload Hro Hwn) as Hnone.
  destruct (Mcts.run a fuel st (Some 0) w1) as [res w2] eqn:Hrun.
  simpl in Hnone. subst res.
  rewrite (mbind_val _ _ _ _ _ Hrun).
  assert (Hload2 : Mcts.load_state st w2 = (Mcts.Val gs0, w2)).
  { apply (agent_action_keeps fuel (Harness.AgentMCTS a) st w1 w2 gs0 None Hload).
    simpl. rewrite Hsims. exact Hrun. }
  unfold Harness.apply_answer.
  unfold Mcts.mbind at 1. unfold Mcts.mbind at 1. rewrite Hload2. reflexivity.
Qed.

End ZeroBudgetGame.

Lemma X23_zero_budget_agent_stops_the_game_witness :
  fst (Harness.play_game 500 100
         [Harness.AgentMCTS (Mcts.mkAgent 0 (Mcts.PFloat 50%float));
          Harness.AgentHeuristic] (Some 42) 0 ex_world)
  = Mcts.Exc ValueError.
Proof.
  apply (X23_zero_budget_agent_stops_the_game 499 100
           (Mcts.mkAgent 0 (Mcts.PFloat 50%float)) [Harness.AgentHeuristic]
           (Some 42) 0 ex_world).
  reflexivity.
Defined.

(** ** Copying a deck *)

Section DeckCopy.
Context `{RT : PyRuntime}.

(** [X24] [Flip7Deck.copy] never raises (the deck it builds on the way
    passes the size assertion), keeps the cards in their order and so the
    count, and gives the copy a generator seeded afresh: the generator
    state of the source is not carried over, so two decks with the same
    cards have the same copy, and drawing from the copy gives the card a
    draw from the source would give. *)
Theorem X24_deck_copy_forgets_generator (d d2 : Flip7Deck) (env : Z) :
  Flip7Deck_copy d env = Ok (mkDeck (rng_urandom env) (cards d))
  /\ (cards d2 = cards d -> Flip7Deck_copy d2 env = Flip7Deck_copy d env)
  /\ (forall d', Flip7Deck_copy d env = Ok d' ->
        Flip7Deck_remaining d' = Flip7Deck_remaining d
        /\ fst (Flip7Deck_draw d') = fst (Flip7Deck_draw d)).
Proof.
  assert (Hcopy : forall x, Flip7Deck_copy x env
                            = Ok (mkDeck (rng_urandom env) (cards x))).
  { intros x. unfold Flip7Deck_copy, Flip7Deck_init.
    change (Z.of_nat (length (cards (mkDeck (Random_new None env) initial_cards)))
            =? 94) with true.
    reflexivity. }
  split; [apply Hcopy|]. split.
  - intros Hc. rewrite !Hcopy, Hc. reflexivity.
  - intros d' Hd'. rewrite Hcopy in Hd'. injection Hd' as <-.
    unfold Flip7Deck_remaining, Flip7Deck_draw. simpl.
    split; [reflexivity|]. destruct (cards d); reflexivity.
Qed.

End DeckCopy.
